(** * Session and token lifecycle of the dashboard backend

    A shallow embedding of [backend/src/routes/auth.route.ts] together with
    the [users] table of [backend/src/db/schema.ts].  Route handlers are
    functions from the database contents and a request to the new database
    contents and the response; the two handlers that suspend at an [await]
    are given by the segments before and after it, so that requests served
    in between can be told.  The two npm packages the handlers call
    ([jsonwebtoken] and [bcrypt]) are interfaces the development is
    parametric in. *)

From stdpp Require Import base decidable option list strings pretty gmap sorting.
From Stdlib Require Import Ascii ZArith QArith Qabs Lia.

Set Warnings "-clear-no-such-hyp".

Local Open Scope string_scope.
Local Open Scope list_scope.
Local Open Scope Z_scope.

(** ** The [users] table *)

(** One row of [sqliteTable('users', ...)].  The [refresh_tokens] column is
    nullable text that holds [JSON.stringify] of an array of token strings;
    it is kept here as the array it denotes ([None] for SQL NULL), since
    [JSON.parse (JSON.stringify l)] is [l] on arrays of strings. *)
Module users.
Record row := mk {
  id : string;
  username : string;
  passwordHash : string;
  role : string;
  refreshTokens : option (list string);
  defaultDashboardId : option string
}.

(** [.set({ refreshTokens: ... })] on one row. *)
Definition set_refreshTokens (v : list string) (u : row) : row :=
  mk (id u) (username u) (passwordHash u) (role u) (Some v) (defaultDashboardId u).
End users.

(** The table contents, in row order (the order [.all()] returns). *)
Abbreviation db := (list users.row).

(** [id TEXT PRIMARY KEY] and [username TEXT NOT NULL UNIQUE]. *)
Definition primary_key (s : db) : Prop := NoDup (users.id <$> s).
Definition unique_username (s : db) : Prop := NoDup (users.username <$> s).

(** [db.select().from(users).where(eq(users.username, name)).get()]:
    the first matching row, if any. *)
Definition select_where_username (s : db) (name : string) : option users.row :=
  snd <$> list_find (λ u, users.username u = name) s.

(** [db.select().from(users).all()]. *)
Definition select_all (s : db) : list users.row := s.

(** [db.update(users).set({ refreshTokens: JSON.stringify(v) })
       .where(eq(users.id, i)).run()]. *)
Definition update_refreshTokens (s : db) (i : string) (v : list string) : db :=
  (λ u, if decide (users.id u = i) then users.set_refreshTokens v u else u) <$> s.

(** [db.insert(users).values(r).run()]; SQLite rejects the row (the call
    throws) when the primary key or the unique username is already taken. *)
Definition insert (s : db) (r : users.row) : option db :=
  if decide (users.id r ∈ users.id <$> s) then None
  else if decide (users.username r ∈ users.username <$> s) then None
  else Some (s ++ [r]).

(** [user.refreshTokens ? JSON.parse(user.refreshTokens) : []]. *)
Definition parse_refreshTokens (u : users.row) : list string :=
  match users.refreshTokens u with
  | Some tokens => tokens
  | None => []
  end.

(** ** Array helpers of the handlers *)

(** [Array.prototype.indexOf]: position of the first occurrence, [-1] when
    there is none. *)
Fixpoint indexOf (l : list string) (x : string) : Z :=
  match l with
  | [] => -1
  | y :: l' =>
      if decide (y = x) then 0
      else let i := indexOf l' x in
           if decide (i = -1) then -1 else i + 1
  end.

(** [arr.splice(i, 1)] for an index [0 <= i]. *)
Definition splice1 (l : list string) (i : Z) : list string :=
  delete (Z.to_nat i) l.

(** [tokens.filter((t) => t !== refreshToken)]. *)
Definition filter_out (refreshToken : string) (tokens : list string) : list string :=
  filter (λ t, t ≠ refreshToken) tokens.

(** [tokens.includes(refreshToken)]. *)
Definition includes (tokens : list string) (refreshToken : string) : bool :=
  bool_decide (refreshToken ∈ tokens).

(** ** Requests and responses (the part of Express the handlers use) *)

(** A value of the JSON request body, as far as the handlers and [bcrypt]
    tell values apart: a string, or a value that is not a string (a number,
    a boolean, [null], an array, an object, or [undefined] for a missing
    property) of the given truthiness. *)
Inductive body_value :=
  | Text (s : string)
  | NotText (t : bool).

(** What the handlers read of a request.  The username is a string when it
    is present: it goes to the store's comparison and into the token
    payload, and what the store's driver does with a parameter that is not
    a string is not in this repository's code.  The password is any value of
    the body: it goes to [bcrypt], which tells strings from other values. *)
Record request := mkRequest {
  body_username : option string;        (* req.body.username *)
  body_password : body_value;           (* req.body.password *)
  cookies_refresh_token : option string (* req.cookies?.refresh_token *)
}.

(** JavaScript truthiness of a possibly missing string: [undefined] and the
    empty string are falsy. *)
Definition truthy (v : option string) : option string :=
  match v with
  | Some s => if decide (s = "") then None else Some s
  | None => None
  end.

(** Truthiness of a value of the body. *)
Definition is_truthy (v : body_value) : bool :=
  match v with
  | Text s => bool_decide (s ≠ "")
  | NotText t => t
  end.

Record cookie_options := mkOptions {
  httpOnly : option bool;
  secure : option bool;
  sameSite : option string;
  path : option string;
  maxAge : option Z
}.

Inductive cookie_op :=
  | SetCookie (name value : string) (o : cookie_options)
  | ClearCookie (name : string) (o : cookie_options).

Inductive json_value :=
  | JString (s : string)
  | JBool (b : bool).

(** An object literal passed to [res.json], as its key/value pairs. *)
Abbreviation json := (list (string * json_value)).

Record response := mkResponse {
  statusCode : Z;
  cookies : list cookie_op;   (* Set-Cookie headers, in call order *)
  body : option json
}.

(** A fresh [res]: status 200, nothing written. *)
Definition res0 : response := mkResponse 200 [] None.

Definition res_status (code : Z) (res : response) : response :=
  mkResponse code (cookies res) (body res).
Definition res_cookie (name value : string) (o : cookie_options) (res : response) : response :=
  mkResponse (statusCode res) (cookies res ++ [SetCookie name value o]) (body res).
Definition res_clearCookie (name : string) (o : cookie_options) (res : response) : response :=
  mkResponse (statusCode res) (cookies res ++ [ClearCookie name o]) (body res).
Definition res_json (j : json) (res : response) : response :=
  mkResponse (statusCode res) (cookies res) (Some j).
Definition res_end (res : response) : response := res.

(** The option objects that occur in the handlers. *)
Definition session_cookie (age : Z) : cookie_options :=
  mkOptions (Some true) (Some false) (Some "lax") (Some "/") (Some age).
Definition clear_httpOnly : cookie_options :=
  mkOptions (Some true) (Some false) (Some "lax") (Some "/") None.
Definition clear_plain : cookie_options :=
  mkOptions None (Some false) None (Some "/") None.

(** The response of every [catch (error)] block. *)
Definition internal_error : response :=
  res_json [("message", JString "Internal server error")] (res_status 500 res0).

(** [try { ... } catch (error) { res.status(500).json(...) }] around a body
    that either completes or throws before it has written anything. *)
Definition try_catch (s : db) (r : option (db * response)) : db * response :=
  match r with
  | Some out => out
  | None => (s, internal_error)
  end.

(** ** The libraries the handlers call *)

(** The payload objects [jwt.sign] is given and [jwt.verify] returns:
    [{ username, role }] for access tokens, [{ username }] for refresh
    tokens. *)
Module payload.
Record t := mk { username : string; role : option string }.
End payload.

(** Outcome of [jwt.verify]: the decoded payload, or a thrown error of which
    the handler reads [err.name]. *)
Inductive verify_result :=
  | Verified (decoded : payload.t)
  | VerifyError (name : string).

(** A JavaScript number: finite, or one of NaN, Infinity and -Infinity,
    which a product with a positive constant and [new Date] do not tell
    apart.  Products are taken exactly. *)
Inductive number :=
  | Finite (q : Q)
  | NotFinite.

Definition times (x : number) (k : Z) : number :=
  match x with
  | Finite q => Finite (q * inject_Z k)
  | NotFinite => NotFinite
  end.

(** The [exp] of an unverified payload.  The cast [as { exp: number }] checks
    nothing: the property is whatever JSON value the token's payload holds
    there, or [undefined].  The handler reads its truthiness (line 34) and,
    through [decoded.exp * 1000], its conversion to a number (line 35):
    [{"exp": "abc"}] is truthy and converts to NaN. *)
Record exp_claim := mkExp {
  exp_truthy : bool;
  exp_number : number
}.

(** [jsonwebtoken].  The wall clock its functions read is passed as the last
    argument, in milliseconds.  [decode] is [jwt.decode(token)] as far as
    [getTokenExpiration] reads it: [None] when the result is [null] (or the
    call throws, which the helper catches), else the payload's [exp]. *)
Class JsonWebToken := {
  jwt_sign : payload.t → string → string → Z → string;
  jwt_verify : string → string → Z → verify_result;
  jwt_decode : string → option exp_claim
}.

(** [bcrypt] on strings; [hash] draws a random salt, made explicit. *)
Class Bcrypt := {
  bcrypt_hash : string → Z → string → string;
  bcrypt_compare : string → string → bool
}.

(** [await bcrypt.hash(data, saltRounds)] and [await bcrypt.compare(data,
    hash)] on a value of the request body.  The package rejects the promise
    when [data] is not a string ("data must be a string or Buffer ...",
    "data and hash must be strings"), and the [await] throws ([None]). *)
Definition await_hash `{!Bcrypt} (data : body_value) (saltRounds : Z) (salt : string)
  : option string :=
  match data with
  | Text password => Some (bcrypt_hash password saltRounds salt)
  | NotText _ => None
  end.

Definition await_compare `{!Bcrypt} (data : body_value) (hash : string) : option bool :=
  match data with
  | Text password => Some (bcrypt_compare password hash)
  | NotText _ => None
  end.

(** What a handler invocation reads from its surroundings. *)
Record ambient := mkAmbient {
  clock : Z;       (* Date.now() *)
  uuid : string;   (* randomUUID(), the default of users.id *)
  salt : string    (* the salt bcrypt.hash draws *)
}.

(** ** JavaScript dates, as far as the refresh log line needs them *)

(** [new Date(ms)]: a time value, or Invalid Date ([None]) outside
    the range of plus or minus 8.64e15 ms. *)
Definition new_Date (ms : Z) : option Z :=
  if decide (Z.abs ms ≤ 8640000000000000) then Some ms else None.

(** [new Date(x)] for a number that need not be an integer: Invalid Date
    when [x] is not finite or out of range, else the integer part of [x]. *)
Definition new_Date_number (x : number) : option Z :=
  match x with
  | Finite q =>
      if Qle_bool (Qabs q) (inject_Z 8640000000000000)
      then Some (Z.quot (Qnum q) (Z.pos (Qden q)))
      else None
  | NotFinite => None
  end.

(** [d.toISOString()] throws a RangeError on an Invalid Date; only whether it
    returns matters, the text goes to the console. *)
Definition toISOString (d : option Z) : option unit :=
  match d with
  | Some _ => Some tt
  | None => None
  end.

(** ** Token lifetimes *)

Definition ACCESS_TOKEN_EXPIRY : string := "3d".
Definition REFRESH_TOKEN_EXPIRY : string := "7d".

(** The time-span strings [jsonwebtoken] accepts for [expiresIn] (the [ms]
    package): a decimal number followed by a unit; the value in
    milliseconds. *)
Definition digit_value (c : Ascii.ascii) : option Z :=
  let n := Z.of_N (Ascii.N_of_ascii c) in
  if decide (48 ≤ n ≤ 57) then Some (n - 48) else None.

Definition unit_ms (u : string) : option Z :=
  if decide (u = "ms") then Some 1
  else if decide (u = "s") then Some 1000
  else if decide (u = "m") then Some 60000
  else if decide (u = "h") then Some 3600000
  else if decide (u = "d") then Some 86400000
  else if decide (u = "w") then Some 604800000
  else None.

Fixpoint ms_go (acc : Z) (seen : bool) (s : string) : option Z :=
  match s with
  | EmptyString => None
  | String c s' =>
      match digit_value c with
      | Some d => ms_go (10 * acc + d) true s'
      | None => if seen then (λ u, acc * u) <$> unit_ms s else None
      end
  end.

Definition ms (s : string) : option Z := ms_go 0 false s.

(** ** The route handlers *)

Section routes.
Context `{!JsonWebToken, !Bcrypt}.

(** [process.env.SECRET].  The module throws while loading unless it is
    set, so the handlers only ever run with a secret. *)
Variable SECRET : string.

Definition JWT_SECRET : string := SECRET.
Definition REFRESH_TOKEN_SECRET : string := SECRET.

Definition generateAccessToken (now : Z) (username role : string) : string :=
  jwt_sign (payload.mk username (Some role)) JWT_SECRET ACCESS_TOKEN_EXPIRY now.

Definition generateRefreshToken (now : Z) (username : string) : string :=
  jwt_sign (payload.mk username None) REFRESH_TOKEN_SECRET REFRESH_TOKEN_EXPIRY now.

(** [decoded && decoded.exp ? new Date(decoded.exp * 1000) : null]. *)
Definition getTokenExpiration (token : string) : option (option Z) :=
  match jwt_decode token with
  | Some decoded =>
      if exp_truthy decoded then Some (new_Date_number (times (exp_number decoded) 1000))
      else None
  | None => None
  end.

(** The [if (expirationDate) { ... console.log(...toISOString()...) }]
    block of the refresh route: returns, or throws ([None]). *)
Definition log_expiration (refreshToken : string) : option unit :=
  match getTokenExpiration refreshToken with
  | Some expirationDate => toISOString expirationDate
  | None => Some tt
  end.

Definition message (m : string) : json := [("message", JString m)].

(** *** [POST /signup]

    The handler is [async] and suspends once, at [await bcrypt.hash] (line
    62); other requests are served while it waits.  It is given as the two
    segments the [await] splits it in: each runs without interruption, on
    the table as it is when the segment starts. *)

(** The locals alive across the [await]. *)
Record signup_pending := mkSignupPending {
  signup_username : string;
  signup_password : body_value
}.

(** Lines 46-62, up to the [await]: the handler answers, or suspends. *)
Definition signup_begin (s : db) (req : request) : response + signup_pending :=
  match truthy (body_username req), is_truthy (body_password req) with
  | Some username, true =>
      match select_where_username s username with
      | Some existingUser =>
          inl (res_json (message "Username already exists") (res_status 409 res0))
      | None => inr (mkSignupPending username (body_password req))
      end
  | _, _ =>
      inl (res_json (message "Username and password are required") (res_status 400 res0))
  end.

(** Lines 62-75, from the settled promise on; [s] is the table at that
    moment.  A rejected promise and a failed insert end in the [catch]. *)
Definition signup_resume (amb : ambient) (s : db) (k : signup_pending) : db * response :=
  try_catch s
    (let username := signup_username k in
     let saltRounds := 10 in
     passwordHash ← await_hash (signup_password k) saltRounds (salt amb);
     let allUsers := select_all s in
     let role := if decide (length allUsers = 0%nat) then "admin" else "user" in
     s' ← insert s (users.mk (uuid amb) username passwordHash role (Some []) None);
     Some (s', res_json [("message", JString "User created successfully");
                         ("username", JString username)]
                 (res_status 201 res0))).

(** The handler when no other request is served while it waits. *)
Definition signup (amb : ambient) (s : db) (req : request) : db * response :=
  match signup_begin s req with
  | inl res => (s, res)
  | inr k => signup_resume amb s k
  end.

(** *** [POST /login]

    Suspends once, at [await bcrypt.compare] (line 100), holding the row it
    read at line 93. *)

(** The locals alive across the [await]. *)
Record login_pending := mkLoginPending {
  login_username : string;
  login_password : body_value;
  login_user : users.row
}.

(** Lines 84-100, up to the [await]. *)
Definition login_begin (s : db) (req : request) : response + login_pending :=
  match truthy (body_username req), is_truthy (body_password req) with
  | Some username, true =>
      match select_where_username s username with
      | None => inl (res_json (message "Invalid credentials") (res_status 401 res0))
      | Some user => inr (mkLoginPending username (body_password req) user)
      end
  | _, _ =>
      inl (res_json (message "Username and password are required") (res_status 400 res0))
  end.

(** Lines 100-140, from the settled promise on; [s] is the table at that
    moment, [user] is the row read before the [await]. *)
Definition login_resume (amb : ambient) (s : db) (k : login_pending) : db * response :=
  try_catch s
    (let username := login_username k in
     let user := login_user k in
     passwordMatch ← await_compare (login_password k) (users.passwordHash user);
     if negb passwordMatch then
       Some (s, res_json (message "Invalid credentials") (res_status 401 res0))
     else
       let token := generateAccessToken (clock amb) username (users.role user) in
       let refreshToken := generateRefreshToken (clock amb) username in
       let refreshTokens := parse_refreshTokens user ++ [refreshToken] in
       let s' := update_refreshTokens s (users.id user) refreshTokens in
       let res := res_cookie "access_token" token
                    (session_cookie (24 * 60 * 60 * 1000)) res0 in
       let res := res_cookie "refresh_token" refreshToken
                    (session_cookie (7 * 24 * 60 * 60 * 1000)) res in
       Some (s', res_json [("message", JString "Login successful");
                           ("username", JString username);
                           ("isAdmin", JBool (bool_decide (users.role user = "admin")))]
                   res)).

(** The handler when no other request is served while it waits. *)
Definition login (amb : ambient) (s : db) (req : request) : db * response :=
  match login_begin s req with
  | inl res => (s, res)
  | inr k => login_resume amb s k
  end.

(** The [for (const u of allUsers)] loop of the refresh route's
    token-not-found branch: every row of the snapshot whose list holds the
    token is written back without it. *)
Definition sweep (s : db) (refreshToken : string) : db :=
  foldl (λ cur u,
           match users.refreshTokens u with
           | Some tokens =>
               let filtered := filter_out refreshToken tokens in
               if decide (length filtered ≠ length tokens)
               then update_refreshTokens cur (users.id u) filtered
               else cur
           | None => cur
           end)
        s (select_all s).

Definition clear_session (res : response) : response :=
  res_clearCookie "refresh_token" clear_httpOnly
    (res_clearCookie "access_token" clear_httpOnly res).

(** [POST /refresh]; declared [async], but without an [await]: it runs to
    its end without interruption. *)
Definition refresh (amb : ambient) (s : db) (req : request) : db * response :=
  try_catch s
    match truthy (cookies_refresh_token req) with
    | None => Some (s, res_end (res_status 204 res0))
    | Some refreshToken =>
        _ ← log_expiration refreshToken;
        match jwt_verify refreshToken REFRESH_TOKEN_SECRET (clock amb) with
        | VerifyError name =>
            let tokenExpired := bool_decide (name = "TokenExpiredError") in
            if tokenExpired then
              Some (s, res_json (message "Refresh token expired")
                         (res_status 401 (clear_session res0)))
            else
              Some (s, res_json (message "Invalid refresh token") (res_status 401 res0))
        | Verified decoded =>
            match select_where_username s (payload.username decoded) with
            | None =>
                Some (s, res_json (message "User not found")
                           (res_status 401 (clear_session res0)))
            | Some user =>
                let userRefreshTokens := parse_refreshTokens user in
                let tokenIndex := indexOf userRefreshTokens refreshToken in
                if decide (tokenIndex = -1) then
                  Some (sweep s refreshToken,
                        res_json (message "Refresh token not found")
                          (res_status 401 (clear_session res0)))
                else
                  let newAccessToken :=
                    generateAccessToken (clock amb) (payload.username decoded)
                      (users.role user) in
                  let res := res_cookie "access_token" newAccessToken
                               (session_cookie (24 * 60 * 60 * 1000)) res0 in
                  let newRefreshToken :=
                    generateRefreshToken (clock amb) (payload.username decoded) in
                  let res := res_cookie "refresh_token" newRefreshToken
                               (session_cookie (7 * 24 * 60 * 60 * 1000)) res in
                  let userRefreshTokens :=
                    splice1 userRefreshTokens tokenIndex ++ [newRefreshToken] in
                  let s' := update_refreshTokens s (users.id user) userRefreshTokens in
                  Some (s', res_json [("message", JString "Token refreshed successfully");
                                      ("isAdmin", JBool (bool_decide (users.role user = "admin")))]
                              res)
            end
        end
    end.

(** The [for (const user of allUsers)] loop of the logout route: the first
    row whose list includes the token is written back without it, then
    [break]. *)
Fixpoint logout_scan (allUsers : list users.row) (s : db) (refreshToken : string) : db :=
  match allUsers with
  | [] => s
  | user :: rest =>
      match users.refreshTokens user with
      | Some tokens =>
          if includes tokens refreshToken then
            update_refreshTokens s (users.id user) (filter_out refreshToken tokens)
          else logout_scan rest s refreshToken
      | None => logout_scan rest s refreshToken
      end
  end.

(** [POST /logout] *)
Definition logout (amb : ambient) (s : db) (req : request) : db * response :=
  try_catch s
    match truthy (cookies_refresh_token req) with
    | Some refreshToken =>
        let s' := logout_scan (select_all s) s refreshToken in
        let res := clear_session res0 in
        let res := res_clearCookie "access_token" clear_plain res in
        let res := res_clearCookie "refresh_token" clear_plain res in
        Some (s', res_json (message "Logged out successfully") res)
    | None =>
        Some (s, res_json (message "No session to logout") res0)
    end.

(** [GET /check-users] *)
Definition check_users (s : db) : response :=
  let allUsers := select_all s in
  res_json [("hasUsers", JBool (bool_decide (0 < length allUsers)%nat))] res0.

(** ** Sequences of requests *)

Inductive op :=
  | Signup (req : request)
  | Login (req : request)
  | Refresh (req : request)
  | Logout (req : request)
  | CheckUsers.

Definition step (s : db) (x : ambient * op) : db * response :=
  match x.2 with
  | Signup req => signup x.1 s req
  | Login req => login x.1 s req
  | Refresh req => refresh x.1 s req
  | Logout req => logout x.1 s req
  | CheckUsers => (s, check_users s)
  end.

(** The database after serving the requests one after the other. *)
Definition run (s : db) (xs : list (ambient * op)) : db :=
  foldl (λ cur x, (step cur x).1) s xs.

(** The responses to the requests served one after the other, in order. *)
Fixpoint responses (s : db) (xs : list (ambient * op)) : list response :=
  match xs with
  | [] => []
  | x :: xs' => (step s x).2 :: responses (step s x).1 xs'
  end.

(** ** Requests in flight

    While a signup or a login waits for [bcrypt], the server goes on serving
    requests: its state is the table and the handlers that are suspended. *)

Inductive suspended :=
  | SignupAwaits (k : signup_pending)
  | LoginAwaits (k : login_pending).

Record server := mkServer {
  table : db;
  in_flight : list suspended
}.

Inductive event :=
  | Arrives (x : op)    (* a request arrives; its handler runs up to its await, or to its end *)
  | Settles (i : nat).  (* the promise of the [i]-th suspended handler settles; it runs to its end *)

(** One event, with what the segment that runs reads from its surroundings:
    the new state and the response, if the segment sends one. *)
Definition serve (σ : server) (e : ambient * event) : server * option response :=
  match e.2 with
  | Arrives (Signup req) =>
      match signup_begin (table σ) req with
      | inl res => (σ, Some res)
      | inr k => (mkServer (table σ) (in_flight σ ++ [SignupAwaits k]), None)
      end
  | Arrives (Login req) =>
      match login_begin (table σ) req with
      | inl res => (σ, Some res)
      | inr k => (mkServer (table σ) (in_flight σ ++ [LoginAwaits k]), None)
      end
  | Arrives x =>
      let out := step (table σ) (e.1, x) in
      (mkServer out.1 (in_flight σ), Some out.2)
  | Settles i =>
      match in_flight σ !! i with
      | Some (SignupAwaits k) =>
          let out := signup_resume e.1 (table σ) k in
          (mkServer out.1 (delete i (in_flight σ)), Some out.2)
      | Some (LoginAwaits k) =>
          let out := login_resume e.1 (table σ) k in
          (mkServer out.1 (delete i (in_flight σ)), Some out.2)
      | None => (σ, None)
      end
  end.

(** The state after a sequence of events, and the responses sent. *)
Definition serve_all (σ : server) (es : list (ambient * event)) : server :=
  foldl (λ cur e, (serve cur e).1) σ es.

Fixpoint sent (σ : server) (es : list (ambient * event)) : list response :=
  match es with
  | [] => []
  | e :: es' =>
      match (serve σ e).2 with
      | Some res => res :: sent (serve σ e).1 es'
      | None => sent (serve σ e).1 es'
      end
  end.

(** The schedule in which every promise settles before the next request
    arrives; on it the server does what [run] does (Lemma
    [serve_one_by_one]). *)
Fixpoint one_by_one (xs : list (ambient * op)) : list (ambient * event) :=
  match xs with
  | [] => []
  | x :: xs' => (x.1, Arrives x.2) :: (x.1, Settles 0%nat) :: one_by_one xs'
  end.

(** The list stored for the user a name resolves to. *)
Definition stored_tokens (s : db) (name : string) : list string :=
  match select_where_username s name with
  | Some user => parse_refreshTokens user
  | None => []
  end.

End routes.

(** ** Vocabulary of the properties *)

(** The lifetime, in milliseconds, of the token a session cookie carries. *)
Definition token_lifetime (name : string) : option Z :=
  if decide (name = "access_token") then ms ACCESS_TOKEN_EXPIRY
  else if decide (name = "refresh_token") then ms REFRESH_TOKEN_EXPIRY
  else None.

(** A row with every occurrence of a token taken out of its list. *)
Definition strip_token (refreshToken : string) (u : users.row) : users.row :=
  match users.refreshTokens u with
  | Some tokens => users.set_refreshTokens (filter_out refreshToken tokens) u
  | None => u
  end.

(** No row holds the token. *)
Definition token_absent (refreshToken : string) (s : db) : Prop :=
  Forall (λ u, refreshToken ∉ parse_refreshTokens u) s.

(** [new Date(x)] is an Invalid Date: [x] is not finite, or beyond plus or
    minus 8.64e15 ms. *)
Definition invalid_time (x : number) : Prop :=
  match x with
  | Finite q => (inject_Z 8640000000000000 < Qabs q)%Q
  | NotFinite => True
  end.

(** The refresh token a response hands to the client: the value of the
    refresh_token cookie it sets. *)
Definition hands (res : response) (refreshToken : string) : Prop :=
  ∃ o, SetCookie "refresh_token" refreshToken o ∈ cookies res.

(** Everything a row holds apart from its token list. *)
Definition identity (u : users.row) : string * string * string * string * option string :=
  (users.id u, users.username u, users.passwordHash u, users.role u,
   users.defaultDashboardId u).

(** A suspended login is consistent with the table [s] and a set [Q] of
    pairs of a user name and a token: the row it holds is of the name it was
    sent, is a row of the table up to its token list, and its tokens are in
    [Q] for that name. *)
Definition awaits_ok (Q : string → string → Prop) (s : db) (a : suspended) : Prop :=
  match a with
  | SignupAwaits _ => True
  | LoginAwaits k =>
      users.username (login_user k) = login_username k ∧
      identity (login_user k) ∈ identity <$> s ∧
      ∀ t, t ∈ parse_refreshTokens (login_user k) → Q (login_username k) t
  end.

(** A server state all of whose tokens, stored or held by a suspended login,
    are in [Q]. *)
Definition server_ok (Q : string → string → Prop) (σ : server) : Prop :=
  primary_key (table σ) ∧
  (∀ name t, t ∈ stored_tokens (table σ) name → Q name t) ∧
  Forall (awaits_ok Q (table σ)) (in_flight σ).

(** A response that hands out a token sets a cookie. *)
Definition is_SetCookie (c : cookie_op) : bool :=
  match c with
  | SetCookie _ _ _ => true
  | ClearCookie _ _ => false
  end.
Definition sets_cookie (res : response) : bool := existsb is_SetCookie (cookies res).

Section outcomes.
Context `{!JsonWebToken} (SECRET : string).

(** The response of a rotation for a user with the given stored role. *)
Definition rotated (amb : ambient) (name role : string) : response :=
  mkResponse 200
    [SetCookie "access_token" (generateAccessToken SECRET (clock amb) name role)
       (session_cookie 86400000);
     SetCookie "refresh_token" (generateRefreshToken SECRET (clock amb) name)
       (session_cookie 604800000)]
    (Some [("message", JString "Token refreshed successfully");
           ("isAdmin", JBool (bool_decide (role = "admin")))]).

(** The response of a login by a user with the given stored role. *)
Definition logged_in (amb : ambient) (name role : string) : response :=
  mkResponse 200
    [SetCookie "access_token" (generateAccessToken SECRET (clock amb) name role)
       (session_cookie 86400000);
     SetCookie "refresh_token" (generateRefreshToken SECRET (clock amb) name)
       (session_cookie 604800000)]
    (Some [("message", JString "Login successful");
           ("username", JString name);
           ("isAdmin", JBool (bool_decide (role = "admin")))]).
End outcomes.

(** ** A concrete [jsonwebtoken] and [bcrypt] to run the handlers on

    Tokens are the text [signature.exp.role.username] with the secret as
    signature and [exp] in seconds, so that, as with HS256, signing the same
    payload twice within one second gives the same token. *)
Module fixture.
Fixpoint split_at (sep : ascii) (s : string) : string * string :=
  match s with
  | EmptyString => (EmptyString, EmptyString)
  | String c s' =>
      if decide (c = sep) then (EmptyString, s')
      else let '(a, b) := split_at sep s' in (String c a, b)
  end.

Fixpoint parse_digits (acc : Z) (s : string) : option Z :=
  match s with
  | EmptyString => Some acc
  | String c s' => d ← digit_value c; parse_digits (10 * acc + d) s'
  end.

Definition sign (p : payload.t) (secret expiresIn : string) (now : Z) : string :=
  let exp := now `div` 1000 + default 0 (ms expiresIn) `div` 1000 in
  secret +:+ "." +:+ pretty exp +:+ "." +:+ default "" (payload.role p)
    +:+ "." +:+ payload.username p.

(** The payload's [exp] is a number when the field is made of digits, and
    a string that is no numeral otherwise. *)
Definition decode (token : string) : option exp_claim :=
  let '(_, rest) := split_at "." token in
  let '(e, _) := split_at "." rest in
  if decide (e = "") then None
  else match parse_digits 0 e with
       | Some exp => Some (mkExp (bool_decide (exp ≠ 0)) (Finite (inject_Z exp)))
       | None => Some (mkExp true NotFinite)
       end.

Definition verify (token secret : string) (now : Z) : verify_result :=
  let '(sig, rest) := split_at "." token in
  let '(e, rest) := split_at "." rest in
  let '(r, name) := split_at "." rest in
  if decide (sig = secret) then
    match parse_digits 0 e with
    | Some exp =>
        if decide (exp ≤ now `div` 1000) then VerifyError "TokenExpiredError"
        else Verified (payload.mk name (if decide (r = "") then None else Some r))
    | None => VerifyError "JsonWebTokenError"
    end
  else VerifyError "JsonWebTokenError".

Definition jwt : JsonWebToken := Build_JsonWebToken sign verify decode.

Definition bcrypt : Bcrypt :=
  Build_Bcrypt (λ password _ salt, salt +:+ "$" +:+ password)
               (λ password hash, bool_decide ((split_at "$" hash).2 = password)).

Definition SECRET : string := "k".

Definition alice : users.row :=
  users.mk "u1" "alice" "s1$pw1" "admin" (Some ["k.604801..alice"]) None.
Definition bob : users.row :=
  users.mk "u2" "bob" "s2$pw2" "user" (Some []) None.

(** A row that holds a token signed for bob. *)
Definition mallory : users.row :=
  users.mk "u3" "mallory" "s3$pw3" "user" (Some ["k.604801..bob"; "k.604809..mallory"]) None.

(** Alice right after signup, and after two logins within one second. *)
Definition alice_signed_up : users.row :=
  users.mk "u1" "alice" "s1$pw1" "admin" (Some []) None.
Definition alice_two_logins : users.row :=
  users.mk "u1" "alice" "s1$pw1" "admin" (Some ["k.604801..alice"; "k.604801..alice"]) None.

(** The handlers over this library and secret. *)
Definition signup := @signup bcrypt.
Definition login := @login jwt bcrypt SECRET.
Definition refresh := @refresh jwt SECRET.
Definition logout := logout.
Definition run := @run jwt bcrypt SECRET.
Definition responses := @responses jwt bcrypt SECRET.

Definition at_ (now : Z) : ambient := mkAmbient now "u9" "s9".
Definition with_cookie (token : string) : request :=
  mkRequest None (NotText false) (Some token).
Definition with_body (username password : string) : request :=
  mkRequest (Some username) (Text password) None.

(** A body whose password is the number 1. *)
Definition with_number (username : string) : request :=
  mkRequest (Some username) (NotText true) None.

Definition serve := @serve jwt bcrypt SECRET.
Definition serve_all := @serve_all jwt bcrypt SECRET.
Definition sent := @sent jwt bcrypt SECRET.
End fixture.

(** * The weekly configuration backup

    [backend/src/utils/backup.service.ts]: the [BackupService] singleton over
    the [backup_metadata] and [dashboard_config] tables. *)
Module backup.

(** A property value of a configuration object: its JSON text, or the
    [{ createdAt, backupVersion: '1.0' }] stamp of a backup made at the given
    time. *)
Inductive json_field :=
  | Field (text : string)
  | Stamp (createdAt : Z).

(** One row of [sqliteTable('dashboard_config', ...)].  The [value] column
    holds [JSON.stringify] of a configuration object; it is kept as the
    object it denotes, a map from property names to values (the order of
    the properties is not modelled).  The two timestamp columns hold whole
    seconds; they are kept as the time, in milliseconds, of the [Date] they
    read back as. *)
Module dashboardConfig.
Record row := mk {
  id : string;
  key : string;
  value : gmap string json_field;
  createdAt : Z;
  updatedAt : Z
}.
End dashboardConfig.

(** One row of [sqliteTable('backup_metadata', ...)]; the three integer
    columns are nullable. *)
Module backupMetadata.
Record row := mk {
  id : string;
  lastBackupTime : option Z;
  nextBackupTime : option Z;
  backupIntervalMs : option Z
}.
End backupMetadata.

(** [interface BackupMetadata]. *)
Record BackupMetadata := mkMetadata {
  lastBackupTime : Z;
  nextBackupTime : Z;
  backupIntervalMs : Z
}.

(** The two tables, the service's [intervalId] and the interval timers that
    are running. *)
Record state := mkState {
  metadata_table : list backupMetadata.row;
  config_table : list dashboardConfig.row;
  intervalId : option nat;
  timers : list nat
}.

(** What one call reads from its surroundings: the clock, the ids
    [randomUUID()] draws for an insert into either table, the handle
    [setInterval] returns, and the outcome of [loadConfig()] (module
    [./config-lookup]), [None] when it throws. *)
Record env := mkEnv {
  now : Z;
  config_uuid : string;
  metadata_uuid : string;
  timer : nat;
  loadConfig : option (gmap string json_field)
}.

Inductive outcome := Resolved | Rejected.

(** [private backupIntervalMs = 7 * 24 * 60 * 60 * 1000]. *)
Definition week : Z := 7 * 24 * 60 * 60 * 1000.

(** What a [Date] with time [t] reads back as once written to an
    [integer(..., { mode: 'timestamp' })] column, which stores
    [Math.floor(t / 1000)]. *)
Definition timestamp (t : Z) : Z := t `div` 1000 * 1000.

(** [x || d] on a nullable number. *)
Definition or_else (x : option Z) (d : Z) : Z :=
  match x with
  | Some n => if decide (n = 0) then d else n
  | None => d
  end.

(** [db.select().from(dashboardConfig).where(eq(dashboardConfig.key, k)).get()]. *)
Definition select_where_key (rows : list dashboardConfig.row) (k : string)
  : option dashboardConfig.row :=
  snd <$> list_find (λ r, dashboardConfig.key r = k) rows.

(** [db.update(dashboardConfig).set({ value, updatedAt })
       .where(eq(dashboardConfig.key, k)).run()]. *)
Definition update_where_key (rows : list dashboardConfig.row) (k : string)
    (v : gmap string json_field) (at_ : Z) : list dashboardConfig.row :=
  (λ r, if decide (dashboardConfig.key r = k)
        then dashboardConfig.mk (dashboardConfig.id r) (dashboardConfig.key r) v
               (dashboardConfig.createdAt r) at_
        else r) <$> rows.

(** [db.insert(dashboardConfig).values(r).run()]: throws when the primary key
    or the unique [key] is taken. *)
Definition insert_config (rows : list dashboardConfig.row) (r : dashboardConfig.row)
  : option (list dashboardConfig.row) :=
  if decide (dashboardConfig.id r ∈ dashboardConfig.id <$> rows) then None
  else if decide (dashboardConfig.key r ∈ dashboardConfig.key <$> rows) then None
  else Some (rows ++ [r]).

Definition loadBackupMetadata (e : env) (st : state) : BackupMetadata :=
  match head (metadata_table st) with
  | Some metadataRow =>
      mkMetadata (or_else (backupMetadata.lastBackupTime metadataRow) 0)
                 (or_else (backupMetadata.nextBackupTime metadataRow) 0)
                 (or_else (backupMetadata.backupIntervalMs metadataRow) week)
  | None =>
      let currentTime := now e in
      mkMetadata 0 (currentTime + week) week
  end.

(** [!metadata.lastBackupTime || (currentTime >= metadata.nextBackupTime)];
    the [catch] branch is not reachable, [loadBackupMetadata] does not throw. *)
Definition shouldPerformBackup (e : env) (st : state) : bool :=
  let metadata := loadBackupMetadata e st in
  let currentTime := now e in
  bool_decide (lastBackupTime metadata = 0)
  || bool_decide (nextBackupTime metadata ≤ currentTime).

Definition saveBackupMetadata (e : env) (metadata : BackupMetadata) (st : state) : state :=
  match head (metadata_table st) with
  | Some existing =>
      mkState
        ((λ r, if decide (backupMetadata.id r = backupMetadata.id existing)
               then backupMetadata.mk (backupMetadata.id r)
                      (Some (lastBackupTime metadata)) (Some (nextBackupTime metadata))
                      (Some (backupIntervalMs metadata))
               else r) <$> metadata_table st)
        (config_table st) (intervalId st) (timers st)
  | None =>
      mkState
        (metadata_table st ++
           [backupMetadata.mk (metadata_uuid e)
              (Some (lastBackupTime metadata)) (Some (nextBackupTime metadata))
              (Some (backupIntervalMs metadata))])
        (config_table st) (intervalId st) (timers st)
  end.

Definition with_config (rows : list dashboardConfig.row) (st : state) : state :=
  mkState (metadata_table st) rows (intervalId st) (timers st).

(** [performBackup]: the state it leaves and whether the promise resolves;
    the clock reads of one call are taken to coincide. *)
Definition performBackup (e : env) (st : state) : state * outcome :=
  match loadConfig e with
  | None => (st, Rejected)
  | Some configData =>
      let backupData := <["_backupMetadata" := Stamp (now e)]> configData in
      let backupKey := "backup_weekly" in
      let written :=
        match select_where_key (config_table st) backupKey with
        | Some existingBackup =>
            Some (update_where_key (config_table st) backupKey backupData
                    (timestamp (now e)))
        | None =>
            insert_config (config_table st)
              (dashboardConfig.mk (config_uuid e) backupKey backupData
                 (timestamp (now e)) (timestamp (now e)))
        end in
      match written with
      | None => (st, Rejected)
      | Some rows =>
          let currentTime := now e in
          let metadata := mkMetadata currentTime (currentTime + week) week in
          (saveBackupMetadata e metadata (with_config rows st), Resolved)
      end
  end.

Definition triggerManualBackup (e : env) (st : state) : state * outcome :=
  performBackup e st.

Definition restoreFromBackup (e : env) (st : state) : state * outcome :=
  match select_where_key (config_table st) "backup_weekly" with
  | None => (st, Rejected)
  | Some backupRow =>
      let backupData := dashboardConfig.value backupRow in
      let configData := delete "_backupMetadata" backupData in
      match select_where_key (config_table st) "main" with
      | Some mainConfig =>
          (with_config (update_where_key (config_table st) "main" configData
                          (timestamp (now e))) st,
           Resolved)
      | None =>
          match insert_config (config_table st)
                  (dashboardConfig.mk (config_uuid e) "main" configData
                     (timestamp (now e)) (timestamp (now e))) with
          | Some rows => (with_config rows st, Resolved)
          | None => (st, Rejected)
          end
      end
  end.

(** The body of the [setInterval] callback: errors are logged, not thrown. *)
Definition scheduled_check (e : env) (st : state) : state :=
  if shouldPerformBackup e st then (performBackup e st).1 else st.

(** [clearInterval] of the current handle, if any, then [setInterval]. *)
Definition startBackupSchedule (e : env) (st : state) : state :=
  let running :=
    match intervalId st with
    | Some h => filter (λ h', h' ≠ h) (timers st)
    | None => timers st
    end in
  mkState (metadata_table st) (config_table st) (Some (timer e)) (running ++ [timer e]).

(** [initialize]: a failing first backup skips [startBackupSchedule], the
    error is logged. *)
Definition initialize (e : env) (st : state) : state :=
  if shouldPerformBackup e st then
    match performBackup e st with
    | (st', Resolved) => startBackupSchedule e st'
    | (st', Rejected) => st'
    end
  else startBackupSchedule e st.

Definition stop (st : state) : state :=
  match intervalId st with
  | Some h =>
      mkState (metadata_table st) (config_table st) None
        (filter (λ h', h' ≠ h) (timers st))
  | None => st
  end.

(** The object [getBackupStatus] resolves to; an ISO string is kept as the
    time it prints. *)
Record status := mkStatus {
  status_lastBackupTime : option Z;
  status_nextBackupTime : Z;
  backupExists : bool
}.

(** [getBackupStatus]; [toISOString] throws on an Invalid Date, in the [try]
    block (then the [catch] block answers) or in the [catch] block (then the
    promise rejects, [None]). *)
Definition getBackupStatus (e : env) (st : state) : option status :=
  let metadata := loadBackupMetadata e st in
  let backupRow := select_where_key (config_table st) "backup_weekly" in
  let attempt :=
    last ← (if decide (lastBackupTime metadata = 0) then Some None
            else Some <$> new_Date (lastBackupTime metadata));
    next ← new_Date (nextBackupTime metadata);
    Some (mkStatus last next (bool_decide (is_Some backupRow))) in
  match attempt with
  | Some answer => Some answer
  | None => next ← new_Date (now e + week); Some (mkStatus None next false)
  end.

End backup.

(** * The notes routes

    [notesRoute] over the [notes] table.  The routes behind
    [authenticateToken] are modelled from the point where the middleware has
    let the request through. *)

(** One row of [sqliteTable('notes', ...)].  [content] and [font_size] are
    nullable; the two timestamp columns hold the time of a valid [Date]. *)
Module notes.
Record row := mk {
  id : string;
  title : string;
  content : option string;
  fontSize : option string;
  createdAt : Z;
  updatedAt : Z
}.

(** [.set({ fontSize })] on one row. *)
Definition set_fontSize (v : string) (n : row) : row :=
  mk (id n) (title n) (content n) (Some v) (createdAt n) (updatedAt n).
End notes.

Module notesRoute.

(** The fields of [req.body] the routes read, each a string when present
    (values of other types are outside the model). *)
Record fields := mkFields {
  body_id : option string;
  body_title : option string;
  body_content : option string;
  body_fontSize : option string
}.

(** The [Note] object literal the create and update routes answer with; an
    ISO string is kept as the time it prints. *)
Record Note := mkNote {
  note_id : string;
  note_title : string;
  note_content : string;
  note_fontSize : string;
  note_createdAt : Z;
  note_updatedAt : Z
}.

Inductive payload :=
  | Notes (all : list notes.row)
  | One (note : Note)
  | Error (error : string)
  | Updated (message : string) (updatedCount : nat)
  | Empty.

Record response := mkResponse { status : Z; sent : payload }.

(** What one request reads from its surroundings: the clock and the
    [defaultNoteFontSize] of [loadConfig()] (module [../utils/config-lookup]);
    [None] when [loadConfig] throws, [Some None] when the property is
    missing. *)
Record env := mkEnv {
  now : Z;
  loadConfig : option (option string)
}.

(** [configData.defaultNoteFontSize || '16px']. *)
Definition globalDefaultFontSize (configData : option string) : string :=
  default "16px" (truthy configData).

(** [db.select().from(notes).where(eq(notes.id, i)).get()]. *)
Definition select_where_id (s : list notes.row) (i : string) : option notes.row :=
  snd <$> list_find (λ n, notes.id n = i) s.

(** [db.update(notes).set({ fontSize }).where(eq(notes.id, i)).run()]. *)
Definition update_fontSize (s : list notes.row) (i : string) (v : string) : list notes.row :=
  (λ n, if decide (notes.id n = i) then notes.set_fontSize v n else n) <$> s.

(** [db.insert(notes).values(n).run()]; throws when the primary key is taken. *)
Definition insert_note (s : list notes.row) (n : notes.row) : option (list notes.row) :=
  if decide (notes.id n ∈ notes.id <$> s) then None else Some (s ++ [n]).

(** [db.delete(notes).where(eq(notes.id, i)).run()]. *)
Definition delete_where_id (s : list notes.row) (i : string) : list notes.row :=
  filter (λ n, notes.id n ≠ i) s.

(** [arr.sort((a, b) => b.updatedAt.getTime() - a.updatedAt.getTime())]:
    the sort is stable, so the result is that of inserting each note, last
    to first, in front of the first one that is not newer than it. *)
Fixpoint insert_desc (a : notes.row) (l : list notes.row) : list notes.row :=
  match l with
  | [] => [a]
  | b :: l' =>
      if decide (notes.updatedAt a < notes.updatedAt b) then b :: insert_desc a l'
      else a :: b :: l'
  end.

Definition sort_desc (l : list notes.row) : list notes.row :=
  foldr insert_desc [] l.

(** The note a row without font size is answered as, and stored as. *)
Definition with_default (v : string) (note : notes.row) : notes.row :=
  match truthy (notes.fontSize note) with
  | None => notes.set_fontSize v note
  | Some _ => note
  end.

Section routes.
(** [String.prototype.trim], and what a [Date] written to an integer
    timestamp column reads back as. *)
Variable trim : string → string.
Variable timestamp : Z → Z.

(** [GET /] *)
Definition get_notes (e : env) (s : list notes.row) : list notes.row * response :=
  match loadConfig e with
  | None => (s, mkResponse 500 (Error "Failed to fetch notes"))
  | Some configData =>
      let allNotes := s in
      let globalDefaultFontSize := globalDefaultFontSize configData in
      let s' :=
        foldl (λ cur note,
                 match truthy (notes.fontSize note) with
                 | None => update_fontSize cur (notes.id note) globalDefaultFontSize
                 | Some _ => cur
                 end)
              s allNotes in
      let migratedNotes := with_default globalDefaultFontSize <$> allNotes in
      (s', mkResponse 200 (Notes (sort_desc migratedNotes)))
  end.

(** [POST /] *)
Definition post_note (e : env) (s : list notes.row) (b : fields)
  : list notes.row * response :=
  match loadConfig e with
  | None => (s, mkResponse 500 (Error "Failed to create note"))
  | Some configData =>
      let globalDefaultFontSize := globalDefaultFontSize configData in
      match truthy (body_id b) with
      | None => (s, mkResponse 400 (Error "ID is required and must be a string"))
      | Some id =>
          match truthy (body_title b) with
          | None => (s, mkResponse 400 (Error "Title is required and must be a string"))
          | Some title =>
              match select_where_id s id with
              | Some existingNote =>
                  (s, mkResponse 409 (Error "Note with this ID already exists"))
              | None =>
                  let content := trim (default "" (truthy (body_content b))) in
                  let fontSize := default globalDefaultFontSize (truthy (body_fontSize b)) in
                  match insert_note s
                          (notes.mk id (trim title) (Some content) (Some fontSize)
                             (timestamp (now e)) (timestamp (now e))) with
                  | None => (s, mkResponse 500 (Error "Failed to create note"))
                  | Some s' =>
                      (s', mkResponse 201
                             (One (mkNote id (trim title) content fontSize
                                         (now e) (now e))))
                  end
              end
          end
      end
  end.

(** [PUT /update-all-font-sizes] *)
Definition put_all_font_sizes (s : list notes.row) (b : fields)
  : list notes.row * response :=
  match truthy (body_fontSize b) with
  | None => (s, mkResponse 400 (Error "Font size is required and must be a string"))
  | Some fontSize =>
      let allNotes := s in
      let s' := foldl (λ cur note, update_fontSize cur (notes.id note) fontSize) s allNotes in
      let updatedCount := length allNotes in
      (s', mkResponse 200
             (Updated ("Updated font size for " +:+ pretty updatedCount +:+ " notes")
                      updatedCount))
  end.

(** [PUT /:id] *)
Definition put_note (e : env) (s : list notes.row) (id : string) (b : fields)
  : list notes.row * response :=
  match loadConfig e with
  | None => (s, mkResponse 500 (Error "Failed to update note"))
  | Some configData =>
      let globalDefaultFontSize := globalDefaultFontSize configData in
      match truthy (body_title b) with
      | None => (s, mkResponse 400 (Error "Title is required and must be a string"))
      | Some title =>
          match select_where_id s id with
          | None => (s, mkResponse 404 (Error "Note not found"))
          | Some existingNote =>
              let content := trim (default "" (truthy (body_content b))) in
              let fontSize :=
                default (default globalDefaultFontSize (truthy (notes.fontSize existingNote)))
                        (truthy (body_fontSize b)) in
              let s' :=
                (λ n, if decide (notes.id n = id)
                      then notes.mk (notes.id n) (trim title) (Some content) (Some fontSize)
                             (notes.createdAt n) (timestamp (now e))
                      else n) <$> s in
              (s', mkResponse 200
                     (One (mkNote id (trim title) content fontSize
                                 (notes.createdAt existingNote) (now e))))
          end
      end
  end.

(** [DELETE /:id] *)
Definition delete_note (s : list notes.row) (id : string) : list notes.row * response :=
  match select_where_id s id with
  | None => (s, mkResponse 404 (Error "Note not found"))
  | Some existingNote => (delete_where_id s id, mkResponse 204 Empty)
  end.
End routes.

End notesRoute.

(** ** Concrete states to run the backup service and the notes routes on *)
Module backup_fixture.
Definition configData : gmap string backup.json_field :=
  <["defaultNoteFontSize" := backup.Field "18px"]> (<["title" := backup.Field "Home"]> ∅).

Definition at_ (now : Z) : backup.env :=
  backup.mkEnv now "c1" "m1" 7 (Some configData).

Definition main_row : backup.dashboardConfig.row :=
  backup.dashboardConfig.mk "c0" "main" configData 1000 1000.

(** A service that has never run, over a table holding the [main] row. *)
Definition fresh : backup.state := backup.mkState [] [main_row] None [].
End backup_fixture.

Module notes_fixture.
Definition trim (s : string) : string := s.
Definition timestamp (t : Z) : Z := t `div` 1000 * 1000.

Definition groceries : notes.row := notes.mk "n1" "Groceries" (Some "milk") None 1000 3000.
Definition ideas : notes.row := notes.mk "n2" "Ideas" None (Some "20px") 2000 9000.
Definition todo : notes.row := notes.mk "n3" "Todo" (Some "") (Some "") 2500 5000.
Definition stored : list notes.row := [groceries; ideas; todo].

Definition at_ (now : Z) : notesRoute.env := notesRoute.mkEnv now (Some (Some "18px")).
End notes_fixture.

(** * Properties *)

(** ** Facts about the table operations *)

Section table.
Implicit Types (s : db) (u : users.row) (v : list string).

Lemma update_refreshTokens_lookup s i v k :
  update_refreshTokens s i v !! k =
    (λ u, if decide (users.id u = i) then users.set_refreshTokens v u else u) <$> s !! k.
Proof. apply list_lookup_fmap. Qed.

Lemma update_refreshTokens_length s i v :
  length (update_refreshTokens s i v) = length s.
Proof. apply length_fmap. Qed.

Lemma update_refreshTokens_id s i v :
  users.id <$> update_refreshTokens s i v = users.id <$> s.
Proof.
  unfold update_refreshTokens. rewrite <- list_fmap_compose.
  apply list_fmap_ext. intros ? u _. simpl. by case_decide.
Qed.

Lemma update_refreshTokens_username s i v :
  users.username <$> update_refreshTokens s i v = users.username <$> s.
Proof.
  unfold update_refreshTokens. rewrite <- list_fmap_compose.
  apply list_fmap_ext. intros ? u _. simpl. by case_decide.
Qed.

Lemma update_refreshTokens_role s i v :
  users.role <$> update_refreshTokens s i v = users.role <$> s.
Proof.
  unfold update_refreshTokens. rewrite <- list_fmap_compose.
  apply list_fmap_ext. intros ? u _. simpl. by case_decide.
Qed.

(** With a primary key, an update by id rewrites exactly one row. *)
Lemma update_refreshTokens_insert s k u v :
  primary_key s → s !! k = Some u →
  update_refreshTokens s (users.id u) v = <[k := users.set_refreshTokens v u]> s.
Proof.
  intros Hpk Hk. apply list_eq. intros j.
  rewrite update_refreshTokens_lookup.
  destruct (decide (j = k)) as [->|Hne].
  - rewrite list_lookup_insert_eq by eauto using lookup_lt_Some.
    rewrite Hk. simpl. by rewrite decide_True.
  - rewrite list_lookup_insert_ne by done.
    destruct (s !! j) as [u'|] eqn:Hj; [|done]. simpl.
    case_decide as Hid; [|done]. destruct Hne.
    eapply (NoDup_lookup _ j k (users.id u)); [apply Hpk|..];
      rewrite list_lookup_fmap; [rewrite Hj|rewrite Hk]; simpl; congruence.
Qed.

Lemma select_where_username_Some s name u :
  select_where_username s name = Some u →
  ∃ k, s !! k = Some u ∧ users.username u = name ∧
       ∀ j u', s !! j = Some u' → (j < k)%nat → users.username u' ≠ name.
Proof.
  unfold select_where_username. intros ([k u']&Hf&?)%fmap_Some. simplify_eq/=.
  apply list_find_Some in Hf. eauto.
Qed.

Lemma select_where_username_None s name :
  select_where_username s name = None ↔ name ∉ users.username <$> s.
Proof.
  unfold select_where_username. rewrite fmap_None, list_find_None, Forall_forall.
  rewrite list_elem_of_fmap. naive_solver.
Qed.

(** An update does not change which row a name resolves to. *)
Lemma select_where_username_update s i v name :
  select_where_username (update_refreshTokens s i v) name =
    (λ u, if decide (users.id u = i) then users.set_refreshTokens v u else u)
      <$> select_where_username s name.
Proof.
  unfold select_where_username, update_refreshTokens.
  rewrite list_find_fmap.
  erewrite (list_find_ext (_ ∘ _) (λ u, users.username u = name)).
  - by destruct (list_find _ s) as [[??]|].
  - intros u. simpl. by case_decide.
Qed.
End table.

(** ** Login failures and refresh failures *)

Section failures.
Context `{!JsonWebToken, !Bcrypt} (SECRET : string).
Implicit Types (s : db) (req : request) (amb : ambient).

(** The two segments of the login route, by cases. *)
Lemma login_begin_cases s req :
  login_begin s req =
    inl (mkResponse 400 [] (Some (message "Username and password are required"))) ∧
    (truthy (body_username req) = None ∨ is_truthy (body_password req) = false) ∨
  (∃ username,
     truthy (body_username req) = Some username ∧
     is_truthy (body_password req) = true ∧
     select_where_username s username = None ∧
     login_begin s req = inl (mkResponse 401 [] (Some (message "Invalid credentials")))) ∨
  ∃ username user,
    truthy (body_username req) = Some username ∧
    is_truthy (body_password req) = true ∧
    select_where_username s username = Some user ∧
    login_begin s req = inr (mkLoginPending username (body_password req) user).
Proof.
  unfold login_begin.
  destruct (truthy (body_username req)) as [username|]; [|left; auto].
  destruct (is_truthy (body_password req)); [|left; auto].
  destruct (select_where_username s username) as [user|] eqn:Hu; right; [right|left].
  - by exists username, user.
  - by exists username.
Qed.

Lemma login_resume_cases amb s k :
  (∀ password, login_password k ≠ Text password) ∧
    login_resume SECRET amb s k = (s, internal_error) ∨
  (∃ password,
     login_password k = Text password ∧
     bcrypt_compare password (users.passwordHash (login_user k)) = false ∧
     login_resume SECRET amb s k =
       (s, mkResponse 401 [] (Some (message "Invalid credentials")))) ∨
  ∃ password,
    login_password k = Text password ∧
    bcrypt_compare password (users.passwordHash (login_user k)) = true ∧
    login_resume SECRET amb s k =
      (update_refreshTokens s (users.id (login_user k))
         (parse_refreshTokens (login_user k) ++
            [generateRefreshToken SECRET (clock amb) (login_username k)]),
       logged_in SECRET amb (login_username k) (users.role (login_user k))).
Proof.
  unfold login_resume. destruct (login_password k) as [password|t]; cbn; [|by left].
  right. destruct (bcrypt_compare _ _) eqn:Hp; cbn; [right|left]; eauto.
Qed.

(** A login naming an unknown user and a login naming a known user with a
    string that does not match the stored hash get the same response, status
    401 with the message "Invalid credentials" and no cookie, and neither
    changes the table. *)
Lemma login_invalid_credentials amb1 amb2 s1 s2 req1 req2 n1 p1 n2 p2 user :
  truthy (body_username req1) = Some n1 →
  body_password req1 = Text p1 → p1 ≠ "" →
  truthy (body_username req2) = Some n2 →
  body_password req2 = Text p2 → p2 ≠ "" →
  select_where_username s1 n1 = None →
  select_where_username s2 n2 = Some user →
  bcrypt_compare p2 (users.passwordHash user) = false →
  (login SECRET amb1 s1 req1).2 = (login SECRET amb2 s2 req2).2 ∧
  statusCode (login SECRET amb1 s1 req1).2 = 401 ∧
  body (login SECRET amb1 s1 req1).2 = Some (message "Invalid credentials") ∧
  cookies (login SECRET amb1 s1 req1).2 = [] ∧
  (login SECRET amb1 s1 req1).1 = s1 ∧
  (login SECRET amb2 s2 req2).1 = s2.
Proof.
  intros Hn1 Hp1 Hne1 Hn2 Hp2 Hne2 Hunknown Hknown Hwrong.
  unfold login, login_begin, login_resume.
  rewrite Hn1, Hp1, Hn2, Hp2, Hunknown, Hknown. cbn.
  rewrite !bool_decide_eq_true_2 by done. cbn. rewrite Hwrong. by cbn.
Qed.

(** C4 — Credential opacity fails for a password that is not a string.  On
    one table, with a truthy password such as the number 1, a login naming
    an unknown user is answered 401 "Invalid credentials" before [bcrypt] is
    called, while a login naming a known user reaches [bcrypt.compare], which
    rejects what is not a string, and is answered 500 "Internal server
    error" by the [catch]: the response tells whether the username exists. *)
Theorem login_non_string_password amb1 amb2 s req1 req2 n1 n2 user :
  truthy (body_username req1) = Some n1 →
  truthy (body_username req2) = Some n2 →
  body_password req1 = NotText true →
  body_password req2 = NotText true →
  select_where_username s n1 = None →
  select_where_username s n2 = Some user →
  login SECRET amb1 s req1 = (s, mkResponse 401 [] (Some (message "Invalid credentials"))) ∧
  login SECRET amb2 s req2 = (s, mkResponse 500 [] (Some (message "Internal server error"))) ∧
  (login SECRET amb1 s req1).2 ≠ (login SECRET amb2 s req2).2.
Proof.
  intros Hn1 Hn2 Hp1 Hp2 Hunknown Hknown.
  unfold login, login_begin, login_resume.
  rewrite Hn1, Hp1, Hn2, Hp2, Hunknown, Hknown. by cbn.
Qed.

(** When the expiry log line throws, the route's [catch] answers. *)
Lemma refresh_log_throws amb s req refreshToken :
  truthy (cookies_refresh_token req) = Some refreshToken →
  log_expiration refreshToken = None →
  refresh SECRET amb s req = (s, internal_error).
Proof. intros Hc Hlog. unfold refresh. by rewrite Hc, Hlog. Qed.

(** A token that fails verification, once its expiry has been logged:
    expiry clears both cookies, any other error touches none. *)
Lemma refresh_verify_failure amb s req refreshToken name :
  truthy (cookies_refresh_token req) = Some refreshToken →
  log_expiration refreshToken = Some tt →
  jwt_verify refreshToken (REFRESH_TOKEN_SECRET SECRET) (clock amb) = VerifyError name →
  refresh SECRET amb s req =
    (s, if decide (name = "TokenExpiredError")
        then mkResponse 401 [ClearCookie "access_token" clear_httpOnly;
                             ClearCookie "refresh_token" clear_httpOnly]
               (Some (message "Refresh token expired"))
        else mkResponse 401 [] (Some (message "Invalid refresh token"))).
Proof.
  intros Hc Hlog Hv. unfold refresh. rewrite Hc, Hlog. cbn. rewrite Hv.
  case_bool_decide; by case_decide.
Qed.

Lemma new_Date_number_None x : new_Date_number x = None ↔ invalid_time x.
Proof.
  destruct x as [q|]; cbn; [|done].
  destruct (Qle_bool (Qabs q) (inject_Z 8640000000000000)) eqn:Hle.
  - apply Qle_bool_iff in Hle. split; [done|]. intros Hlt. by apply Qlt_not_le in Hlt.
  - split; [intros _|done]. apply Qnot_le_lt. intros Hle'%Qle_bool_iff. congruence.
Qed.

(** The expiry log line throws exactly on a token whose unverified [exp] is
    truthy and, times 1000, names no valid [Date]. *)
Lemma log_expiration_throws refreshToken :
  log_expiration refreshToken = None ↔
  ∃ exp, jwt_decode refreshToken = Some exp ∧ exp_truthy exp = true ∧
         invalid_time (times (exp_number exp) 1000).
Proof.
  unfold log_expiration, getTokenExpiration.
  destruct (jwt_decode refreshToken) as [exp|];
    [|split; [done|by intros (? & ? & _)]].
  destruct (exp_truthy exp) eqn:Ht;
    [|split; [done|intros (? & [= <-] & ? & _); congruence]].
  split.
  - intros Hd. exists exp. split_and!; [done..|]. apply new_Date_number_None.
    by destruct (new_Date_number _).
  - intros (? & [= <-] & _ & Hd%new_Date_number_None). by rewrite Hd.
Qed.

(** C5 — Refresh failure discrimination fails on a token that verification
    rejects with a non-expiry error and whose unverified [exp] is truthy and,
    in milliseconds, names no valid [Date] (a number beyond what [Date]
    represents, or a value that is no number at all): the expiry log line
    throws before [jwt.verify] is reached and the answer is 500 "Internal
    server error", not 401 "Invalid refresh token". *)
Theorem refresh_unloggable_expiry amb s req refreshToken exp name :
  truthy (cookies_refresh_token req) = Some refreshToken →
  jwt_decode refreshToken = Some exp →
  exp_truthy exp = true →
  invalid_time (times (exp_number exp) 1000) →
  jwt_verify refreshToken (REFRESH_TOKEN_SECRET SECRET) (clock amb) = VerifyError name →
  refresh SECRET amb s req =
    (s, mkResponse 500 [] (Some (message "Internal server error"))).
Proof.
  intros Hc Hexp Ht Hrange _. apply (refresh_log_throws amb s req refreshToken Hc).
  apply log_expiration_throws. eauto.
Qed.

(** The cookies a login sets. *)
Lemma login_cookies amb s req c :
  c ∈ cookies (login SECRET amb s req).2 →
  (∃ value, c = SetCookie "access_token" value (session_cookie 86400000)) ∨
  (∃ value, c = SetCookie "refresh_token" value (session_cookie 604800000)).
Proof.
  unfold login.
  destruct (login_begin_cases s req)
    as [[-> _]|[(? & _ & _ & _ & ->)|(username & user & _ & _ & _ & ->)]];
    cbn; [by intros ?%elem_of_nil..|].
  destruct (login_resume_cases amb s (mkLoginPending username (body_password req) user))
    as [[_ ->]|[(? & _ & _ & ->)|(? & _ & _ & ->)]]; cbn; [by intros ?%elem_of_nil..|].
  rewrite !elem_of_cons, elem_of_nil. naive_solver.
Qed.

(** The cookies a refresh sets; it clears no other than the session's. *)
Lemma refresh_cookies amb s req c :
  c ∈ cookies (refresh SECRET amb s req).2 →
  (∃ value, c = SetCookie "access_token" value (session_cookie 86400000)) ∨
  (∃ value, c = SetCookie "refresh_token" value (session_cookie 604800000)) ∨
  c = ClearCookie "access_token" clear_httpOnly ∨
  c = ClearCookie "refresh_token" clear_httpOnly.
Proof.
  unfold refresh. destruct (truthy _); cbn; [|by intros ?%elem_of_nil].
  destruct (log_expiration _); cbn; [|by intros ?%elem_of_nil].
  repeat case_match; cbn; rewrite ?elem_of_cons, ?elem_of_nil; naive_solver.
Qed.

(** C8 — Cookie lifetime bound: every cookie a login or a refresh sets is
    the access_token cookie with max-age one day, at most the three days
    an access token lives, or the refresh_token cookie with max-age seven
    days, at most the seven days a refresh token lives. *)
Theorem cookie_lifetime_bound amb s req name value o :
  SetCookie name value o ∈ cookies (login SECRET amb s req).2 ∨
  SetCookie name value o ∈ cookies (refresh SECRET amb s req).2 →
  (name = "access_token" ∧ maxAge o = Some (1 * 24 * 60 * 60 * 1000) ∧
     ms ACCESS_TOKEN_EXPIRY = Some (3 * 24 * 60 * 60 * 1000) ∨
   name = "refresh_token" ∧ maxAge o = Some (7 * 24 * 60 * 60 * 1000) ∧
     ms REFRESH_TOKEN_EXPIRY = Some (7 * 24 * 60 * 60 * 1000)) ∧
  ∃ age life, maxAge o = Some age ∧ token_lifetime name = Some life ∧ age ≤ life.
Proof.
  intros [Hin|Hin].
  - apply login_cookies in Hin as [[v Hc]|[v Hc]]; simplify_eq; cbn.
    + split; [by left|]. exists 86400000, 259200000. by compute.
    + split; [by right|]. exists 604800000, 604800000. by compute.
  - apply refresh_cookies in Hin as [[v Hc]|[[v Hc]|[Hc|Hc]]]; simplify_eq; cbn.
    + split; [by left|]. exists 86400000, 259200000. by compute.
    + split; [by right|]. exists 604800000, 604800000. by compute.
Qed.
End failures.

Lemma login_non_string_password_witness :
  fixture.login (fixture.at_ 1000) [fixture.alice] (fixture.with_number "carol") =
    ([fixture.alice], mkResponse 401 [] (Some (message "Invalid credentials"))) ∧
  fixture.login (fixture.at_ 2000) [fixture.alice] (fixture.with_number "alice") =
    ([fixture.alice], mkResponse 500 [] (Some (message "Internal server error"))) ∧
  (fixture.login (fixture.at_ 1000) [fixture.alice] (fixture.with_number "carol")).2 ≠
  (fixture.login (fixture.at_ 2000) [fixture.alice] (fixture.with_number "alice")).2.
Proof.
  apply (@login_non_string_password fixture.jwt fixture.bcrypt fixture.SECRET
           (fixture.at_ 1000) (fixture.at_ 2000) [fixture.alice]
           (fixture.with_number "carol") (fixture.with_number "alice")
           "carol" "alice" fixture.alice); reflexivity.
Defined.

Lemma refresh_unloggable_expiry_witness :
  fixture.refresh (fixture.at_ 5000) [fixture.alice]
      (fixture.with_cookie "x.9999999999999..mallory")
    = ([fixture.alice], mkResponse 500 [] (Some (message "Internal server error"))).
Proof.
  apply (@refresh_unloggable_expiry fixture.jwt fixture.SECRET (fixture.at_ 5000)
           [fixture.alice] (fixture.with_cookie "x.9999999999999..mallory")
           "x.9999999999999..mallory" (mkExp true (Finite (inject_Z 9999999999999)))
           "JsonWebTokenError").
  - reflexivity.
  - reflexivity.
  - reflexivity.
  - reflexivity.
  - reflexivity.
Defined.

Lemma cookie_lifetime_bound_witness :
  ∃ age life,
    Some (24 * 60 * 60 * 1000) = Some age ∧ token_lifetime "access_token" = Some life ∧ age ≤ life.
Proof.
  refine (proj2 (@cookie_lifetime_bound fixture.jwt fixture.bcrypt fixture.SECRET
            (fixture.at_ 1000) [fixture.alice] (fixture.with_body "alice" "pw1")
            "access_token" "k.259201.admin.alice" (session_cookie (24 * 60 * 60 * 1000)) _)).
  left. vm_compute. apply list_elem_of_here.
Defined.

(** ** Facts about the array helpers *)

Section arrays.
Implicit Types (l : list string) (x : string).

Lemma indexOf_range l x : indexOf l x = -1 ∨ 0 ≤ indexOf l x.
Proof.
  induction l as [|y l IH]; cbn; [by left|].
  case_decide; [right; lia|]. case_decide; [by left|right; lia].
Qed.

Lemma indexOf_absent l x : indexOf l x = -1 ↔ x ∉ l.
Proof.
  induction l as [|y l IH]; cbn.
  - split; [intros _; apply not_elem_of_nil|done].
  - rewrite not_elem_of_cons. case_decide as Hy.
    + split; [lia|]. intros [? _]. congruence.
    + destruct (indexOf_range l x). case_decide; [|lia]. 
      * rewrite <- IH. naive_solver.
      * case_decide; [lia|]. split; [lia|]. intros [_ Hl%IH]. lia.
Qed.

(** [indexOf] finds the first occurrence. *)
Lemma indexOf_present l x :
  indexOf l x ≠ -1 →
  ∃ l1 l2, l = l1 ++ (x :: l2) ∧ (x ∉ l1) ∧ indexOf l x = Z.of_nat (length l1).
Proof.
  induction l as [|y l IH]; cbn; [done|].
  case_decide as Hy.
  - intros _. exists [], l. subst. split_and!; [done|apply not_elem_of_nil|done].
  - case_decide as Hi; [done|]. intros _.
    destruct (IH Hi) as (l1 & l2 & -> & Hl1 & Hlen).
    exists (y :: l1), l2. split_and!; [done| |].
    + rewrite not_elem_of_cons. naive_solver.
    + rewrite Hlen. cbn [length]. lia.
Qed.

(** [splice(indexOf(x), 1)] takes out exactly that first occurrence. *)
Lemma splice1_indexOf l1 l2 x :
  x ∉ l1 → splice1 (l1 ++ (x :: l2)) (indexOf (l1 ++ (x :: l2)) x) = l1 ++ l2.
Proof.
  intros Hl1.
  destruct (indexOf_present (l1 ++ (x :: l2)) x) as (k1 & k2 & Heq & Hk1 & Hlen).
  { rewrite indexOf_absent, elem_of_app, elem_of_cons. naive_solver. }
  destruct (not_elem_of_app_cons_inv_l x x l1 l2 k1 k2) as [-> _]; [done..|].
  unfold splice1. rewrite Hlen, Nat2Z.id. apply delete_middle.
Qed.

Lemma filter_out_absent l x : x ∉ filter_out x l.
Proof. unfold filter_out. rewrite list_elem_of_filter. naive_solver. Qed.

Lemma filter_out_subset l x y : y ∈ filter_out x l → y ∈ l.
Proof. unfold filter_out. rewrite list_elem_of_filter. naive_solver. Qed.

Lemma filter_out_id l x : x ∉ l → filter_out x l = l.
Proof.
  unfold filter_out. induction l as [|y l IH]; [done|].
  rewrite not_elem_of_cons. intros [Hne Hl].
  rewrite filter_cons_True by done. by rewrite IH.
Qed.

Lemma filter_out_length l x :
  length (filter_out x l) = length l → filter_out x l = l.
Proof.
  intros Hlen. apply filter_out_id. intros Hin.
  pose proof (length_filter_lt (λ t, t ≠ x) l x Hin) as Hlt.
  unfold filter_out in Hlen. rewrite Hlen in Hlt. apply (Nat.lt_irrefl (length l)).
  apply Hlt. by intros [].
Qed.
End arrays.

(** ** Successful refresh: rotation *)

Section rotation.
Context `{!JsonWebToken, !Bcrypt} (SECRET : string).
Implicit Types (s : db) (req : request) (amb : ambient).

(** A refresh answers 200 only on the rotation path. *)
Lemma refresh_success_inv amb s req :
  statusCode (refresh SECRET amb s req).2 = 200 →
  ∃ refreshToken decoded user,
    truthy (cookies_refresh_token req) = Some refreshToken ∧
    log_expiration refreshToken = Some tt ∧
    jwt_verify refreshToken (REFRESH_TOKEN_SECRET SECRET) (clock amb) = Verified decoded ∧
    select_where_username s (payload.username decoded) = Some user ∧
    indexOf (parse_refreshTokens user) refreshToken ≠ -1 ∧
    refresh SECRET amb s req =
      (update_refreshTokens s (users.id user)
         (splice1 (parse_refreshTokens user)
                  (indexOf (parse_refreshTokens user) refreshToken)
            ++ [generateRefreshToken SECRET (clock amb) (payload.username decoded)]),
       rotated SECRET amb (payload.username decoded) (users.role user)).
Proof.
  unfold refresh.
  destruct (truthy _) as [refreshToken|] eqn:Hc; cbn; [|done].
  destruct (log_expiration refreshToken) as [[]|] eqn:Hlog; cbn; [|done].
  destruct (jwt_verify _ _ _) as [decoded|name] eqn:Hv; cbn;
    [|by case_bool_decide].
  destruct (select_where_username _ _) as [user|] eqn:Hu; cbn; [|done].
  case_decide as Hi; cbn; [done|]. intros _.
  by exists refreshToken, decoded, user.
Qed.
Lemma stored_tokens_update s name user v :
  select_where_username s name = Some user →
  stored_tokens (update_refreshTokens s (users.id user) v) name = v.
Proof.
  intros Hu. unfold stored_tokens.
  rewrite select_where_username_update, Hu. cbn. by rewrite decide_True.
Qed.

(** On the rotation path the presented token sits on the user's list, and
    the list written back is that list without the token's first occurrence,
    followed by the new token. *)
Lemma refresh_success_split amb s req :
  statusCode (refresh SECRET amb s req).2 = 200 →
  ∃ refreshToken decoded user l1 l2,
    truthy (cookies_refresh_token req) = Some refreshToken ∧
    log_expiration refreshToken = Some tt ∧
    jwt_verify refreshToken (REFRESH_TOKEN_SECRET SECRET) (clock amb) = Verified decoded ∧
    select_where_username s (payload.username decoded) = Some user ∧
    parse_refreshTokens user = l1 ++ (refreshToken :: l2) ∧
    (refreshToken ∉ l1) ∧
    refresh SECRET amb s req =
      (update_refreshTokens s (users.id user)
         (l1 ++ l2 ++ [generateRefreshToken SECRET (clock amb) (payload.username decoded)]),
       rotated SECRET amb (payload.username decoded) (users.role user)).
Proof.
  intros Hok.
  destruct (refresh_success_inv amb s req Hok)
    as (refreshToken & decoded & user & Hc & Hlog & Hv & Hu & Hi & ->).
  destruct (indexOf_present _ _ Hi) as (l1 & l2 & Hl & Hl1 & _).
  exists refreshToken, decoded, user, l1, l2.
  rewrite Hl, splice1_indexOf, <- (assoc_L (++)) by done.
  by rewrite <- Hl.
Qed.

(** The rotation branch of the refresh route is taken whenever the token is
    on the list of the user it names. *)
Lemma refresh_accepts amb s req refreshToken decoded user :
  truthy (cookies_refresh_token req) = Some refreshToken →
  log_expiration refreshToken = Some tt →
  jwt_verify refreshToken (REFRESH_TOKEN_SECRET SECRET) (clock amb) = Verified decoded →
  select_where_username s (payload.username decoded) = Some user →
  refreshToken ∈ parse_refreshTokens user →
  (refresh SECRET amb s req).2 =
    rotated SECRET amb (payload.username decoded) (users.role user).
Proof.
  intros Hc Hlog Hv Hu Hin. unfold refresh. rewrite Hc, Hlog. cbn. rewrite Hv, Hu.
  rewrite decide_False; [done|]. by rewrite indexOf_absent; intros [].
Qed.

(** C9 — Role from the store: a successful refresh signs the new access
    token with the role stored for the user and reports isAdmin from that
    stored role; the role claim the presented token may carry is not read. *)
Theorem refresh_role_from_store amb s req refreshToken decoded user :
  truthy (cookies_refresh_token req) = Some refreshToken →
  jwt_verify refreshToken (REFRESH_TOKEN_SECRET SECRET) (clock amb) = Verified decoded →
  select_where_username s (payload.username decoded) = Some user →
  statusCode (refresh SECRET amb s req).2 = 200 →
  cookies (refresh SECRET amb s req).2 =
    [SetCookie "access_token"
       (jwt_sign (payload.mk (payload.username decoded) (Some (users.role user)))
          SECRET ACCESS_TOKEN_EXPIRY (clock amb))
       (session_cookie 86400000);
     SetCookie "refresh_token"
       (jwt_sign (payload.mk (payload.username decoded) None)
          SECRET REFRESH_TOKEN_EXPIRY (clock amb))
       (session_cookie 604800000)] ∧
  body (refresh SECRET amb s req).2 =
    Some [("message", JString "Token refreshed successfully");
          ("isAdmin", JBool (bool_decide (users.role user = "admin")))].
Proof.
  intros Hc Hv Hu Hok.
  destruct (refresh_success_inv amb s req Hok)
    as (refreshToken' & decoded' & user' & Hc' & _ & Hv' & Hu' & _ & ->).
  rewrite Hc in Hc'. injection Hc' as <-.
  rewrite Hv in Hv'. injection Hv' as <-.
  rewrite Hu in Hu'. injection Hu' as <-.
  done.
Qed.

(** C10 — Rotation keeps the count: a successful refresh persists, in one
    update of the user's row, the stored list with the first occurrence of
    the presented token taken out and the new token appended; the other
    tokens keep their order and the length is unchanged. *)
Theorem refresh_rotation_count amb s req :
  statusCode (refresh SECRET amb s req).2 = 200 →
  ∃ refreshToken decoded user l1 l2,
    truthy (cookies_refresh_token req) = Some refreshToken ∧
    jwt_verify refreshToken (REFRESH_TOKEN_SECRET SECRET) (clock amb) = Verified decoded ∧
    select_where_username s (payload.username decoded) = Some user ∧
    stored_tokens s (payload.username decoded) = l1 ++ (refreshToken :: l2) ∧
    (refreshToken ∉ l1) ∧
    (refresh SECRET amb s req).1 =
      update_refreshTokens s (users.id user)
        (l1 ++ l2 ++ [generateRefreshToken SECRET (clock amb) (payload.username decoded)]) ∧
    stored_tokens (refresh SECRET amb s req).1 (payload.username decoded) =
      l1 ++ l2 ++ [generateRefreshToken SECRET (clock amb) (payload.username decoded)] ∧
    length (stored_tokens (refresh SECRET amb s req).1 (payload.username decoded)) =
      length (stored_tokens s (payload.username decoded)).
Proof.
  intros Hok.
  destruct (refresh_success_split amb s req Hok)
    as (refreshToken & decoded & user & l1 & l2 & Hc & _ & Hv & Hu & Hl & Hl1 & ->).
  exists refreshToken, decoded, user, l1, l2.
  assert (stored_tokens s (payload.username decoded) = l1 ++ (refreshToken :: l2)) as Hs.
  { unfold stored_tokens. by rewrite Hu. }
  cbn [fst]. rewrite (stored_tokens_update _ _ _ _ Hu), Hs.
  split_and!; try done.
  rewrite !length_app. cbn [length]. lia.
Qed.
End rotation.

Lemma refresh_role_from_store_witness :
  body (fixture.refresh (fixture.at_ 5000) [fixture.alice; fixture.bob]
          (fixture.with_cookie "k.604801..alice")).2 =
    Some [("message", JString "Token refreshed successfully"); ("isAdmin", JBool true)].
Proof.
  refine (proj2 (@refresh_role_from_store fixture.jwt fixture.SECRET (fixture.at_ 5000)
            [fixture.alice; fixture.bob] (fixture.with_cookie "k.604801..alice")
            "k.604801..alice" (payload.mk "alice" None) fixture.alice _ _ _ _)); reflexivity.
Defined.

Lemma refresh_rotation_count_witness :
  ∃ refreshToken decoded user l1 l2,
    truthy (Some "k.604801..alice") = Some refreshToken ∧
    @jwt_verify fixture.jwt refreshToken fixture.SECRET 5000 = Verified decoded ∧
    select_where_username [fixture.alice; fixture.bob] (payload.username decoded) = Some user ∧
    stored_tokens [fixture.alice; fixture.bob] (payload.username decoded)
      = l1 ++ (refreshToken :: l2) ∧
    (refreshToken ∉ l1) ∧
    (fixture.refresh (fixture.at_ 5000) [fixture.alice; fixture.bob]
       (fixture.with_cookie "k.604801..alice")).1 =
      update_refreshTokens [fixture.alice; fixture.bob] (users.id user)
        (l1 ++ l2 ++ [@generateRefreshToken fixture.jwt fixture.SECRET 5000
                        (payload.username decoded)]) ∧
    stored_tokens (fixture.refresh (fixture.at_ 5000) [fixture.alice; fixture.bob]
       (fixture.with_cookie "k.604801..alice")).1 (payload.username decoded) =
      l1 ++ l2 ++ [@generateRefreshToken fixture.jwt fixture.SECRET 5000
                     (payload.username decoded)] ∧
    length (stored_tokens (fixture.refresh (fixture.at_ 5000) [fixture.alice; fixture.bob]
       (fixture.with_cookie "k.604801..alice")).1 (payload.username decoded)) =
      length (stored_tokens [fixture.alice; fixture.bob] (payload.username decoded)).
Proof.
  apply (@refresh_rotation_count fixture.jwt fixture.SECRET (fixture.at_ 5000)
           [fixture.alice; fixture.bob] (fixture.with_cookie "k.604801..alice")).
  reflexivity.
Defined.

(** ** What the handlers leave alone *)

Section preservation.
Context `{!JsonWebToken, !Bcrypt} (SECRET : string).
Implicit Types (s : db) (req : request) (amb : ambient).

Lemma update_refreshTokens_identity s i v :
  identity <$> update_refreshTokens s i v = identity <$> s.
Proof.
  unfold update_refreshTokens. rewrite <- list_fmap_compose.
  apply list_fmap_ext. intros ? u _. simpl. by case_decide.
Qed.

Lemma sweep_identity s refreshToken :
  identity <$> sweep s refreshToken = identity <$> s.
Proof.
  unfold sweep. generalize (select_all s) as l. intros l. revert s.
  induction l as [|u l IH]; intros s; [done|]. cbn [foldl]. rewrite IH.
  destruct (users.refreshTokens u); [|done].
  case_decide; [apply update_refreshTokens_identity|done].
Qed.

Lemma logout_scan_identity l s refreshToken :
  identity <$> logout_scan l s refreshToken = identity <$> s.
Proof.
  induction l as [|u l IH]; [done|]. cbn.
  destruct (users.refreshTokens u); [|done].
  destruct (includes _ _); [apply update_refreshTokens_identity|done].
Qed.

(** The two segments of the signup route, by cases. *)
Lemma signup_begin_cases s req :
  (∃ res, signup_begin s req = inl res ∧ (statusCode res = 400 ∨ statusCode res = 409)) ∨
  ∃ username,
    truthy (body_username req) = Some username ∧
    is_truthy (body_password req) = true ∧
    select_where_username s username = None ∧
    signup_begin s req = inr (mkSignupPending username (body_password req)).
Proof.
  unfold signup_begin.
  destruct (truthy (body_username req)) as [username|]; [|left; eexists; split; [done|by left]].
  destruct (is_truthy (body_password req)); [|left; eexists; split; [done|by left]].
  destruct (select_where_username s username) eqn:Hu;
    [left; eexists; split; [done|by right]|].
  right. by exists username.
Qed.

Lemma signup_resume_cases amb s k :
  signup_resume amb s k = (s, internal_error) ∧
    ((∀ password, signup_password k ≠ Text password) ∨
     uuid amb ∈ users.id <$> s ∨
     signup_username k ∈ users.username <$> s) ∨
  ∃ password,
    signup_password k = Text password ∧
    (uuid amb ∉ users.id <$> s) ∧
    (signup_username k ∉ users.username <$> s) ∧
    signup_resume amb s k =
      (s ++ [users.mk (uuid amb) (signup_username k) (bcrypt_hash password 10 (salt amb))
               (if decide (s = []) then "admin" else "user") (Some []) None],
       mkResponse 201 [] (Some [("message", JString "User created successfully");
                                ("username", JString (signup_username k))])).
Proof.
  unfold signup_resume. destruct (signup_password k) as [password|t]; cbn;
    [|left; split; [done|by left]].
  unfold insert. cbn [users.id users.username].
  case_decide; [left; split; [done|auto]|].
  case_decide; [left; split; [done|auto]|].
  right. exists password. cbn.
  assert ((if decide (length (select_all s) = 0%nat) then "admin" else "user")
          = (if decide (s = []) then "admin" else "user")) as ->.
  { unfold select_all. destruct s; by repeat case_decide. }
  by split_and!.
Qed.

(** A signup either leaves the table as it is or appends one row. *)
Lemma signup_cases amb s req :
  (signup amb s req).1 = s ∧ statusCode (signup amb s req).2 ≠ 201 ∨
  ∃ username password,
    truthy (body_username req) = Some username ∧
    (body_password req = Text password ∧ password ≠ "") ∧
    select_where_username s username = None ∧
    (uuid amb ∉ users.id <$> s) ∧
    signup amb s req =
      (s ++ [users.mk (uuid amb) username (bcrypt_hash password 10 (salt amb))
               (if decide (s = []) then "admin" else "user") (Some []) None],
       mkResponse 201 [] (Some [("message", JString "User created successfully");
                                ("username", JString username)])).
Proof.
  unfold signup.
  destruct (signup_begin_cases s req)
    as [(res & -> & [Hres|Hres])|(username & Hn & Hp & Hu & ->)];
    [left; cbn; split; [done|by rewrite Hres]..|].
  destruct (signup_resume_cases amb s (mkSignupPending username (body_password req)))
    as [[-> _]|(password & Hpw & Hid & _ & ->)]; [by left|].
  right. exists username, password. cbn in *. split_and!; try done.
  intros ->. by rewrite Hpw in Hp.
Qed.

Lemma login_cases amb s req :
  (login SECRET amb s req).1 = s ∨
  ∃ user v, (login SECRET amb s req).1 = update_refreshTokens s (users.id user) v.
Proof.
  unfold login.
  destruct (login_begin_cases s req)
    as [[-> _]|[(? & _ & _ & _ & ->)|(username & user & _ & _ & _ & ->)]]; [by left..|].
  destruct (login_resume_cases SECRET amb s (mkLoginPending username (body_password req) user))
    as [[_ ->]|[(? & _ & _ & ->)|(? & _ & _ & ->)]]; [by left..|]. right. eauto.
Qed.

Lemma refresh_cases amb s req :
  (refresh SECRET amb s req).1 = s ∨
  (∃ refreshToken, (refresh SECRET amb s req).1 = sweep s refreshToken) ∨
  ∃ user v, (refresh SECRET amb s req).1 = update_refreshTokens s (users.id user) v.
Proof.
  unfold refresh. destruct (truthy _); cbn; [|by left].
  destruct (log_expiration _); cbn; [|by left].
  repeat case_match; cbn; eauto.
Qed.

Lemma step_identity s x :
  identity <$> s `prefix_of` identity <$> (step SECRET s x).1.
Proof.
  destruct x as [amb [req|req|req|req|]]; unfold step; cbn [fst snd].
  - destruct (signup_cases amb s req) as [[-> _]|(?&?&_&_&_&_&->)]; [done|].
    cbn. rewrite fmap_app. by apply prefix_app_r.
  - destruct (login_cases amb s req) as [->|(?&?&->)]; [done|].
    by rewrite update_refreshTokens_identity.
  - destruct (refresh_cases amb s req) as [->|[(?&->)|(?&?&->)]]; [done|..].
    + by rewrite sweep_identity.
    + by rewrite update_refreshTokens_identity.
  - unfold logout. destruct (truthy _); cbn; [|done].
    by rewrite logout_scan_identity.
  - done.
Qed.

Lemma run_identity s xs :
  identity <$> s `prefix_of` identity <$> run SECRET s xs.
Proof.
  revert s. induction xs as [|x xs IH]; intros s; [done|].
  cbn. etrans; [apply step_identity|apply IH].
Qed.


(** The success branch of the login route. *)
Lemma login_success_inv amb s req :
  statusCode (login SECRET amb s req).2 = 200 →
  ∃ username password user,
    truthy (body_username req) = Some username ∧
    (body_password req = Text password ∧ password ≠ "") ∧
    select_where_username s username = Some user ∧
    bcrypt_compare password (users.passwordHash user) = true ∧
    login SECRET amb s req =
      (update_refreshTokens s (users.id user)
         (parse_refreshTokens user ++ [generateRefreshToken SECRET (clock amb) username]),
       mkResponse 200
         [SetCookie "access_token"
            (generateAccessToken SECRET (clock amb) username (users.role user))
            (session_cookie 86400000);
          SetCookie "refresh_token" (generateRefreshToken SECRET (clock amb) username)
            (session_cookie 604800000)]
         (Some [("message", JString "Login successful");
                ("username", JString username);
                ("isAdmin", JBool (bool_decide (users.role user = "admin")))])).
Proof.
  unfold login.
  destruct (login_begin_cases s req)
    as [[-> _]|[(? & _ & _ & _ & ->)|(username & user & Hn & Hp & Hu & ->)]]; [done..|].
  destruct (login_resume_cases SECRET amb s (mkLoginPending username (body_password req) user))
    as [[_ ->]|[(? & _ & _ & ->)|(password & Hpw & Hm & ->)]]; [done..|].
  intros _. exists username, password, user. cbn in *. split_and!; try done.
  intros ->. by rewrite Hpw in Hp.
Qed.

(** When no other request is served while the login waits, and [id] is a
    primary key, a successful login rewrites exactly one row, the user's, and
    there only appends the new refresh token to the array the column held
    (none for NULL); the other fields of that row and every other row are
    unchanged. *)
Lemma login_frame amb s req :
  primary_key s →
  statusCode (login SECRET amb s req).2 = 200 →
  ∃ k user,
    truthy (body_username req) = Some (users.username user) ∧
    select_where_username s (users.username user) = Some user ∧
    s !! k = Some user ∧
    (login SECRET amb s req).1 =
      <[k := users.mk (users.id user) (users.username user) (users.passwordHash user)
               (users.role user)
               (Some (match users.refreshTokens user with
                      | Some tokens => tokens
                      | None => []
                      end ++
                      [generateRefreshToken SECRET (clock amb) (users.username user)]))
               (users.defaultDashboardId user)]> s ∧
    (∀ j, j ≠ k → (login SECRET amb s req).1 !! j = s !! j).
Proof.
  intros Hpk Hok.
  destruct (login_success_inv amb s req Hok)
    as (username & password & user & Hn & _ & Hu & _ & ->).
  destruct (select_where_username_Some _ _ _ Hu) as (k & Hk & <- & _).
  exists k, user. cbn [fst]. rewrite (update_refreshTokens_insert s k user _ Hpk Hk).
  split_and!; try done.
  intros j Hj. by rewrite list_lookup_insert_ne.
Qed.

(** C7 — Login frame fails when the user's list is written while the login
    waits for [bcrypt.compare].  What a successful login persists is the
    array of the row it read before the [await] with the new token appended,
    written over whatever the row holds when the handler resumes: a token
    that another request stored in between (the one a refresh has just
    handed out) is dropped, and one that it removed (the token that refresh
    rotated away, or that a logout revoked) is stored again. *)
Theorem login_stale_write amb s s' req k :
  login_begin s req = inr k →
  statusCode (login_resume SECRET amb s' k).2 = 200 →
  select_where_username s (login_username k) = Some (login_user k) ∧
  (login_resume SECRET amb s' k).1 =
    update_refreshTokens s' (users.id (login_user k))
      (match users.refreshTokens (login_user k) with
       | Some tokens => tokens
       | None => []
       end ++ [generateRefreshToken SECRET (clock amb) (login_username k)]) ∧
  (∀ u', u' ∈ (login_resume SECRET amb s' k).1 →
         users.id u' = users.id (login_user k) →
         users.refreshTokens u' =
           Some (match users.refreshTokens (login_user k) with
                 | Some tokens => tokens
                 | None => []
                 end ++ [generateRefreshToken SECRET (clock amb) (login_username k)])) ∧
  (∀ t u', u' ∈ (login_resume SECRET amb s' k).1 →
           users.id u' = users.id (login_user k) →
           t ∈ parse_refreshTokens u' →
           t ∈ parse_refreshTokens (login_user k) ∨
           t = generateRefreshToken SECRET (clock amb) (login_username k)).
Proof.
  intros Hb Hok.
  assert (select_where_username s (login_username k) = Some (login_user k)) as Hu.
  { destruct (login_begin_cases s req)
      as [[Hb' _]|[(? & _ & _ & _ & Hb')|(username & user & _ & _ & Hu & Hb')]];
      rewrite Hb' in Hb; [done..|]. by injection Hb as <-. }
  destruct (login_resume_cases SECRET amb s' k)
    as [[_ Heq]|[(? & _ & _ & Heq)|(password & _ & _ & Heq)]];
    rewrite Heq in Hok |- *; [done..|]. clear Hok Heq. cbn [fst].
  assert (∀ u', u' ∈ update_refreshTokens s' (users.id (login_user k))
                        (parse_refreshTokens (login_user k) ++
                           [generateRefreshToken SECRET (clock amb) (login_username k)]) →
                users.id u' = users.id (login_user k) →
                users.refreshTokens u' =
                  Some (parse_refreshTokens (login_user k) ++
                          [generateRefreshToken SECRET (clock amb) (login_username k)]))
    as Hrow.
  { intros u' (u0 & -> & _)%list_elem_of_fmap. case_decide as Hid; [done|].
    intros Hid'. by destruct Hid. }
  split_and!; [done|done|exact Hrow|].
  intros t u' Hin Hid. unfold parse_refreshTokens at 1. rewrite (Hrow u' Hin Hid).
  rewrite elem_of_app, list_elem_of_singleton. tauto.
Qed.
End preservation.

(** The login reads alice's row, a refresh rotates her token while the
    login waits, and the login resumes on the table the refresh left. *)
Lemma login_stale_write_witness :
  (fixture.refresh (fixture.at_ 5000) [fixture.alice]
     (fixture.with_cookie "k.604801..alice")) =
    ([users.mk "u1" "alice" "s1$pw1" "admin" (Some ["k.604805..alice"]) None],
     mkResponse 200
       [SetCookie "access_token" "k.259205.admin.alice" (session_cookie 86400000);
        SetCookie "refresh_token" "k.604805..alice" (session_cookie 604800000)]
       (Some [("message", JString "Token refreshed successfully");
              ("isAdmin", JBool true)])) ∧
  (@login_resume fixture.jwt fixture.bcrypt fixture.SECRET (fixture.at_ 6000)
     [users.mk "u1" "alice" "s1$pw1" "admin" (Some ["k.604805..alice"]) None]
     (mkLoginPending "alice" (Text "pw1") fixture.alice)).1 =
    [users.mk "u1" "alice" "s1$pw1" "admin"
       (Some ["k.604801..alice"; "k.604806..alice"]) None].
Proof.
  split; [reflexivity|].
  exact (proj1 (proj2 (@login_stale_write fixture.jwt fixture.bcrypt fixture.SECRET
           (fixture.at_ 6000) [fixture.alice]
           [users.mk "u1" "alice" "s1$pw1" "admin" (Some ["k.604805..alice"]) None]
           (fixture.with_body "alice" "pw1")
           (mkLoginPending "alice" (Text "pw1") fixture.alice) eq_refl eq_refl))).
Defined.

(** ** The reuse sweep of the refresh route *)

Section reuse.
Context `{!JsonWebToken} (SECRET : string).
Implicit Types (s : db) (req : request) (amb : ambient).

Lemma strip_token_id refreshToken u :
  users.id (strip_token refreshToken u) = users.id u.
Proof. unfold strip_token. by destruct (users.refreshTokens u). Qed.

Lemma strip_token_parse refreshToken u :
  parse_refreshTokens (strip_token refreshToken u)
    = filter_out refreshToken (parse_refreshTokens u).
Proof.
  unfold strip_token, parse_refreshTokens.
  by destruct (users.refreshTokens u) eqn:Hu; cbn; rewrite ?Hu.
Qed.

Lemma strip_token_Some refreshToken u tokens :
  users.refreshTokens u = Some tokens →
  strip_token refreshToken u = users.set_refreshTokens (filter_out refreshToken tokens) u.
Proof. unfold strip_token. by intros ->. Qed.

Lemma strip_token_None refreshToken u :
  users.refreshTokens u = None → strip_token refreshToken u = u.
Proof. unfold strip_token. by intros ->. Qed.

Lemma set_refreshTokens_same u tokens :
  users.refreshTokens u = Some tokens → users.set_refreshTokens tokens u = u.
Proof. destruct u. cbn. by intros ->. Qed.

(** One round of the loop, on the table as the earlier rounds left it. *)
Lemma sweep_round done u todo refreshToken :
  primary_key (done ++ (u :: todo)) →
  match users.refreshTokens u with
  | Some tokens =>
      if decide (length (filter_out refreshToken tokens) ≠ length tokens)
      then update_refreshTokens ((strip_token refreshToken <$> done) ++ (u :: todo))
             (users.id u) (filter_out refreshToken tokens)
      else (strip_token refreshToken <$> done) ++ (u :: todo)
  | None => (strip_token refreshToken <$> done) ++ (u :: todo)
  end = (strip_token refreshToken <$> done) ++ (strip_token refreshToken u :: todo).
Proof.
  intros Hpk.
  destruct (users.refreshTokens u) as [tokens|] eqn:Hu;
    [rewrite (strip_token_Some _ _ _ Hu)|by rewrite (strip_token_None _ _ Hu)].
  case_decide as Hlen.
  - erewrite (update_refreshTokens_insert _ (length done)).
    + rewrite insert_app_r_alt by (by rewrite length_fmap).
      by rewrite length_fmap, Nat.sub_diag.
    + unfold primary_key in *. rewrite fmap_app, <- list_fmap_compose.
      rewrite (list_fmap_ext (users.id ∘ strip_token refreshToken) users.id done).
      * by rewrite <- fmap_app.
      * intros ? x _. apply strip_token_id.
    + rewrite lookup_app_r by (by rewrite length_fmap).
      by rewrite length_fmap, Nat.sub_diag.
  - apply filter_out_length in Hlen.
    by rewrite Hlen, (set_refreshTokens_same u tokens Hu).
Qed.

Lemma sweep_rounds done todo refreshToken :
  primary_key (done ++ todo) →
  foldl (λ cur u,
           match users.refreshTokens u with
           | Some tokens =>
               let filtered := filter_out refreshToken tokens in
               if decide (length filtered ≠ length tokens)
               then update_refreshTokens cur (users.id u) filtered
               else cur
           | None => cur
           end)
        ((strip_token refreshToken <$> done) ++ todo) todo
  = strip_token refreshToken <$> (done ++ todo).
Proof.
  revert done. induction todo as [|u todo IH]; intros done Hpk.
  - by rewrite !app_nil_r.
  - cbn [foldl]. cbv zeta. rewrite (sweep_round done u todo refreshToken Hpk).
    assert (done ++ (u :: todo) = (done ++ [u]) ++ todo) as Heq
      by (by rewrite <- (assoc_L (++))).
    rewrite Heq in Hpk |- *.
    specialize (IH (done ++ [u]) Hpk).
    rewrite fmap_app, <- (assoc_L (++)) in IH. exact IH.
Qed.

(** With a primary key the sweep takes the token out of every row's list
    and changes nothing else. *)
Lemma sweep_strip s refreshToken :
  primary_key s → sweep s refreshToken = strip_token refreshToken <$> s.
Proof. intros Hpk. apply (sweep_rounds [] s refreshToken Hpk). Qed.

(** C2 — Reuse/orphan path: a refresh whose token verifies for an existing
    user but is not in that user's stored list takes the token out of every
    row's list (nothing else in the table changes), clears the access_token
    and refresh_token cookies, answers 401 "Refresh token not found" and sets
    no cookie.  The table has [id] as primary key, and the token's expiry is
    one the log line can print, as is that of every token this module signs. *)
Theorem refresh_reuse_sweep amb s req refreshToken decoded user :
  primary_key s →
  truthy (cookies_refresh_token req) = Some refreshToken →
  log_expiration refreshToken = Some tt →
  jwt_verify refreshToken (REFRESH_TOKEN_SECRET SECRET) (clock amb) = Verified decoded →
  select_where_username s (payload.username decoded) = Some user →
  refreshToken ∉ parse_refreshTokens user →
  (refresh SECRET amb s req).1 = strip_token refreshToken <$> s ∧
  token_absent refreshToken (refresh SECRET amb s req).1 ∧
  (refresh SECRET amb s req).2 =
    mkResponse 401
      [ClearCookie "access_token" clear_httpOnly; ClearCookie "refresh_token" clear_httpOnly]
      (Some (message "Refresh token not found")) ∧
  sets_cookie (refresh SECRET amb s req).2 = false.
Proof.
  intros Hpk Hc Hlog Hv Hu Habsent. unfold refresh.
  rewrite Hc, Hlog. cbn. rewrite Hv, Hu.
  apply indexOf_absent in Habsent. rewrite decide_True by done. cbn.
  rewrite (sweep_strip s refreshToken Hpk). split_and!; try done.
  unfold token_absent. rewrite Forall_fmap. apply Forall_true. intros u. cbn.
  rewrite strip_token_parse. apply filter_out_absent.
Qed.
End reuse.

Lemma refresh_reuse_sweep_witness :
  (fixture.refresh (fixture.at_ 5000) [fixture.bob; fixture.mallory]
     (fixture.with_cookie "k.604801..bob")).1 =
    strip_token "k.604801..bob" <$> [fixture.bob; fixture.mallory] ∧
  token_absent "k.604801..bob"
    (fixture.refresh (fixture.at_ 5000) [fixture.bob; fixture.mallory]
       (fixture.with_cookie "k.604801..bob")).1 ∧
  (fixture.refresh (fixture.at_ 5000) [fixture.bob; fixture.mallory]
     (fixture.with_cookie "k.604801..bob")).2 =
    mkResponse 401
      [ClearCookie "access_token" clear_httpOnly; ClearCookie "refresh_token" clear_httpOnly]
      (Some (message "Refresh token not found")) ∧
  sets_cookie (fixture.refresh (fixture.at_ 5000) [fixture.bob; fixture.mallory]
                 (fixture.with_cookie "k.604801..bob")).2 = false.
Proof.
  apply (@refresh_reuse_sweep fixture.jwt fixture.SECRET (fixture.at_ 5000)
           [fixture.bob; fixture.mallory] (fixture.with_cookie "k.604801..bob")
           "k.604801..bob" (payload.mk "bob" None) fixture.bob).
  - apply (bool_decide_unpack _). vm_compute. exact I.
  - reflexivity.
  - reflexivity.
  - reflexivity.
  - reflexivity.
  - apply not_elem_of_nil.
Defined.

(** ** Logout *)

Section logout.
Implicit Types (s : db) (req : request) (amb : ambient).

Lemma includes_false tokens refreshToken :
  refreshToken ∉ tokens → includes tokens refreshToken = false.
Proof. intros Hn. unfold includes. by apply bool_decide_eq_false. Qed.

(** The scan writes nothing when no row of the snapshot holds the token. *)
Lemma logout_scan_absent l s refreshToken :
  token_absent refreshToken l → logout_scan l s refreshToken = s.
Proof.
  unfold token_absent. induction 1 as [|u l Hu _ IH]; [done|]. cbn.
  unfold parse_refreshTokens in Hu.
  destruct (users.refreshTokens u) as [tokens|]; [|done].
  by rewrite (includes_false _ _ Hu).
Qed.

(** Otherwise it rewrites the first row that holds it. *)
Lemma logout_scan_cases l s refreshToken :
  token_absent refreshToken l ∧ logout_scan l s refreshToken = s ∨
  ∃ k u tokens,
    l !! k = Some u ∧ users.refreshTokens u = Some tokens ∧
    refreshToken ∈ tokens ∧
    token_absent refreshToken (take k l) ∧
    logout_scan l s refreshToken =
      update_refreshTokens s (users.id u) (filter_out refreshToken tokens).
Proof.
  induction l as [|u l IH]; [left; split; [constructor|done]|]. cbn.
  assert (∀ k u' tokens',
    refreshToken ∉ parse_refreshTokens u →
    l !! k = Some u' ∧ users.refreshTokens u' = Some tokens' ∧
    refreshToken ∈ tokens' ∧ token_absent refreshToken (take k l) ∧
    logout_scan l s refreshToken =
      update_refreshTokens s (users.id u') (filter_out refreshToken tokens') →
    ∃ k u' tokens',
      (u :: l) !! k = Some u' ∧ users.refreshTokens u' = Some tokens' ∧
      refreshToken ∈ tokens' ∧ token_absent refreshToken (take k (u :: l)) ∧
      logout_scan l s refreshToken =
        update_refreshTokens s (users.id u') (filter_out refreshToken tokens')) as Hnext.
  { intros k u' tokens' Hu' (? & ? & ? & ? & ?). exists (S k), u', tokens'.
    split_and!; try done. cbn. by constructor. }
  destruct (users.refreshTokens u) as [tokens|] eqn:Hu.
  - unfold includes. case_bool_decide as Hin.
    + right. exists 0%nat, u, tokens. split_and!; try done. constructor.
    + assert (refreshToken ∉ parse_refreshTokens u) as Hu'
        by (unfold parse_refreshTokens; by rewrite Hu).
      destruct IH as [[? ?]|(k & u' & tokens' & IH)]; [left|right; eauto].
      split; [by constructor|done].
  - assert (refreshToken ∉ parse_refreshTokens u) as Hu'
      by (unfold parse_refreshTokens; rewrite Hu; apply not_elem_of_nil).
    destruct IH as [[? ?]|(k & u' & tokens' & IH)]; [left|right; eauto].
    split; [by constructor|done].
Qed.

(** With a primary key and the token on one row at most, a logout leaves the
    token on no row. *)
Lemma logout_removes_sole_holder amb s req refreshToken :
  primary_key s →
  truthy (cookies_refresh_token req) = Some refreshToken →
  (∀ j k u u', s !! j = Some u → s !! k = Some u' →
       refreshToken ∈ parse_refreshTokens u → refreshToken ∈ parse_refreshTokens u' → j = k) →
  token_absent refreshToken (logout amb s req).1.
Proof.
  intros Hpk Hc Hsole. unfold logout. rewrite Hc. cbn. unfold select_all.
  destruct (logout_scan_cases s s refreshToken)
    as [[Habs ->]|(k & u & tokens & Hk & Hu & Hin & _ & ->)]; [done|].
  rewrite (update_refreshTokens_insert s k u _ Hpk Hk).
  unfold token_absent. apply Forall_lookup. intros j u' Hj.
  destruct (decide (j = k)) as [->|Hne].
  - rewrite list_lookup_insert_eq in Hj by eauto using lookup_lt_Some.
    injection Hj as <-. cbn. apply filter_out_absent.
  - rewrite list_lookup_insert_ne in Hj by done. intros Hin'.
    destruct Hne. apply (Hsole j k u' u Hj Hk Hin').
    unfold parse_refreshTokens. by rewrite Hu.
Qed.

(** C3 — Logout again: once a logout has left the token on no row, a second
    logout presenting it and a logout without cookie both answer 200 and
    leave the table as it is; the second logout still clears both cookies,
    in the http-only and the plain variant, and says "Logged out
    successfully", while the logout without cookie touches no cookie and
    says "No session to logout". *)
Theorem logout_again amb1 amb2 amb3 s req refreshToken :
  truthy (cookies_refresh_token req) = Some refreshToken →
  token_absent refreshToken (logout amb1 s req).1 →
  logout amb2 (logout amb1 s req).1 req =
    ((logout amb1 s req).1,
     mkResponse 200
       [ClearCookie "access_token" clear_httpOnly; ClearCookie "refresh_token" clear_httpOnly;
        ClearCookie "access_token" clear_plain; ClearCookie "refresh_token" clear_plain]
       (Some (message "Logged out successfully"))) ∧
  logout amb3 (logout amb1 s req).1 (mkRequest (body_username req) (body_password req) None) =
    ((logout amb1 s req).1,
     mkResponse 200 [] (Some (message "No session to logout"))).
Proof.
  intros Hc Habs. split; [|done].
  generalize dependent (logout amb1 s req).1. intros s1 Habs.
  unfold logout. rewrite Hc. cbn. unfold select_all.
  by rewrite logout_scan_absent.
Qed.
End logout.

Lemma logout_again_witness :
  fixture.logout (fixture.at_ 2000)
      (fixture.logout (fixture.at_ 1000) [fixture.alice; fixture.bob]
         (fixture.with_cookie "k.604801..alice")).1
      (fixture.with_cookie "k.604801..alice") =
    ((fixture.logout (fixture.at_ 1000) [fixture.alice; fixture.bob]
        (fixture.with_cookie "k.604801..alice")).1,
     mkResponse 200
       [ClearCookie "access_token" clear_httpOnly; ClearCookie "refresh_token" clear_httpOnly;
        ClearCookie "access_token" clear_plain; ClearCookie "refresh_token" clear_plain]
       (Some (message "Logged out successfully"))) ∧
  fixture.logout (fixture.at_ 3000)
      (fixture.logout (fixture.at_ 1000) [fixture.alice; fixture.bob]
         (fixture.with_cookie "k.604801..alice")).1
      (mkRequest None (NotText false) None) =
    ((fixture.logout (fixture.at_ 1000) [fixture.alice; fixture.bob]
        (fixture.with_cookie "k.604801..alice")).1,
     mkResponse 200 [] (Some (message "No session to logout"))).
Proof.
  apply (logout_again (fixture.at_ 1000) (fixture.at_ 2000) (fixture.at_ 3000)
           [fixture.alice; fixture.bob] (fixture.with_cookie "k.604801..alice")
           "k.604801..alice").
  - reflexivity.
  - vm_compute. repeat constructor; apply not_elem_of_nil.
Defined.

(** C3 as stated fails: the second logout with the removed token and the
    logout without cookie do not give the same response; the former clears
    cookies, the latter does not, and the messages differ. *)
Lemma logout_again_distinguishable :
  token_absent "k.604801..alice"
    (fixture.logout (fixture.at_ 1000) [fixture.alice; fixture.bob]
       (fixture.with_cookie "k.604801..alice")).1 ∧
  (fixture.logout (fixture.at_ 2000)
     (fixture.logout (fixture.at_ 1000) [fixture.alice; fixture.bob]
        (fixture.with_cookie "k.604801..alice")).1
     (fixture.with_cookie "k.604801..alice")).2
  ≠ (fixture.logout (fixture.at_ 3000)
       (fixture.logout (fixture.at_ 1000) [fixture.alice; fixture.bob]
          (fixture.with_cookie "k.604801..alice")).1
       (mkRequest None (NotText false) None)).2 ∧
  cookies (fixture.logout (fixture.at_ 2000)
     (fixture.logout (fixture.at_ 1000) [fixture.alice; fixture.bob]
        (fixture.with_cookie "k.604801..alice")).1
     (fixture.with_cookie "k.604801..alice")).2 ≠ [].
Proof.
  split_and!.
  - vm_compute. repeat constructor; apply not_elem_of_nil.
  - vm_compute. discriminate.
  - vm_compute. discriminate.
Qed.

(** ** Rotation over sequences of requests *)

Section replay.
Context `{!JsonWebToken, !Bcrypt} (SECRET : string).
Implicit Types (s : db) (req : request) (amb : ambient).

Lemma primary_key_same_row s u v :
  primary_key s → u ∈ s → v ∈ s → users.id u = users.id v → u = v.
Proof.
  intros Hpk [i Hi]%list_elem_of_lookup_1 [j Hj]%list_elem_of_lookup_1 Hid.
  assert (i = j) as ->; [|congruence].
  eapply (NoDup_lookup _ i j (users.id u)); [apply Hpk|..];
    rewrite list_lookup_fmap; [rewrite Hi|rewrite Hj]; simpl; congruence.
Qed.

Lemma select_where_username_elem s name u :
  select_where_username s name = Some u → u ∈ s.
Proof.
  intros (k & Hk & _)%select_where_username_Some. by eapply list_elem_of_lookup_2.
Qed.

Lemma identity_id s s' :
  identity <$> s = identity <$> s' → users.id <$> s = users.id <$> s'.
Proof.
  intros Heq.
  assert (∀ l : db, users.id <$> l = (λ i, i.1.1.1.1) <$> (identity <$> l)) as Hid.
  { intros l. rewrite <- list_fmap_compose. by apply list_fmap_ext. }
  by rewrite !Hid, Heq.
Qed.

(** Every handler keeps [id] a primary key. *)
Lemma step_primary_key s x : primary_key s → primary_key (step SECRET s x).1.
Proof.
  intros Hpk. destruct x as [amb [req|req|req|req|]]; unfold step; cbn [fst snd].
  - destruct (signup_cases amb s req) as [[-> _]|(?&?&_&_&_&Hfresh&->)]; [done|].
    unfold primary_key. cbn [fst]. rewrite fmap_app. apply NoDup_app.
    split_and!; [done| |apply NoDup_singleton].
    intros i Hi. cbn. rewrite list_elem_of_singleton. by intros ->.
  - destruct (login_cases SECRET amb s req) as [->|(?&?&->)]; [done|].
    unfold primary_key. by rewrite update_refreshTokens_id.
  - destruct (refresh_cases SECRET amb s req) as [->|[(?&->)|(?&?&->)]]; [done|..];
      unfold primary_key.
    + by rewrite (identity_id _ s (sweep_identity _ _)).
    + by rewrite update_refreshTokens_id.
  - unfold logout. destruct (truthy _); cbn; [|done]. unfold primary_key.
    by rewrite (identity_id _ s (logout_scan_identity _ _ _)).
  - done.
Qed.

(** An update by id keeps a token out of a user's list when it keeps it out
    of the list it writes. *)
Lemma stored_tokens_update_keeps_out s name refreshToken row v :
  primary_key s → row ∈ s →
  (refreshToken ∉ parse_refreshTokens row → refreshToken ∉ v) →
  refreshToken ∉ stored_tokens s name →
  refreshToken ∉ stored_tokens (update_refreshTokens s (users.id row) v) name.
Proof.
  intros Hpk Hrow Hv. unfold stored_tokens. rewrite select_where_username_update.
  destruct (select_where_username s name) as [u|] eqn:Hu; cbn; [|done].
  case_decide as Hid; [|done]. cbn. intros Hout. apply Hv.
  by rewrite <- (primary_key_same_row s u row Hpk
                   (select_where_username_elem _ _ _ Hu) Hrow Hid).
Qed.

Lemma stored_tokens_strip s name refreshToken :
  stored_tokens (strip_token refreshToken <$> s) name
    = filter_out refreshToken (stored_tokens s name).
Proof.
  unfold stored_tokens, select_where_username. rewrite list_find_fmap.
  erewrite (list_find_ext (_ ∘ _) (λ u, users.username u = name)).
  - destruct (list_find _ s) as [[? u]|]; cbn; [apply strip_token_parse|done].
  - intros u. cbn. unfold strip_token. by destruct (users.refreshTokens u).
Qed.

Lemma stored_tokens_snoc s u name :
  stored_tokens (s ++ [u]) name = stored_tokens s name ∨
  stored_tokens (s ++ [u]) name = parse_refreshTokens u.
Proof.
  unfold stored_tokens, select_where_username.
  destruct (list_find _ s) as [[i v]|] eqn:Hf.
  - left. by rewrite (list_find_app_l _ _ _ _ _ Hf).
  - rewrite (list_find_app_r _ _ _ Hf). cbn. case_decide; cbn; [by right|by left].
Qed.

Lemma hands_dec res refreshToken : Decision (hands res refreshToken).
Proof.
  unfold hands. induction (cookies res) as [|c l IH].
  - right. by intros [? ?%elem_of_nil].
  - destruct IH as [IH|IH]; [left|].
    { destruct IH as [o Ho]. exists o. by apply list_elem_of_further. }
    destruct c as [name value o|name o].
    + destruct (decide (name = "refresh_token" ∧ value = refreshToken)) as [[-> ->]|Hne].
      * left. exists o. apply list_elem_of_here.
      * right. intros [o' [Heq|Hin]%elem_of_cons]; [|by destruct IH; eauto].
        injection Heq as <- <- <-. by destruct Hne.
    + right. intros [o' [Heq|Hin]%elem_of_cons]; [done|by destruct IH; eauto].
Qed.

(** A refresh that does not answer 200 leaves the table as it is, or as the
    sweep for the presented token leaves it. *)
Lemma refresh_failure_cases amb s req :
  statusCode (refresh SECRET amb s req).2 ≠ 200 →
  (refresh SECRET amb s req).1 = s ∨
  ∃ presented, (refresh SECRET amb s req).1 = sweep s presented.
Proof.
  unfold refresh. destruct (truthy _) as [presented|]; cbn; [|by left].
  destruct (log_expiration _); cbn; [|by left].
  destruct (jwt_verify _ _ _); [|case_bool_decide; by left].
  destruct (select_where_username _ _); [|by left].
  case_decide; cbn; [right; eauto|done].
Qed.

Lemma login_failure_state amb s req :
  statusCode (login SECRET amb s req).2 ≠ 200 → (login SECRET amb s req).1 = s.
Proof.
  unfold login.
  destruct (login_begin_cases s req)
    as [[-> _]|[(? & _ & _ & _ & ->)|(username & user & _ & _ & _ & ->)]]; [done..|].
  by destruct (login_resume_cases SECRET amb s
                 (mkLoginPending username (body_password req) user))
    as [[_ ->]|[(? & _ & _ & ->)|(? & _ & _ & ->)]].
Qed.

(** No handler puts a token on a user's list other than the one its response
    hands out. *)
Lemma step_keeps_out s x name refreshToken :
  primary_key s →
  ¬ hands (step SECRET s x).2 refreshToken →
  refreshToken ∉ stored_tokens s name →
  refreshToken ∉ stored_tokens (step SECRET s x).1 name.
Proof.
  intros Hpk Hhands Hout.
  destruct x as [amb [req|req|req|req|]]; unfold step in *; cbn [fst snd] in *.
  - destruct (signup_cases amb s req) as [[-> _]|(?&?&_&_&_&_&->)]; [done|]. cbn [fst].
    match goal with
    | |- _ ∉ stored_tokens (_ ++ [?u]) _ =>
        destruct (stored_tokens_snoc s u name) as [->| ->]
    end; [done|apply not_elem_of_nil].
  - destruct (decide (statusCode (login SECRET amb s req).2 = 200)) as [Hok|Hno];
      [|by rewrite login_failure_state].
    destruct (login_success_inv SECRET amb s req Hok)
      as (username & password & user & _ & _ & Hu & _ & Heq).
    rewrite Heq in Hhands |- *. cbn [fst snd] in *.
    apply stored_tokens_update_keeps_out;
      [done|by eapply select_where_username_elem| |done].
    intros Hrow. rewrite not_elem_of_app, list_elem_of_singleton.
    split; [done|]. intros ->. apply Hhands. eexists. cbn.
    rewrite !elem_of_cons. right. by left.
  - destruct (decide (statusCode (refresh SECRET amb s req).2 = 200)) as [Hok|Hno].
    + destruct (refresh_success_inv SECRET amb s req Hok)
        as (presented & decoded & user & _ & _ & _ & Hu & _ & Heq).
      rewrite Heq in Hhands |- *. cbn [fst snd] in *.
      apply stored_tokens_update_keeps_out;
        [done|by eapply select_where_username_elem| |done].
      intros Hrow. rewrite not_elem_of_app, list_elem_of_singleton.
      split; [by intros Hin%list_elem_of_delete_inv|]. intros ->.
      apply Hhands. eexists. cbn. rewrite !elem_of_cons. right. by left.
    + destruct (refresh_failure_cases amb s req Hno) as [->|[presented ->]]; [done|].
      rewrite (sweep_strip s presented Hpk), stored_tokens_strip.
      by intros Hin%filter_out_subset.
  - unfold logout.
    destruct (truthy (cookies_refresh_token req)) as [presented|]; [|done]. cbn.
    destruct (logout_scan_cases (select_all s) s presented)
      as [[_ ->]|(k & u & tokens & Hk & Hu & _ & _ & ->)]; [done|].
    apply stored_tokens_update_keeps_out;
      [done|by eapply list_elem_of_lookup_2| |done].
    intros Hrow Hin%filter_out_subset. apply Hrow.
    unfold parse_refreshTokens. by rewrite Hu.
  - done.
Qed.

Lemma run_keeps_out s xs name refreshToken :
  primary_key s →
  Forall (λ res, ¬ hands res refreshToken) (responses SECRET s xs) →
  refreshToken ∉ stored_tokens s name →
  refreshToken ∉ stored_tokens (run SECRET s xs) name.
Proof.
  revert s. induction xs as [|x xs IH]; intros s Hpk Hxs Hout; [done|].
  cbn in *. apply Forall_cons in Hxs as [Hx Hxs].
  apply IH; [by apply step_primary_key|done|by apply step_keeps_out].
Qed.

(** Rows are never deleted, so a name that resolves keeps resolving. *)
Lemma select_where_username_persists s xs name :
  is_Some (select_where_username s name) →
  is_Some (select_where_username (run SECRET s xs) name).
Proof.
  intros [u Hu]. destruct (run_identity SECRET s xs) as [k Hk].
  destruct (select_where_username (run SECRET s xs) name) eqn:Hs'; [eauto|].
  apply select_where_username_None in Hs'. destruct Hs'.
  apply select_where_username_Some in Hu as (i & Hi & <- & _).
  assert (∀ l : db, users.username <$> l = (λ i, i.1.1.1.2) <$> (identity <$> l)) as Hname.
  { intros l. rewrite <- list_fmap_compose. by apply list_fmap_ext. }
  rewrite Hname, Hk, fmap_app, <- Hname, elem_of_app. left.
  apply list_elem_of_fmap_2. by eapply list_elem_of_lookup_2.
Qed.
End replay.

Section rotation_invariant.
Context `{!JsonWebToken, !Bcrypt} (SECRET : string).
Implicit Types (s : db) (req : request) (amb : ambient).

(** A refresh presenting a token that is not on the list of the user it
    names is answered 401 and sets no cookie, whatever verification says. *)
Lemma refresh_rejects amb s req refreshToken name :
  truthy (cookies_refresh_token req) = Some refreshToken →
  log_expiration refreshToken = Some tt →
  (∀ d, jwt_verify refreshToken (REFRESH_TOKEN_SECRET SECRET) (clock amb) = Verified d →
        payload.username d = name) →
  is_Some (select_where_username s name) →
  refreshToken ∉ stored_tokens s name →
  statusCode (refresh SECRET amb s req).2 = 401 ∧
  sets_cookie (refresh SECRET amb s req).2 = false ∧
  (∀ d, jwt_verify refreshToken (REFRESH_TOKEN_SECRET SECRET) (clock amb) = Verified d →
        (refresh SECRET amb s req).2 =
          mkResponse 401
            [ClearCookie "access_token" clear_httpOnly;
             ClearCookie "refresh_token" clear_httpOnly]
            (Some (message "Refresh token not found"))).
Proof.
  intros Hc Hlog Hname [user Hu] Hout. unfold refresh. rewrite Hc, Hlog. cbn.
  destruct (jwt_verify _ _ _) as [decoded|err] eqn:Hv.
  - rewrite (Hname decoded eq_refl), Hu.
    unfold stored_tokens in Hout. rewrite Hu in Hout.
    apply indexOf_absent in Hout. by rewrite decide_True.
  - by case_bool_decide.
Qed.

(** For a table with [id] as primary key, a token that occurs once on the
    user's list and a newly signed refresh token that differs from it, and
    requests served one after the other: after the successful refresh the
    token is no longer on the user's list, and after further requests none
    of whose responses hands that token out again, a refresh presenting it
    is answered 401 and sets no cookie. *)
Lemma refresh_rotation_once amb s req refreshToken decoded xs amb' :
  primary_key s →
  truthy (cookies_refresh_token req) = Some refreshToken →
  jwt_verify refreshToken (REFRESH_TOKEN_SECRET SECRET) (clock amb) = Verified decoded →
  statusCode (refresh SECRET amb s req).2 = 200 →
  length (filter (λ t, t = refreshToken) (stored_tokens s (payload.username decoded))) = 1%nat →
  generateRefreshToken SECRET (clock amb) (payload.username decoded) ≠ refreshToken →
  Forall (λ res, ¬ hands res refreshToken)
    (responses SECRET (refresh SECRET amb s req).1 xs) →
  (∀ d, jwt_verify refreshToken (REFRESH_TOKEN_SECRET SECRET) (clock amb') = Verified d →
        payload.username d = payload.username decoded) →
  (refreshToken ∉ stored_tokens (refresh SECRET amb s req).1 (payload.username decoded)) ∧
  statusCode (refresh SECRET amb' (run SECRET (refresh SECRET amb s req).1 xs) req).2 = 401 ∧
  sets_cookie (refresh SECRET amb' (run SECRET (refresh SECRET amb s req).1 xs) req).2 = false.
Proof.
  intros Hpk Hc Hv Hok Honce Hnew Hxs Hsame.
  destruct (refresh_success_split SECRET amb s req Hok)
    as (presented & decoded' & user & l1 & l2 & Hc' & Hlog & Hv' & Hu & Hl & Hl1 & Heq).
  rewrite Hc in Hc'. injection Hc' as <-.
  rewrite Hv in Hv'. injection Hv' as <-.
  assert (stored_tokens s (payload.username decoded) = l1 ++ (refreshToken :: l2)) as Hs.
  { unfold stored_tokens. by rewrite Hu. }
  assert (stored_tokens (refresh SECRET amb s req).1 (payload.username decoded) =
            l1 ++ l2 ++ [generateRefreshToken SECRET (clock amb) (payload.username decoded)])
    as Hs1.
  { rewrite Heq. cbn [fst]. apply (stored_tokens_update _ _ _ _ Hu). }
  assert (refreshToken ∉ l2) as Hl2.
  { rewrite Hs, filter_app, filter_cons_True, length_app in Honce by done.
    cbn [length] in Honce.
    apply (filter_nil_not_elem_of (λ t, t = refreshToken)); [|done].
    apply nil_length_inv. lia. }
  assert (refreshToken ∉
            stored_tokens (refresh SECRET amb s req).1 (payload.username decoded)) as Hout.
  { rewrite Hs1, !not_elem_of_app, list_elem_of_singleton. by split_and!. }
  split; [done|].
  destruct (refresh_rejects amb' (run SECRET (refresh SECRET amb s req).1 xs) req
              refreshToken (payload.username decoded)) as (? & ? & _); try done.
  - apply (select_where_username_persists SECRET s ((amb, Refresh req) :: xs)). eauto.
  - apply run_keeps_out; [|done..].
    apply (step_primary_key SECRET s (amb, Refresh req) Hpk).
Qed.

(** A list that ends in the same element twice holds it again behind its
    first occurrence. *)
Lemma twice_behind_first (l l1 l2 : list string) (x : string) :
  (l ++ [x]) ++ [x] = l1 ++ (x :: l2) → x ∉ l1 → x ∈ l2.
Proof.
  intros Heq Hl1. destruct l2 as [|y l2 _] using rev_ind.
  - apply (app_inj_tail (l ++ [x]) l1 x x) in Heq as [<- _].
    destruct Hl1. rewrite elem_of_app, list_elem_of_singleton. by right.
  - assert (l1 ++ (x :: l2 ++ [y]) = (l1 ++ (x :: l2)) ++ [y]) as Hassoc
      by (by rewrite <- (assoc_L (++))).
    rewrite Hassoc in Heq. apply app_inj_tail in Heq as [_ <-].
    rewrite elem_of_app, list_elem_of_singleton. by right.
Qed.

(** C1 — The rotation invariant fails for a token that sits on the list
    twice, which two logins of one user within the same second bring about
    ([jwt.sign] gives both the same token).  After the two logins a refresh
    presenting the token succeeds and takes out one occurrence only, so the
    token is still on the user's list, and a second refresh presenting it
    succeeds again and sets new cookies instead of being answered 401. *)
Theorem refresh_replay_accepted amb1 amb2 amb3 amb4 s req creq username refreshToken decoded :
  truthy (body_username req) = Some username →
  statusCode (login SECRET amb1 s req).2 = 200 →
  statusCode (login SECRET amb2 (login SECRET amb1 s req).1 req).2 = 200 →
  generateRefreshToken SECRET (clock amb1) username = refreshToken →
  generateRefreshToken SECRET (clock amb2) username = refreshToken →
  truthy (cookies_refresh_token creq) = Some refreshToken →
  log_expiration refreshToken = Some tt →
  jwt_verify refreshToken (REFRESH_TOKEN_SECRET SECRET) (clock amb3) = Verified decoded →
  jwt_verify refreshToken (REFRESH_TOKEN_SECRET SECRET) (clock amb4) = Verified decoded →
  payload.username decoded = username →
  statusCode <$> responses SECRET s
      [(amb1, Login req); (amb2, Login req); (amb3, Refresh creq); (amb4, Refresh creq)]
    = [200; 200; 200; 200] ∧
  refreshToken ∈
    stored_tokens
      (run SECRET s [(amb1, Login req); (amb2, Login req); (amb3, Refresh creq)]) username ∧
  sets_cookie
    (refresh SECRET amb4
       (run SECRET s [(amb1, Login req); (amb2, Login req); (amb3, Refresh creq)])
       creq).2 = true.
Proof.
  intros Hn Hok1 Hok2 Ht1 Ht2 Hc Hlog Hv3 Hv4 Hd.
  cbn [responses run foldl step fst snd fmap list_fmap].
  destruct (login_success_inv SECRET amb1 s req Hok1)
    as (username' & password & user & Hn' & _ & Hu & _ & Heq1).
  rewrite Hn in Hn'. injection Hn' as <-.
  rewrite Heq1 in Hok2 |- *. cbn [fst snd] in Hok2 |- *. rewrite Ht1 in Hok2 |- *.
  set (s1 := update_refreshTokens s (users.id user) (parse_refreshTokens user ++ [refreshToken]))
    in *.
  assert (select_where_username s1 username =
            Some (users.set_refreshTokens (parse_refreshTokens user ++ [refreshToken]) user))
    as Hu1.
  { unfold s1. rewrite select_where_username_update, Hu. cbn. by rewrite decide_True. }
  destruct (login_success_inv SECRET amb2 s1 req Hok2)
    as (username' & password' & user1 & Hn' & _ & Hu1' & _ & Heq2).
  rewrite Hn in Hn'. injection Hn' as <-.
  rewrite Hu1 in Hu1'. injection Hu1' as <-.
  rewrite Heq2. cbn [fst snd users.id users.set_refreshTokens parse_refreshTokens
                       users.refreshTokens]. rewrite Ht2.
  set (s2 := update_refreshTokens s1 (users.id user)
               ((parse_refreshTokens user ++ [refreshToken]) ++ [refreshToken])) in *.
  assert (select_where_username s2 username =
            Some (users.set_refreshTokens
                    ((parse_refreshTokens user ++ [refreshToken]) ++ [refreshToken])
                    (users.set_refreshTokens (parse_refreshTokens user ++ [refreshToken]) user)))
    as Hu2.
  { unfold s2. rewrite select_where_username_update, Hu1. cbn. by rewrite decide_True. }
  rewrite <- Hd in Hu2.
  assert (statusCode (refresh SECRET amb3 s2 creq).2 = 200) as Hok3.
  { erewrite (refresh_accepts SECRET amb3 s2 creq); [done|done..|].
    cbn. rewrite !elem_of_app, list_elem_of_singleton. auto. }
  destruct (refresh_success_split SECRET amb3 s2 creq Hok3)
    as (presented & decoded' & user2 & l1 & l2 & Hc' & _ & Hv' & Hu2' & Hl & Hl1 & Heq3).
  rewrite Hc in Hc'. injection Hc' as <-.
  rewrite Hv3 in Hv'. injection Hv' as <-.
  rewrite Hu2 in Hu2'. injection Hu2' as <-.
  cbn [parse_refreshTokens users.set_refreshTokens users.refreshTokens] in Hl.
  pose proof (twice_behind_first _ _ _ _ Hl Hl1) as Hl2.
  assert (stored_tokens (refresh SECRET amb3 s2 creq).1 (payload.username decoded) =
            l1 ++ l2 ++ [generateRefreshToken SECRET (clock amb3) (payload.username decoded)])
    as Hs3.
  { rewrite Heq3. cbn [fst]. apply (stored_tokens_update _ _ _ _ Hu2). }
  assert (refreshToken ∈ stored_tokens (refresh SECRET amb3 s2 creq).1
                           (payload.username decoded)) as Hin3.
  { rewrite Hs3, !elem_of_app. auto. }
  assert (∃ user3, select_where_username (refresh SECRET amb3 s2 creq).1
                     (payload.username decoded) = Some user3 ∧
                   refreshToken ∈ parse_refreshTokens user3) as (user3 & Hu3 & Hin3').
  { unfold stored_tokens in Hin3.
    destruct (select_where_username (refresh SECRET amb3 s2 creq).1
                (payload.username decoded)) as [user3|];
      [eauto|by apply elem_of_nil in Hin3]. }
  rewrite (refresh_accepts SECRET amb4 _ creq _ _ _ Hc Hlog Hv4 Hu3 Hin3').
  rewrite Hok3, <- Hd. by split_and!.
Qed.
End rotation_invariant.

Lemma refresh_replay_accepted_witness :
  statusCode <$> fixture.responses [fixture.alice_signed_up]
      [(fixture.at_ 1000, Login (fixture.with_body "alice" "pw1"));
       (fixture.at_ 1400, Login (fixture.with_body "alice" "pw1"));
       (fixture.at_ 5000, Refresh (fixture.with_cookie "k.604801..alice"));
       (fixture.at_ 6000, Refresh (fixture.with_cookie "k.604801..alice"))]
    = [200; 200; 200; 200] ∧
  "k.604801..alice" ∈
    stored_tokens
      (fixture.run [fixture.alice_signed_up]
         [(fixture.at_ 1000, Login (fixture.with_body "alice" "pw1"));
          (fixture.at_ 1400, Login (fixture.with_body "alice" "pw1"));
          (fixture.at_ 5000, Refresh (fixture.with_cookie "k.604801..alice"))]) "alice" ∧
  sets_cookie
    (fixture.refresh (fixture.at_ 6000)
       (fixture.run [fixture.alice_signed_up]
          [(fixture.at_ 1000, Login (fixture.with_body "alice" "pw1"));
           (fixture.at_ 1400, Login (fixture.with_body "alice" "pw1"));
           (fixture.at_ 5000, Refresh (fixture.with_cookie "k.604801..alice"))])
       (fixture.with_cookie "k.604801..alice")).2 = true.
Proof.
  apply (@refresh_replay_accepted fixture.jwt fixture.bcrypt fixture.SECRET
           (fixture.at_ 1000) (fixture.at_ 1400) (fixture.at_ 5000) (fixture.at_ 6000)
           [fixture.alice_signed_up] (fixture.with_body "alice" "pw1")
           (fixture.with_cookie "k.604801..alice") "alice" "k.604801..alice"
           (payload.mk "alice" None)); reflexivity.
Defined.

(** Two logins of one user within a second are handed the same refresh
    token, which then sits on the list twice. *)
Example same_second_logins :
  fixture.run [fixture.alice_signed_up]
    [(fixture.at_ 1000, Login (fixture.with_body "alice" "pw1"));
     (fixture.at_ 1400, Login (fixture.with_body "alice" "pw1"))]
  = [fixture.alice_two_logins].
Proof. reflexivity. Qed.

(** A refresh within the second of the login signs the very token it
    rotates away. *)
Example same_second_refresh :
  fixture.run [fixture.alice_signed_up]
    [(fixture.at_ 1000, Login (fixture.with_body "alice" "pw1"));
     (fixture.at_ 1400, Refresh (fixture.with_cookie "k.604801..alice"))]
  = [fixture.alice].
Proof. reflexivity. Qed.

(** ** Requests in flight *)

Section in_flight.
Context `{!JsonWebToken, !Bcrypt} (SECRET : string).

(** A request whose promise settles before anything else is served is
    served as [step] serves it. *)
Lemma serve_settles_at_once σ amb x :
  match serve SECRET σ (amb, Arrives x) with
  | (σ', Some res) =>
      σ' = mkServer (step SECRET (table σ) (amb, x)).1 (in_flight σ) ∧
      res = (step SECRET (table σ) (amb, x)).2
  | (σ', None) =>
      serve SECRET σ' (amb, Settles (length (in_flight σ))) =
        (mkServer (step SECRET (table σ) (amb, x)).1 (in_flight σ),
         Some (step SECRET (table σ) (amb, x)).2)
  end.
Proof.
  destruct σ as [s fl]. destruct x as [req|req|req|req|]; unfold serve, step; cbn; try done.
  - unfold signup. destruct (signup_begin s req) as [res|k]; cbn; [done|].
    rewrite lookup_app_r, Nat.sub_diag by done. cbn.
    by rewrite delete_middle, app_nil_r.
  - unfold login. destruct (login_begin s req) as [res|k]; cbn; [done|].
    rewrite lookup_app_r, Nat.sub_diag by done. cbn.
    by rewrite delete_middle, app_nil_r.
Qed.

(** Served one by one, the requests leave the table [run] computes, no
    handler is left suspended, and the responses are those of [step]. *)
Lemma serve_one_by_one s xs :
  serve_all SECRET (mkServer s []) (one_by_one xs) = mkServer (run SECRET s xs) [] ∧
  sent SECRET (mkServer s []) (one_by_one xs) = responses SECRET s xs.
Proof.
  revert s. induction xs as [|[amb x] xs IH]; intros s; [done|].
  cbn [one_by_one serve_all sent foldl run responses fst snd].
  pose proof (serve_settles_at_once (mkServer s []) amb x) as Hx.
  destruct (serve SECRET (mkServer s []) (amb, Arrives x)) as [σ' [res|]]; cbn [fst snd] in *.
  - destruct Hx as [-> ->]. cbn [table in_flight]. unfold serve at 1 3. cbn.
    destruct (IH (step SECRET s (amb, x)).1) as [IH1 IH2]. split; [done|].
    by rewrite IH2.
  - cbn [length in_flight table] in Hx. rewrite Hx. cbn [fst snd].
    destruct (IH (step SECRET s (amb, x)).1) as [IH1 IH2]. split; [done|].
    by rewrite IH2.
Qed.

(** A token on a user's list after a request was there before it, or the
    response hands it out. *)
Lemma step_provenance s x name t :
  primary_key s →
  t ∈ stored_tokens (step SECRET s x).1 name →
  t ∈ stored_tokens s name ∨ hands (step SECRET s x).2 t.
Proof.
  intros Hpk Hin.
  destruct (decide (t ∈ stored_tokens s name)) as [|Hout]; [by left|].
  destruct (hands_dec (step SECRET s x).2 t) as [|Hno]; [by right|].
  by destruct (step_keeps_out SECRET s x name t Hpk Hno Hout).
Qed.

Lemma awaits_ok_mono Q s s' a :
  (∀ i, i ∈ identity <$> s → i ∈ identity <$> s') →
  awaits_ok Q s a → awaits_ok Q s' a.
Proof. destruct a as [k|k]; [done|]. intros Hsub (? & ? & ?). split_and!; auto. Qed.

(** With a primary key, a row of the table is known by its id. *)
Lemma identity_row_of s u u' :
  primary_key s → u ∈ s → identity u' ∈ identity <$> s → users.id u = users.id u' →
  users.username u = users.username u'.
Proof.
  intros Hpk Hu (u0 & Hid & Hu0)%list_elem_of_fmap Heq.
  assert (u = u0) as ->.
  { apply (primary_key_same_row s u u0 Hpk Hu Hu0).
    rewrite Heq. unfold identity in Hid. congruence. }
  unfold identity in Hid. congruence.
Qed.

(** One event keeps a server state within [Q], provided the token the
    response hands out is in [Q]. *)
Lemma serve_ok (Q : string → string → Prop) σ e :
  server_ok Q σ →
  (∀ res t o name, (serve SECRET σ e).2 = Some res →
                   SetCookie "refresh_token" t o ∈ cookies res → Q name t) →
  server_ok Q (serve SECRET σ e).1.
Proof.
  destruct σ as [s fl]. intros Hsame Hsent.
  pose proof Hsame as (Hpk & Htok & Hfl). cbn in Hpk, Htok, Hfl.
  assert (∀ x, (∀ t o name, SetCookie "refresh_token" t o ∈ cookies (step SECRET s x).2 →
                            Q name t) →
               server_ok Q (mkServer (step SECRET s x).1 fl)) as Hstep.
  { intros x Hr. split_and!; cbn.
    - by apply step_primary_key.
    - intros name t [Hin|[o Ho]]%step_provenance; [by apply Htok| |done].
      by apply (Hr t o name).
    - eapply Forall_impl; [apply Hfl|]. intros a. apply awaits_ok_mono.
      intros i Hi. destruct (step_identity SECRET s x) as [l ->].
      rewrite elem_of_app. by left. }
  destruct e as [amb [[req|req|req|req|]|i]]; unfold serve in *;
    cbn [fst snd table in_flight] in *.
  - destruct (signup_begin s req) as [res|k]; [done|].
    split_and!; cbn; [done..|]. apply Forall_app. split; [done|]. by constructor.
  - destruct (login_begin_cases s req)
      as [[-> _]|[(? & _ & _ & _ & ->)|(username & user & _ & _ & Hu & ->)]];
      [done..|].
    split_and!; cbn; [done..|]. apply Forall_app. split; [done|].
    constructor; [|done]. cbn.
    destruct (select_where_username_Some _ _ _ Hu) as (j & Hj & Hname & _).
    split_and!; [done| |].
    + apply list_elem_of_fmap_2. by eapply list_elem_of_lookup_2.
    + intros t Ht. apply Htok. unfold stored_tokens. by rewrite Hu.
  - apply (Hstep (amb, Refresh req)). intros t o name. by apply Hsent.
  - apply (Hstep (amb, Logout req)). intros t o name. by apply Hsent.
  - apply (Hstep (amb, CheckUsers)). intros t o name. by apply Hsent.
  - destruct (fl !! i) as [[k|k]|] eqn:Hi; [| |done]; cbn [fst snd] in *.
    + destruct (signup_resume_cases amb s k) as [[-> _]|(password & _ & Hid & Hname & Heq)].
      { split_and!; cbn; [done..|]. by apply Forall_delete. }
      rewrite Heq. split_and!; cbn.
      * unfold primary_key. rewrite fmap_app. apply NoDup_app.
        split_and!; [done| |apply NoDup_singleton].
        intros j Hj. cbn. rewrite list_elem_of_singleton. by intros ->.
      * intros name t.
        match goal with
        | |- _ ∈ stored_tokens (_ ++ [?u]) _ → _ =>
            destruct (stored_tokens_snoc s u name) as [->| ->]
        end; [apply Htok|by intros ?%elem_of_nil].
      * apply Forall_delete. eapply Forall_impl; [apply Hfl|]. intros a.
        apply awaits_ok_mono. intros j Hj. rewrite fmap_app, elem_of_app. by left.
    + pose proof (Forall_lookup_1 _ _ _ _ Hfl Hi) as (Hname & Hrow & Hheld).
      cbn in Hname, Hrow, Hheld.
      destruct (login_resume_cases SECRET amb s k)
        as [[_ Heq]|[(? & _ & _ & Heq)|(password & _ & _ & Heq)]]; rewrite Heq in Hsent |- *;
        [split_and!; cbn; [done..|by apply Forall_delete]..|].
      cbn [fst snd] in *. split_and!; cbn.
      * unfold primary_key. by rewrite update_refreshTokens_id.
      * intros name t. unfold stored_tokens. rewrite select_where_username_update.
        destruct (select_where_username s name) as [u|] eqn:Hu; cbn;
          [|by intros ?%elem_of_nil].
        case_decide as Hid; cbn.
        -- destruct (select_where_username_Some _ _ _ Hu) as (j & Hj & <- & _).
           rewrite (identity_row_of s u (login_user k) Hpk
                      (list_elem_of_lookup_2 _ _ _ Hj) Hrow Hid), Hname.
           rewrite elem_of_app, list_elem_of_singleton. intros [Ht| ->]; [by apply Hheld|].
           eapply (Hsent _ _ _ _ eq_refl). cbn. rewrite !elem_of_cons. right. by left.
        -- intros Ht. apply Htok. unfold stored_tokens. by rewrite Hu.
      * apply Forall_delete. eapply Forall_impl; [apply Hfl|]. intros a.
        apply awaits_ok_mono. intros j Hj. by rewrite update_refreshTokens_identity.
Qed.

Lemma serve_all_ok (Q : string → string → Prop) σ es :
  server_ok Q σ →
  (∀ res t o name, res ∈ sent SECRET σ es →
                   SetCookie "refresh_token" t o ∈ cookies res → Q name t) →
  server_ok Q (serve_all SECRET σ es).
Proof.
  revert σ. induction es as [|e es IH]; intros σ Hok Hsent; [done|].
  cbn. apply IH.
  - apply serve_ok; [done|]. intros res t o name Hres. apply Hsent.
    cbn. rewrite Hres. apply list_elem_of_here.
  - intros res t o name Hres. apply Hsent. cbn.
    destruct (serve SECRET σ e).2; [by apply list_elem_of_further|done].
Qed.
End in_flight.

(** A login overtaken by a refresh.  Alice logs in; while [bcrypt.compare]
    runs, a refresh presenting her stored token is served and rotates it;
    then the login resumes and writes the list it read before.  The token
    the refresh handed out is rejected from then on, and the token it
    rotated away is accepted again. *)
Example login_overtaken_by_refresh :
  statusCode <$> fixture.sent (mkServer [fixture.alice] [])
      [(fixture.at_ 4000, Arrives (Login (fixture.with_body "alice" "pw1")));
       (fixture.at_ 5000, Arrives (Refresh (fixture.with_cookie "k.604801..alice")));
       (fixture.at_ 6000, Settles 0%nat);
       (fixture.at_ 7000, Arrives (Refresh (fixture.with_cookie "k.604805..alice")));
       (fixture.at_ 8000, Arrives (Refresh (fixture.with_cookie "k.604801..alice")))]
    = [200; 200; 401; 200] ∧
  table (fixture.serve_all (mkServer [fixture.alice] [])
      [(fixture.at_ 4000, Arrives (Login (fixture.with_body "alice" "pw1")));
       (fixture.at_ 5000, Arrives (Refresh (fixture.with_cookie "k.604801..alice")));
       (fixture.at_ 6000, Settles 0%nat)])
    = [users.mk "u1" "alice" "s1$pw1" "admin"
         (Some ["k.604801..alice"; "k.604806..alice"]) None].
Proof. split; reflexivity. Qed.

(** Two signups of one name in flight together: both pass the check of the
    username, the first to resume is stored, the insert of the second fails
    on the unique username and its [catch] answers 500. *)
Example signups_of_one_name :
  statusCode <$> fixture.sent (mkServer [fixture.alice] [])
      [(fixture.at_ 1000, Arrives (Signup (fixture.with_body "bob" "pw2")));
       (fixture.at_ 1100, Arrives (Signup (fixture.with_body "bob" "pw2")));
       (mkAmbient 2000 "u9" "s9", Settles 0%nat);
       (mkAmbient 2100 "u10" "s10", Settles 0%nat)]
    = [201; 500].
Proof. reflexivity. Qed.

(** * Further properties of the session routes *)

Section sessions.
Context `{!JsonWebToken, !Bcrypt} (SECRET : string).
Implicit Types (s : db) (req : request) (amb : ambient).

(** The not-found branch of the refresh route. *)
Lemma refresh_not_recognized amb s req refreshToken decoded user :
  truthy (cookies_refresh_token req) = Some refreshToken →
  log_expiration refreshToken = Some tt →
  jwt_verify refreshToken (REFRESH_TOKEN_SECRET SECRET) (clock amb) = Verified decoded →
  select_where_username s (payload.username decoded) = Some user →
  refreshToken ∉ parse_refreshTokens user →
  refresh SECRET amb s req =
    (sweep s refreshToken,
     mkResponse 401
       [ClearCookie "access_token" clear_httpOnly; ClearCookie "refresh_token" clear_httpOnly]
       (Some (message "Refresh token not found"))).
Proof.
  intros Hc Hlog Hv Hu Habsent. unfold refresh. rewrite Hc, Hlog. cbn.
  rewrite Hv, Hu. apply indexOf_absent in Habsent. by rewrite decide_True.
Qed.

(** The sweep writes nothing when no row holds the token. *)
Lemma sweep_absent s refreshToken :
  token_absent refreshToken s → sweep s refreshToken = s.
Proof.
  unfold sweep, select_all. generalize s at 1 3 as cur.
  induction 1 as [|u l Hu _ IH]; [done|]. cbn [foldl].
  unfold parse_refreshTokens in Hu.
  destruct (users.refreshTokens u) as [tokens|]; [|done].
  by rewrite (filter_out_id _ _ Hu), decide_False by (intros []; done).
Qed.

(** X1 — For string cookies and a store that does not fail, the refresh
    route answers 500 exactly when a cookie is presented whose unverified
    [exp] is truthy and, times 1000, names no valid [Date]: a number beyond
    plus or minus 8.64e15 ms, or a value that converts to no finite number.
    The table is then unchanged. *)
Theorem refresh_internal_error_iff amb s req :
  (statusCode (refresh SECRET amb s req).2 = 500 ↔
   ∃ refreshToken exp,
     truthy (cookies_refresh_token req) = Some refreshToken ∧
     jwt_decode refreshToken = Some exp ∧
     exp_truthy exp = true ∧
     invalid_time (times (exp_number exp) 1000)) ∧
  (statusCode (refresh SECRET amb s req).2 = 500 → (refresh SECRET amb s req).1 = s).
Proof.
  unfold refresh.
  destruct (truthy (cookies_refresh_token req)) as [refreshToken|]; cbn;
    [|split; [split; [done|by intros (? & ? & ? & _)]|done]].
  destruct (log_expiration refreshToken) as [[]|] eqn:Hlog; cbn.
  - assert (¬ ∃ refreshToken0 exp, Some refreshToken = Some refreshToken0 ∧
              jwt_decode refreshToken0 = Some exp ∧ exp_truthy exp = true ∧
              invalid_time (times (exp_number exp) 1000))
      as Hno.
    { intros (? & exp & [= <-] & Hd & Ht & Hr).
      assert (log_expiration refreshToken = None) as Hn
        by (apply log_expiration_throws; eauto).
      congruence. }
    repeat case_match; cbn; split; try done; split; try done; intros; by destruct Hno.
  - split; [|done]. split; [intros _|done].
    apply log_expiration_throws in Hlog as (exp & ? & ? & ?). eauto 6.
Qed.

(** A refresh presenting a token that is on no row, once the expiry has been
    logged: the table stays as it is and the answer is a 401 that at most
    clears cookies. *)
Lemma refresh_absent_token amb s req refreshToken :
  truthy (cookies_refresh_token req) = Some refreshToken →
  token_absent refreshToken s →
  log_expiration refreshToken = Some tt →
  ∃ cleared reason,
    refresh SECRET amb s req = (s, mkResponse 401 cleared (Some (message reason))) ∧
    existsb is_SetCookie cleared = false.
Proof.
  intros Hc Habs Hlog.
  destruct (jwt_verify refreshToken (REFRESH_TOKEN_SECRET SECRET) (clock amb))
    as [decoded|name] eqn:Hv.
  - destruct (select_where_username s (payload.username decoded)) as [user|] eqn:Hu.
    + assert (refreshToken ∉ parse_refreshTokens user) as Hout.
      { unfold token_absent in Habs. rewrite Forall_forall in Habs.
        apply Habs. by eapply select_where_username_elem. }
      rewrite (refresh_not_recognized amb s req _ _ _ Hc Hlog Hv Hu Hout).
      rewrite (sweep_absent s refreshToken Habs). by eexists _, _.
    + unfold refresh. rewrite Hc, Hlog. cbn. rewrite Hv, Hu. by eexists _, _.
  - rewrite (refresh_verify_failure SECRET amb s req _ _ Hc Hlog Hv).
    case_decide; by eexists _, _.
Qed.

(** X2 — A refresh presenting a token that is on no user's list never
    succeeds: it leaves the table as it is, sets no cookie, and answers 401
    (or 500 when the expiry log line throws). *)
Theorem refresh_token_on_no_list amb s req refreshToken :
  truthy (cookies_refresh_token req) = Some refreshToken →
  token_absent refreshToken s →
  (refresh SECRET amb s req).1 = s ∧
  sets_cookie (refresh SECRET amb s req).2 = false ∧
  (statusCode (refresh SECRET amb s req).2 = 401 ∨
   statusCode (refresh SECRET amb s req).2 = 500) ∧
  (log_expiration refreshToken = Some tt → statusCode (refresh SECRET amb s req).2 = 401).
Proof.
  intros Hc Habs.
  destruct (log_expiration refreshToken) as [[]|] eqn:Hlog.
  - destruct (refresh_absent_token amb s req refreshToken Hc Habs Hlog)
      as (cleared & reason & -> & Hcleared).
    cbn. split_and!; auto.
  - rewrite (refresh_log_throws SECRET amb s req refreshToken Hc Hlog).
    cbn. split_and!; auto. done.
Qed.

(** A refresh presenting a token that is on the list of no user a name
    resolves to is not answered 200 and sets no cookie. *)
Lemma refresh_unlisted amb s req refreshToken :
  truthy (cookies_refresh_token req) = Some refreshToken →
  (∀ name, refreshToken ∉ stored_tokens s name) →
  statusCode (refresh SECRET amb s req).2 ≠ 200 ∧
  sets_cookie (refresh SECRET amb s req).2 = false.
Proof.
  intros Hc Hout.
  assert (statusCode (refresh SECRET amb s req).2 ≠ 200) as Hno.
  { intros Hok.
    destruct (refresh_success_inv SECRET amb s req Hok)
      as (presented & decoded & user & Hc' & _ & _ & Hu & Hi & _).
    rewrite Hc in Hc'. injection Hc' as <-.
    apply (Hout (payload.username decoded)). unfold stored_tokens. rewrite Hu.
    destruct (decide (refreshToken ∈ parse_refreshTokens user)) as [|Hn]; [done|].
    by apply indexOf_absent in Hn. }
  split; [done|]. revert Hno. unfold refresh. rewrite Hc. cbn.
  destruct (log_expiration _); [|done]. cbn. by repeat case_match.
Qed.

(** X3 — Logout revokes: with [id] a primary key and the presented token on
    one row at most, a logout answers 200 and leaves the token on no row;
    a refresh presenting that token that is served next changes nothing,
    sets no cookie and is answered 401, or 500 when the expiry log line
    throws on that token.  And if no handler was suspended when the logout
    was served, then in whatever order later requests arrive and settle, as
    long as no response hands that token out again, a refresh presenting it
    is not answered 200 and sets no cookie. *)
Theorem logout_revokes amb amb' s req refreshToken :
  primary_key s →
  truthy (cookies_refresh_token req) = Some refreshToken →
  (∀ j k u u', s !! j = Some u → s !! k = Some u' →
       refreshToken ∈ parse_refreshTokens u → refreshToken ∈ parse_refreshTokens u' → j = k) →
  statusCode (logout amb s req).2 = 200 ∧
  token_absent refreshToken (logout amb s req).1 ∧
  (refresh SECRET amb' (logout amb s req).1 req).1 = (logout amb s req).1 ∧
  sets_cookie (refresh SECRET amb' (logout amb s req).1 req).2 = false ∧
  (statusCode (refresh SECRET amb' (logout amb s req).1 req).2 = 401 ∨
   statusCode (refresh SECRET amb' (logout amb s req).1 req).2 = 500) ∧
  (log_expiration refreshToken = Some tt →
   statusCode (refresh SECRET amb' (logout amb s req).1 req).2 = 401) ∧
  (log_expiration refreshToken = None →
   statusCode (refresh SECRET amb' (logout amb s req).1 req).2 = 500) ∧
  (∀ es,
     (∀ res, res ∈ sent SECRET (mkServer (logout amb s req).1 []) es →
             ¬ hands res refreshToken) →
     statusCode
       (refresh SECRET amb'
          (table (serve_all SECRET (mkServer (logout amb s req).1 []) es)) req).2 ≠ 200 ∧
     sets_cookie
       (refresh SECRET amb'
          (table (serve_all SECRET (mkServer (logout amb s req).1 []) es)) req).2 = false).
Proof.
  intros Hpk Hc Hsole.
  pose proof (logout_removes_sole_holder amb s req refreshToken Hpk Hc Hsole) as Habs.
  pose proof (step_primary_key SECRET s (amb, Logout req) Hpk) as Hpk1.
  unfold step in Hpk1. cbn [fst snd] in Hpk1.
  split; [unfold logout; by rewrite Hc|]. split; [done|].
  generalize dependent (logout amb s req).1. intros s1 Habs Hpk1.
  assert (∀ es,
     (∀ res, res ∈ sent SECRET (mkServer s1 []) es → ¬ hands res refreshToken) →
     statusCode (refresh SECRET amb' (table (serve_all SECRET (mkServer s1 []) es)) req).2
       ≠ 200 ∧
     sets_cookie (refresh SECRET amb' (table (serve_all SECRET (mkServer s1 []) es)) req).2
       = false) as Hlater.
  { intros es Hes. apply (refresh_unlisted amb' _ req refreshToken Hc). intros name Hin.
    destruct (serve_all_ok SECRET (λ _ t, t ≠ refreshToken) (mkServer s1 []) es)
      as (_ & Htok & _).
    - split_and!; cbn; [done| |constructor].
      intros name' t Ht ->. unfold stored_tokens in Ht.
      destruct (select_where_username s1 name') as [u|] eqn:Hu;
        [|by apply elem_of_nil in Ht].
      unfold token_absent in Habs. rewrite Forall_forall in Habs.
      by apply (Habs u (select_where_username_elem _ _ _ Hu)).
    - intros res t o _ Hres Hset ->. apply (Hes res Hres). by exists o.
    - by apply (Htok name refreshToken Hin). }
  destruct (log_expiration refreshToken) as [[]|] eqn:Hlog.
  - destruct (refresh_absent_token amb' s1 req refreshToken Hc Habs Hlog)
      as (cleared & reason & -> & Hcleared).
    cbn. split_and!; auto. done.
  - rewrite (refresh_log_throws SECRET amb' s1 req refreshToken Hc Hlog).
    cbn. split_and!; auto. done.
Qed.

(** X4 — Login then refresh: the refresh_token cookie a successful login
    sets carries a token that the refresh route accepts, with status 200,
    whenever that token still verifies for the user who logged in. *)
Theorem login_then_refresh amb amb' s req req' username decoded :
  truthy (body_username req) = Some username →
  statusCode (login SECRET amb s req).2 = 200 →
  truthy (cookies_refresh_token req') = Some (generateRefreshToken SECRET (clock amb) username) →
  log_expiration (generateRefreshToken SECRET (clock amb) username) = Some tt →
  jwt_verify (generateRefreshToken SECRET (clock amb) username)
    (REFRESH_TOKEN_SECRET SECRET) (clock amb') = Verified decoded →
  payload.username decoded = username →
  SetCookie "refresh_token" (generateRefreshToken SECRET (clock amb) username)
      (session_cookie 604800000) ∈ cookies (login SECRET amb s req).2 ∧
  statusCode (refresh SECRET amb' (login SECRET amb s req).1 req').2 = 200.
Proof.
  intros Hn Hok Hc Hlog Hv Hd.
  destruct (login_success_inv SECRET amb s req Hok)
    as (username' & password & user & Hn' & _ & Hu & _ & ->).
  rewrite Hn in Hn'. injection Hn' as <-. cbn [fst snd cookies]. split.
  { rewrite !elem_of_cons. auto. }
  erewrite (refresh_accepts SECRET amb' _ req'); [done|done..| |].
  - rewrite Hd, select_where_username_update, Hu. cbn. by rewrite decide_True.
  - cbn. rewrite elem_of_app, list_elem_of_singleton. by right.
Qed.



(** X6 — A registered username stays taken: once a name resolves to a row,
    a signup with that name is answered 409 and changes nothing, after any
    sequence of requests. *)
Theorem signup_username_taken amb s xs req username :
  is_Some (select_where_username s username) →
  truthy (body_username req) = Some username →
  is_truthy (body_password req) = true →
  signup amb (run SECRET s xs) req =
    (run SECRET s xs, mkResponse 409 [] (Some (message "Username already exists"))).
Proof.
  intros Hs Hn Hp.
  destruct (select_where_username_persists SECRET s xs username Hs) as [u Hu].
  unfold signup, signup_begin. by rewrite Hn, Hp, Hu.
Qed.

Lemma identity_username s s' :
  identity <$> s = identity <$> s' → users.username <$> s = users.username <$> s'.
Proof.
  intros Heq.
  assert (∀ l : db, users.username <$> l = (λ i, i.1.1.1.2) <$> (identity <$> l)) as Hname.
  { intros l. rewrite <- list_fmap_compose. by apply list_fmap_ext. }
  by rewrite !Hname, Heq.
Qed.

Lemma step_unique_username s x :
  unique_username s → unique_username (step SECRET s x).1.
Proof.
  intros Huq. destruct x as [amb [req|req|req|req|]]; unfold step; cbn [fst snd].
  - destruct (signup_cases amb s req) as [[-> _]|(?&?&_&_&Hfree&_&->)]; [done|].
    unfold unique_username. cbn [fst]. rewrite fmap_app. apply NoDup_app.
    split_and!; [done| |apply NoDup_singleton].
    intros i Hi. cbn. rewrite list_elem_of_singleton. intros ->.
    by apply select_where_username_None in Hfree.
  - destruct (login_cases SECRET amb s req) as [->|(?&?&->)]; [done|].
    unfold unique_username. by rewrite update_refreshTokens_username.
  - destruct (refresh_cases SECRET amb s req) as [->|[(?&->)|(?&?&->)]]; [done|..];
      unfold unique_username.
    + by rewrite (identity_username _ s (sweep_identity _ _)).
    + by rewrite update_refreshTokens_username.
  - unfold logout. destruct (truthy _); cbn; [|done]. unfold unique_username.
    by rewrite (identity_username _ s (logout_scan_identity _ _ _)).
  - done.
Qed.

(** X7 — The handlers keep the table's keys: if ids and usernames are
    unique, they are unique after any sequence of requests. *)
Theorem run_keeps_keys s xs :
  primary_key s → unique_username s →
  primary_key (run SECRET s xs) ∧ unique_username (run SECRET s xs).
Proof.
  revert s. induction xs as [|x xs IH]; intros s Hpk Huq; [done|].
  cbn. apply IH; [by apply step_primary_key|by apply step_unique_username].
Qed.

(** X8 — For string usernames and a store that fails on its key
    constraints only, the signup route answers 500 never before its [await]
    and, once [bcrypt.hash] has settled, exactly when the password is not a
    string (the promise rejects), or the drawn id is taken, or the username
    is: it was free when the handler checked it, so it has been taken while
    the handler waited.  The table is then unchanged; otherwise the answer
    is 201. *)
Theorem signup_internal_error_iff amb s s' req :
  (∀ res, signup_begin s req = inl res → statusCode res = 400 ∨ statusCode res = 409) ∧
  (∀ k, signup_begin s req = inr k →
     truthy (body_username req) = Some (signup_username k) ∧
     signup_password k = body_password req ∧
     (signup_username k ∉ users.username <$> s) ∧
     (statusCode (signup_resume amb s' k).2 = 500 ↔
        (∀ password, signup_password k ≠ Text password) ∨
        uuid amb ∈ users.id <$> s' ∨
        signup_username k ∈ users.username <$> s') ∧
     (statusCode (signup_resume amb s' k).2 = 500 → (signup_resume amb s' k).1 = s') ∧
     (statusCode (signup_resume amb s' k).2 = 500 ∨
      statusCode (signup_resume amb s' k).2 = 201)).
Proof.
  split.
  - intros res Hb.
    destruct (signup_begin_cases s req) as [(res' & Hb' & Hres)|(? & _ & _ & _ & Hb')];
      rewrite Hb' in Hb; [by injection Hb as <-|done].
  - intros k Hb.
    destruct (signup_begin_cases s req)
      as [(res' & Hb' & _)|(username & Hn & _ & Hu & Hb')];
      rewrite Hb' in Hb; [done|]. injection Hb as <-. cbn.
    apply select_where_username_None in Hu. split_and!; [done..| | |].
    + destruct (signup_resume_cases amb s' (mkSignupPending username (body_password req)))
        as [[-> Hwhy]|(password & Hpw & Hid & Hname & ->)]; cbn in *.
      * done.
      * split; [done|]. intros [Hno|[?|?]]; [|done..]. by destruct (Hno password).
    + destruct (signup_resume_cases amb s' (mkSignupPending username (body_password req)))
        as [[-> _]|(? & _ & _ & _ & ->)]; [done|]. by cbn.
    + destruct (signup_resume_cases amb s' (mkSignupPending username (body_password req)))
        as [[-> _]|(? & _ & _ & _ & ->)]; cbn; auto.
Qed.


(** X10 — Token provenance: with [id] a primary key, in whatever order
    requests arrive and the promises that signups and logins wait for
    settle, every token on a user's list afterwards was on that user's list
    at the start, or is the value of the refresh_token cookie that one of
    the responses sent sets. *)
Theorem token_provenance s es name t :
  primary_key s →
  t ∈ stored_tokens (table (serve_all SECRET (mkServer s []) es)) name →
  t ∈ stored_tokens s name ∨
  ∃ res o, res ∈ sent SECRET (mkServer s []) es ∧
           SetCookie "refresh_token" t o ∈ cookies res.
Proof.
  intros Hpk Hin.
  destruct (serve_all_ok SECRET
              (λ name t, t ∈ stored_tokens s name ∨
                         ∃ res o, res ∈ sent SECRET (mkServer s []) es ∧
                                  SetCookie "refresh_token" t o ∈ cookies res)
              (mkServer s []) es) as (_ & Htok & _).
  - split_and!; cbn; [done|by left|constructor].
  - intros res t' o name' Hres Hset. right. eauto.
  - by apply Htok.
Qed.

(** X11 — Cookies are set on success only: a login or a refresh sets a
    cookie exactly when it answers 200; signup and logout never set one. *)
Theorem cookies_only_on_success amb s req :
  (sets_cookie (login SECRET amb s req).2 = true ↔
   statusCode (login SECRET amb s req).2 = 200) ∧
  (sets_cookie (refresh SECRET amb s req).2 = true ↔
   statusCode (refresh SECRET amb s req).2 = 200) ∧
  sets_cookie (signup amb s req).2 = false ∧
  sets_cookie (logout amb s req).2 = false.
Proof.
  split_and!.
  - unfold login.
    destruct (login_begin_cases s req)
      as [[-> _]|[(? & _ & _ & _ & ->)|(username & user & _ & _ & _ & ->)]]; [done..|].
    by destruct (login_resume_cases SECRET amb s
                   (mkLoginPending username (body_password req) user))
      as [[_ ->]|[(? & _ & _ & ->)|(? & _ & _ & ->)]].
  - unfold refresh. destruct (truthy _); [|done].
    destruct (log_expiration _); [|done]. cbn. by repeat case_match.
  - unfold signup, signup_begin.
    destruct (truthy (body_username req)) as [username|]; [|done].
    destruct (is_truthy (body_password req)); [|done].
    destruct (select_where_username s username); [done|].
    by destruct (signup_resume_cases amb s (mkSignupPending username (body_password req)))
      as [[-> _]|(? & _ & _ & _ & ->)].
  - unfold logout. by repeat case_match.
Qed.

(** The sweep loop takes the token out of every row it has passed and of
    every row it has written, whatever the ids are. *)
Lemma sweep_rounds_absent refreshToken cd ct todo :
  token_absent refreshToken cd →
  Forall2 (λ c o, users.id c = users.id o ∧
                  (refreshToken ∉ parse_refreshTokens c ∨ c = o)) ct todo →
  token_absent refreshToken
    (foldl (λ cur u,
              match users.refreshTokens u with
              | Some tokens =>
                  let filtered := filter_out refreshToken tokens in
                  if decide (length filtered ≠ length tokens)
                  then update_refreshTokens cur (users.id u) filtered
                  else cur
              | None => cur
              end)
           (cd ++ ct) todo).
Proof.
  revert cd ct. induction todo as [|u todo IH]; intros cd ct Hcd Hct.
  { apply Forall2_nil_inv_r in Hct as ->. by rewrite app_nil_r. }
  apply Forall2_cons_inv_r in Hct as (c & ct' & [Hid Hc] & Hct & ->).
  cbn [foldl]. cbv zeta.
  assert (∀ cd', token_absent refreshToken cd' → refreshToken ∉ parse_refreshTokens c →
            token_absent refreshToken (cd' ++ [c])) as Hsnoc.
  { intros cd' Hcd' Hc'. apply Forall_app. split; [done|]. by constructor. }
  assert (cd ++ (c :: ct') = (cd ++ [c]) ++ ct') as Hmid
    by (by rewrite <- (assoc_L (++))).
  destruct (users.refreshTokens u) as [tokens|] eqn:Hu.
  - case_decide as Hlen.
    + unfold update_refreshTokens. rewrite Hmid, fmap_app.
      set (upd := λ u0 : users.row,
             if decide (users.id u0 = users.id u)
             then users.set_refreshTokens (filter_out refreshToken tokens) u0 else u0).
      assert (∀ x, refreshToken ∉ parse_refreshTokens x →
                   refreshToken ∉ parse_refreshTokens (upd x)) as Hupd.
      { intros x Hx. unfold upd. case_decide; [|done]. cbn. apply filter_out_absent. }
      apply IH.
      * rewrite fmap_app. apply Forall_app. split.
        -- apply Forall_fmap. eapply Forall_impl; [apply Hcd|]. intros x Hx. by apply Hupd.
        -- constructor; [|constructor]. unfold upd. rewrite decide_True by done.
           cbn. apply filter_out_absent.
      * apply Forall2_fmap_l. eapply Forall2_impl; [apply Hct|].
        intros x o [Hxo Hx]. cbn. unfold upd. case_decide.
        -- split; [done|]. left. cbn. apply filter_out_absent.
        -- done.
    + rewrite Hmid. apply IH; [|done]. apply Hsnoc; [done|].
      destruct Hc as [? | ->]; [done|]. unfold parse_refreshTokens. rewrite Hu.
      rewrite <- (filter_out_length tokens refreshToken Hlen). apply filter_out_absent.
  - rewrite Hmid. apply IH; [|done]. apply Hsnoc; [done|].
    destruct Hc as [? | ->]; [done|]. unfold parse_refreshTokens. rewrite Hu.
    apply not_elem_of_nil.
Qed.

Lemma sweep_token_absent s refreshToken : token_absent refreshToken (sweep s refreshToken).
Proof.
  unfold sweep, select_all. apply (sweep_rounds_absent refreshToken [] s s).
  - constructor.
  - apply Forall2_same_length_lookup_2; [done|]. intros i c o Hc Ho.
    rewrite Hc in Ho. injection Ho as <-. auto.
Qed.

(** X12 — The reuse sweep holds without any assumption on the ids: on the
    not-found path of a refresh the presented token is on no row afterwards,
    and no row is added, dropped or changed outside its token list. *)
Theorem refresh_not_found_removes_everywhere amb s req refreshToken decoded user :
  truthy (cookies_refresh_token req) = Some refreshToken →
  log_expiration refreshToken = Some tt →
  jwt_verify refreshToken (REFRESH_TOKEN_SECRET SECRET) (clock amb) = Verified decoded →
  select_where_username s (payload.username decoded) = Some user →
  refreshToken ∉ parse_refreshTokens user →
  token_absent refreshToken (refresh SECRET amb s req).1 ∧
  identity <$> (refresh SECRET amb s req).1 = identity <$> s.
Proof.
  intros Hc Hlog Hv Hu Hout.
  rewrite (refresh_not_recognized amb s req _ _ _ Hc Hlog Hv Hu Hout). cbn [fst].
  split; [apply sweep_token_absent|apply sweep_identity].
Qed.

(** X13 — Logout frame: with [id] a primary key, a logout presenting a token
    always answers 200 clearing both cookies in both variants, and either no
    row held the token and the table is unchanged, or exactly the first row
    that held it is rewritten, with every occurrence of the token taken out
    of its list. *)
Theorem logout_frame amb s req refreshToken :
  primary_key s →
  truthy (cookies_refresh_token req) = Some refreshToken →
  (logout amb s req).2 =
    mkResponse 200
      [ClearCookie "access_token" clear_httpOnly; ClearCookie "refresh_token" clear_httpOnly;
       ClearCookie "access_token" clear_plain; ClearCookie "refresh_token" clear_plain]
      (Some (message "Logged out successfully")) ∧
  (token_absent refreshToken s ∧ (logout amb s req).1 = s ∨
   ∃ k u, s !! k = Some u ∧ refreshToken ∈ parse_refreshTokens u ∧
          token_absent refreshToken (take k s) ∧
          (logout amb s req).1 = <[k := strip_token refreshToken u]> s).
Proof.
  intros Hpk Hc. unfold logout. rewrite Hc. cbn. split; [done|]. unfold select_all.
  destruct (logout_scan_cases s s refreshToken)
    as [[Habs ->]|(k & u & tokens & Hk & Hu & Hin & Hbefore & ->)]; [by left|].
  right. exists k, u. split_and!; try done.
  - unfold parse_refreshTokens. by rewrite Hu.
  - by rewrite (update_refreshTokens_insert s k u _ Hpk Hk), (strip_token_Some _ _ _ Hu).
Qed.
End sessions.

(** * Properties of the backup service *)

Section backup_service.
Import backup.
Implicit Types (e : env) (st : state) (m : BackupMetadata).

Lemma or_else_Some_0 n : or_else (Some n) 0 = n.
Proof. unfold or_else. by case_decide. Qed.

(** What was saved is what is loaded, up to the [|| backupIntervalMs] default. *)
Lemma loadBackupMetadata_save e e' m st :
  loadBackupMetadata e' (saveBackupMetadata e m st) =
    mkMetadata (lastBackupTime m) (nextBackupTime m)
      (if decide (backupIntervalMs m = 0) then week else backupIntervalMs m).
Proof.
  unfold loadBackupMetadata, saveBackupMetadata.
  destruct (metadata_table st) as [|r rows] eqn:Ht; cbn -[or_else].
  - by rewrite !or_else_Some_0.
  - rewrite decide_True by done. cbn -[or_else]. by rewrite !or_else_Some_0.
Qed.

(** X14 — Backup metadata round trip: loading after a save returns the
    saved times, and the saved interval unless that is 0, in which case the
    one-week default; the save keeps a non-empty table at its length, makes
    an empty one a single row, and leaves the configuration table alone. *)
Theorem backup_metadata_round_trip e e' m st :
  loadBackupMetadata e' (saveBackupMetadata e m st) =
    mkMetadata (lastBackupTime m) (nextBackupTime m)
      (if decide (backupIntervalMs m = 0) then week else backupIntervalMs m) ∧
  length (metadata_table (saveBackupMetadata e m st)) =
    Nat.max 1 (length (metadata_table st)) ∧
  config_table (saveBackupMetadata e m st) = config_table st.
Proof.
  split; [apply loadBackupMetadata_save|].
  unfold saveBackupMetadata. destruct (metadata_table st) as [|r rows]; cbn; [done|].
  by rewrite length_fmap.
Qed.

(** A resolved [performBackup] has read a configuration, written the backup
    row and saved the metadata of this run. *)
Lemma performBackup_resolved e st st' :
  performBackup e st = (st', Resolved) →
  ∃ configData rows,
    loadConfig e = Some configData ∧
    (match select_where_key (config_table st) "backup_weekly" with
     | Some _ =>
         Some (update_where_key (config_table st) "backup_weekly"
                 (<["_backupMetadata" := Stamp (now e)]> configData) (timestamp (now e)))
     | None =>
         insert_config (config_table st)
           (dashboardConfig.mk (config_uuid e) "backup_weekly"
              (<["_backupMetadata" := Stamp (now e)]> configData)
              (timestamp (now e)) (timestamp (now e)))
     end) = Some rows ∧
    st' = saveBackupMetadata e (mkMetadata (now e) (now e + week) week) (with_config rows st).
Proof.
  unfold performBackup. destruct (loadConfig e) as [configData|]; [|done].
  cbv zeta.
  destruct (match select_where_key _ _ with Some _ => _ | None => _ end) as [rows|] eqn:Hw;
    [|done].
  intros [= <-]. by exists configData, rows.
Qed.

(** X15 — After a backup, none is due for a week: following a resolved
    [performBackup] at a time other than 0, [shouldPerformBackup] answers
    true exactly from one week after that time on, and a scheduled check
    before then leaves the state as it is. *)
Theorem backup_then_not_due e e' st st' :
  performBackup e st = (st', Resolved) →
  now e ≠ 0 →
  shouldPerformBackup e' st' = bool_decide (now e + week ≤ now e') ∧
  (now e' < now e + week → scheduled_check e' st' = st').
Proof.
  intros (configData & rows & _ & _ & ->)%performBackup_resolved Hnow.
  assert (shouldPerformBackup e'
            (saveBackupMetadata e (mkMetadata (now e) (now e + week) week)
               (with_config rows st)) = bool_decide (now e + week ≤ now e')) as Hdue.
  { unfold shouldPerformBackup. rewrite loadBackupMetadata_save. cbn.
    by rewrite bool_decide_eq_false_2. }
  split; [done|]. intros Hearly. unfold scheduled_check. rewrite Hdue.
  by rewrite bool_decide_eq_false_2 by lia.
Qed.
Lemma select_where_key_update rows k v at_ k' :
  select_where_key (update_where_key rows k v at_) k' =
    (λ r, if decide (dashboardConfig.key r = k)
          then dashboardConfig.mk (dashboardConfig.id r) (dashboardConfig.key r) v
                 (dashboardConfig.createdAt r) at_
          else r) <$> select_where_key rows k'.
Proof.
  unfold select_where_key, update_where_key. rewrite list_find_fmap.
  erewrite (list_find_ext (_ ∘ _) (λ r, dashboardConfig.key r = k')).
  - by destruct (list_find _ rows) as [[??]|].
  - intros r. simpl. by case_decide.
Qed.

Lemma select_where_key_Some rows k r :
  select_where_key rows k = Some r → dashboardConfig.key r = k.
Proof.
  unfold select_where_key. intros ([i r']&Hf&?)%fmap_Some. simplify_eq/=.
  by apply list_find_Some in Hf as (_ & ? & _).
Qed.

Lemma select_where_key_snoc rows r k :
  select_where_key rows (dashboardConfig.key r) = None →
  select_where_key (rows ++ [r]) k =
    if decide (dashboardConfig.key r = k) then Some r else select_where_key rows k.
Proof.
  unfold select_where_key. intros Hn%fmap_None. case_decide as Hk.
  - subst k. rewrite (list_find_app_r _ _ _ Hn). cbn. by rewrite decide_True.
  - destruct (list_find (λ r0, dashboardConfig.key r0 = k) rows) as [[i r']|] eqn:Hf.
    + by rewrite (list_find_app_l _ _ _ _ _ Hf).
    + rewrite (list_find_app_r _ _ _ Hf). cbn. by rewrite decide_False.
Qed.

Lemma insert_config_Some rows r rows' :
  insert_config rows r = Some rows' →
  rows' = rows ++ [r] ∧ (dashboardConfig.key r ∉ dashboardConfig.key <$> rows).
Proof. unfold insert_config. repeat case_decide; naive_solver. Qed.

Lemma select_where_key_None rows k :
  select_where_key rows k = None ↔ k ∉ dashboardConfig.key <$> rows.
Proof.
  unfold select_where_key. rewrite fmap_None, list_find_None, Forall_forall.
  rewrite list_elem_of_fmap. naive_solver.
Qed.

(** An update by key leaves the rows under other keys as they are. *)
Lemma update_where_key_others rows k v at_ :
  filter (λ r, dashboardConfig.key r ≠ k) (update_where_key rows k v at_) =
  filter (λ r, dashboardConfig.key r ≠ k) rows.
Proof.
  unfold update_where_key. induction rows as [|r rows IH]; [done|].
  rewrite fmap_cons. case_decide as Hk.
  - rewrite !filter_cons_False by (cbn; intros []; done). apply IH.
  - rewrite !filter_cons_True by done. by rewrite IH.
Qed.

Lemma update_where_key_keys rows k v at_ :
  dashboardConfig.key <$> update_where_key rows k v at_ = dashboardConfig.key <$> rows.
Proof.
  unfold update_where_key. rewrite <- list_fmap_compose.
  apply list_fmap_ext. intros ? r _. simpl. by case_decide.
Qed.

Lemma saveBackupMetadata_config e m st :
  config_table (saveBackupMetadata e m st) = config_table st.
Proof. unfold saveBackupMetadata. by destruct (head _). Qed.

(** The backup row a resolved [performBackup] leaves. *)
Lemma performBackup_backup_row e st st' configData :
  performBackup e st = (st', Resolved) → loadConfig e = Some configData →
  ∃ r, select_where_key (config_table st') "backup_weekly" = Some r ∧
       dashboardConfig.value r = <["_backupMetadata" := Stamp (now e)]> configData.
Proof.
  intros (configData' & rows & Hc & Hw & ->)%performBackup_resolved Hc'.
  rewrite Hc in Hc'. injection Hc' as ->.
  rewrite saveBackupMetadata_config. cbn [config_table with_config].
  destruct (select_where_key (config_table st) "backup_weekly") as [b|] eqn:Hb.
  - injection Hw as <-. rewrite select_where_key_update, Hb. cbn.
    rewrite decide_True by (by eapply select_where_key_Some). eauto.
  - apply insert_config_Some in Hw as [-> _].
    rewrite select_where_key_snoc by done. cbn. eauto.
Qed.

(** X16 — The backup is an upsert: a resolved [performBackup] leaves a
    [backup_weekly] row that holds the loaded configuration with the
    [_backupMetadata] stamp of this run set, leaves every row under another
    key as it was, and keeps the keys distinct if they were. *)
Theorem backup_upsert e st st' :
  performBackup e st = (st', Resolved) →
  ∃ configData r,
    loadConfig e = Some configData ∧
    select_where_key (config_table st') "backup_weekly" = Some r ∧
    dashboardConfig.value r = <["_backupMetadata" := Stamp (now e)]> configData ∧
    filter (λ r, dashboardConfig.key r ≠ "backup_weekly") (config_table st') =
      filter (λ r, dashboardConfig.key r ≠ "backup_weekly") (config_table st) ∧
    (NoDup (dashboardConfig.key <$> config_table st) →
     NoDup (dashboardConfig.key <$> config_table st')).
Proof.
  intros Hok.
  destruct (performBackup_resolved e st st' Hok) as (configData & rows & Hc & Hw & Hst).
  destruct (performBackup_backup_row e st st' configData Hok Hc) as (r & Hr & Hv).
  exists configData, r. split_and!; try done; subst st';
    rewrite saveBackupMetadata_config; cbn [config_table with_config];
    destruct (select_where_key (config_table st) "backup_weekly") as [b|] eqn:Hb.
  - injection Hw as <-. apply update_where_key_others.
  - apply insert_config_Some in Hw as [-> _].
    rewrite filter_app, filter_cons_False, filter_nil, app_nil_r; [done|].
    cbn. by intros [].
  - injection Hw as <-. by rewrite update_where_key_keys.
  - apply insert_config_Some in Hw as [-> Hfresh]. intros Hnd.
    rewrite fmap_app. apply NoDup_app. split_and!; [done| |apply NoDup_singleton].
    intros k Hk. cbn. rewrite list_elem_of_singleton. by intros ->.
Qed.

(** The [main] row a resolved [restoreFromBackup] leaves. *)
Lemma restoreFromBackup_main_row e st st' backupRow :
  restoreFromBackup e st = (st', Resolved) →
  select_where_key (config_table st) "backup_weekly" = Some backupRow →
  ∃ r, select_where_key (config_table st') "main" = Some r ∧
       dashboardConfig.value r = delete "_backupMetadata" (dashboardConfig.value backupRow).
Proof.
  unfold restoreFromBackup. intros Hok Hb. rewrite Hb in Hok.
  destruct (select_where_key (config_table st) "main") as [mainConfig|] eqn:Hm.
  - injection Hok as <-. cbn [config_table with_config].
    rewrite select_where_key_update, Hm. cbn.
    rewrite decide_True by (by eapply select_where_key_Some). eauto.
  - destruct (insert_config _ _) as [rows|] eqn:Hi; [|done]. injection Hok as <-.
    apply insert_config_Some in Hi as [-> _]. cbn [config_table with_config].
    rewrite select_where_key_snoc by done. cbn. eauto.
Qed.

(** X17 — Restore: without a [backup_weekly] row [restoreFromBackup] rejects
    and changes nothing; when it resolves, the [main] row holds the backup's
    object without its [_backupMetadata] property, every row under another
    key (the backup row included) is as it was, and the metadata table is
    untouched. *)
Theorem restore_from_backup e st :
  (select_where_key (config_table st) "backup_weekly" = None →
   restoreFromBackup e st = (st, Rejected)) ∧
  (∀ st', restoreFromBackup e st = (st', Resolved) →
     ∃ backupRow r,
       select_where_key (config_table st) "backup_weekly" = Some backupRow ∧
       select_where_key (config_table st') "main" = Some r ∧
       dashboardConfig.value r =
         delete "_backupMetadata" (dashboardConfig.value backupRow) ∧
       filter (λ r, dashboardConfig.key r ≠ "main") (config_table st') =
         filter (λ r, dashboardConfig.key r ≠ "main") (config_table st) ∧
       metadata_table st' = metadata_table st).
Proof.
  split; [unfold restoreFromBackup; by intros ->|]. intros st' Hok.
  destruct (select_where_key (config_table st) "backup_weekly") as [backupRow|] eqn:Hb;
    [|unfold restoreFromBackup in Hok; by rewrite Hb in Hok].
  destruct (restoreFromBackup_main_row e st st' backupRow Hok Hb) as (r & Hr & Hv).
  exists backupRow, r. split_and!; try done;
    unfold restoreFromBackup in Hok; rewrite Hb in Hok;
    destruct (select_where_key (config_table st) "main") as [mainConfig|] eqn:Hm.
  - injection Hok as <-. cbn [config_table with_config]. apply update_where_key_others.
  - destruct (insert_config _ _) as [rows|] eqn:Hi; [|done]. injection Hok as <-.
    apply insert_config_Some in Hi as [-> _]. cbn [config_table with_config].
    rewrite filter_app, filter_cons_False, filter_nil, app_nil_r; [done|].
    cbn. by intros [].
  - by injection Hok as <-.
  - destruct (insert_config _ _) as [rows|] eqn:Hi; [|done]. by injection Hok as <-.
Qed.

(** X18 — Backup then restore: after a resolved [performBackup], a resolved
    [restoreFromBackup] leaves in the [main] row the configuration that was
    loaded for the backup, without a [_backupMetadata] property. *)
Theorem backup_then_restore e e' st st1 st2 :
  performBackup e st = (st1, Resolved) →
  restoreFromBackup e' st1 = (st2, Resolved) →
  ∃ configData r,
    loadConfig e = Some configData ∧
    select_where_key (config_table st2) "main" = Some r ∧
    dashboardConfig.value r = delete "_backupMetadata" configData.
Proof.
  intros Hbackup Hrestore.
  destruct (performBackup_resolved e st st1 Hbackup) as (configData & _ & Hc & _).
  destruct (performBackup_backup_row e st st1 configData Hbackup Hc) as (b & Hb & Hbv).
  destruct (restoreFromBackup_main_row e' st1 st2 b Hrestore Hb) as (r & Hr & Hv).
  exists configData, r. split_and!; try done.
  by rewrite Hv, Hbv, delete_insert_eq.
Qed.
(** X19 — Backup status: after a resolved [performBackup] at a time other
    than 0 that [Date] can represent together with the time a week later,
    [getBackupStatus] reports that time as the last backup, the time a week
    later as the next one, and that a backup exists. *)
Theorem backup_status_after_backup e e' st st' :
  performBackup e st = (st', Resolved) →
  now e ≠ 0 →
  Z.abs (now e) ≤ 8640000000000000 →
  Z.abs (now e + week) ≤ 8640000000000000 →
  getBackupStatus e' st' = Some (mkStatus (Some (now e)) (now e + week) true).
Proof.
  intros Hok Hnow Hlast Hnext.
  destruct (performBackup_resolved e st st' Hok) as (configData & rows & Hc & _ & Hst).
  destruct (performBackup_backup_row e st st' configData Hok Hc) as (r & Hr & _).
  unfold getBackupStatus. rewrite Hr, Hst, loadBackupMetadata_save. cbn.
  rewrite decide_False by done. unfold new_Date.
  by rewrite !decide_True by done.
Qed.

Lemma performBackup_service e st :
  intervalId (performBackup e st).1 = intervalId st ∧
  timers (performBackup e st).1 = timers st.
Proof.
  unfold performBackup, saveBackupMetadata.
  repeat case_match; simplify_eq/=; done.
Qed.

Lemma performBackup_rejected e st :
  (performBackup e st).2 = Rejected → (performBackup e st).1 = st.
Proof. unfold performBackup. by repeat case_match. Qed.

(** X20 — One timer at most: if the running timers are exactly the one the
    service holds a handle to, if any, this still holds after [initialize]
    and after a scheduled check; [startBackupSchedule] leaves exactly the new
    timer running, and [stop] leaves none and is idempotent. *)
Theorem backup_single_timer e st :
  timers st = from_option (λ h, [h]) [] (intervalId st) →
  timers (initialize e st) = from_option (λ h, [h]) [] (intervalId (initialize e st)) ∧
  timers (scheduled_check e st)
    = from_option (λ h, [h]) [] (intervalId (scheduled_check e st)) ∧
  timers (startBackupSchedule e st) = [timer e] ∧
  timers (stop st) = [] ∧
  intervalId (stop st) = None ∧
  stop (stop st) = stop st.
Proof.
  intros Hone.
  assert (∀ st0, timers st0 = from_option (λ h, [h]) [] (intervalId st0) →
            timers (startBackupSchedule e st0) = [timer e]) as Hstart.
  { intros st0 H0. unfold startBackupSchedule. cbn. rewrite H0.
    destruct (intervalId st0) as [h|]; cbn; [|done].
    by rewrite decide_False by (intros Hh; by apply Hh). }
  destruct (performBackup_service e st) as [Hid Ht].
  split_and!.
  - unfold initialize. destruct (shouldPerformBackup e st); [|by rewrite Hstart].
    destruct (performBackup e st) as [st' []] eqn:Hp; cbn in Hid, Ht.
    + rewrite Hstart; [done|]. by rewrite Hid, Ht.
    + by rewrite Hid, Ht.
  - unfold scheduled_check. destruct (shouldPerformBackup e st); [|done].
    by rewrite Hid, Ht.
  - by apply Hstart.
  - unfold stop. rewrite Hone. destruct (intervalId st) as [h|] eqn:Hh; cbn; [|done].
    by rewrite decide_False by (intros Hx; by apply Hx).
  - unfold stop. by destruct (intervalId st) eqn:Hh.
  - unfold stop. by destruct (intervalId st) as [h|] eqn:Hh; cbn; [|rewrite Hh].
Qed.

(** X21 — [initialize] starts the hourly schedule unless the backup that is
    due fails: when a backup is due and [performBackup] rejects, the state is
    left as it was and no timer is started; in every other case the service
    holds the handle of a newly started timer. *)
Theorem initialize_schedule e st :
  (shouldPerformBackup e st = true → (performBackup e st).2 = Rejected →
   initialize e st = st) ∧
  (¬ (shouldPerformBackup e st = true ∧ (performBackup e st).2 = Rejected) →
   intervalId (initialize e st) = Some (timer e) ∧
   timer e ∈ timers (initialize e st)).
Proof.
  unfold initialize. split.
  - intros -> Hrej. pose proof (performBackup_rejected e st Hrej) as Hst.
    destruct (performBackup e st) as [st' o]. cbn in *. by subst.
  - intros Hnot.
    assert (∀ st0, intervalId (startBackupSchedule e st0) = Some (timer e) ∧
                   timer e ∈ timers (startBackupSchedule e st0)) as Hstart.
    { intros st0. unfold startBackupSchedule. cbn. split; [done|].
      rewrite elem_of_app, list_elem_of_singleton. by right. }
    destruct (shouldPerformBackup e st); [|apply Hstart].
    destruct (performBackup e st) as [st' []]; [apply Hstart|].
    by destruct Hnot.
Qed.
End backup_service.


(** * Properties of the notes routes *)

Section notes_routes.
Import notesRoute.
Context (trim : string → string) (timestamp : Z → Z).
Implicit Types (s l : list notes.row) (e : env) (b : fields).

Lemma insert_desc_Permutation a l : insert_desc a l ≡ₚ a :: l.
Proof.
  induction l as [|c l IH]; [done|]. cbn. case_decide; [|done].
  rewrite IH. apply Permutation_swap.
Qed.

Lemma sort_desc_Permutation l : sort_desc l ≡ₚ l.
Proof.
  induction l as [|a l IH]; [done|]. cbn.
  by rewrite insert_desc_Permutation, IH.
Qed.

Lemma insert_desc_Sorted a l :
  Sorted (λ x y, notes.updatedAt y ≤ notes.updatedAt x) l →
  Sorted (λ x y, notes.updatedAt y ≤ notes.updatedAt x) (insert_desc a l).
Proof.
  induction 1 as [|c l Hl IH Hc]; cbn; [by repeat constructor|].
  case_decide as Hac.
  - constructor; [done|]. destruct Hc as [|d l Hcd]; cbn.
    + constructor. lia.
    + case_decide; constructor; [done|lia].
  - repeat constructor; [done..|lia].
Qed.

Lemma sort_desc_Sorted l :
  Sorted (λ x y, notes.updatedAt y ≤ notes.updatedAt x) (sort_desc l).
Proof.
  induction l as [|a l IH]; [constructor|]. cbn. by apply insert_desc_Sorted.
Qed.

Lemma globalDefaultFontSize_truthy c :
  truthy (Some (globalDefaultFontSize c)) = Some (globalDefaultFontSize c).
Proof.
  unfold globalDefaultFontSize, truthy. destruct c as [v|]; [|done].
  destruct (decide (v = "")) as [->|Hv]; cbn; [done|]. by rewrite decide_False.
Qed.

(** X22 — Notes are listed newest first: when [loadConfig] returns, [GET /]
    answers 200 with a rearrangement of the stored notes, each without font
    size given the default, ordered by non-increasing [updatedAt]; every note
    in the answer has a font size. *)
Theorem get_notes_sorted e s configData :
  loadConfig e = Some configData →
  ∃ l,
    (get_notes e s).2 = mkResponse 200 (Notes l) ∧
    l ≡ₚ with_default (globalDefaultFontSize configData) <$> s ∧
    Sorted (λ x y, notes.updatedAt y ≤ notes.updatedAt x) l ∧
    Forall (λ n, is_Some (truthy (notes.fontSize n))) l.
Proof.
  intros Hc. unfold get_notes. rewrite Hc. cbn. eexists. split; [done|].
  split; [apply sort_desc_Permutation|]. split; [apply sort_desc_Sorted|].
  rewrite sort_desc_Permutation. apply Forall_fmap, Forall_true. intros n.
  unfold compose, with_default.
  destruct (truthy (notes.fontSize n)) eqn:Hn; [by rewrite Hn|].
  unfold notes.set_fontSize. cbn [notes.fontSize].
  by rewrite globalDefaultFontSize_truthy.
Qed.
Lemma set_fontSize_id v n : notes.id (notes.set_fontSize v n) = notes.id n.
Proof. done. Qed.

(** A loop of updates by id over a snapshot sets the font size of exactly
    the rows that share an id with a note the loop touches. *)
Lemma update_fontSize_loop (touch : notes.row → bool) v l cur :
  foldl (λ cur note, if touch note then update_fontSize cur (notes.id note) v else cur) cur l
  = (λ n, if decide (notes.id n ∈ notes.id <$> filter (λ m, touch m = true) l)
          then notes.set_fontSize v n else n) <$> cur.
Proof.
  revert cur. induction l as [|u l IH]; intros cur.
  - cbn. symmetry. etrans; [|apply list_fmap_id]. apply list_fmap_ext. intros ? n _.
    by rewrite decide_False by apply not_elem_of_nil.
  - cbn [foldl]. rewrite IH. destruct (touch u) eqn:Hu.
    + rewrite filter_cons_True by done. unfold update_fontSize.
      rewrite <- list_fmap_compose. apply list_fmap_ext. intros ? n _. cbn.
      destruct (decide (notes.id n = notes.id u)) as [Hid|Hid].
      * rewrite (decide_True (P := notes.id n ∈ _ :: _)) by (apply elem_of_cons; auto).
        by case_decide.
      * destruct (decide (notes.id n ∈
                    notes.id <$> filter (λ m, touch m = true) l)) as [Hin|Hin].
        -- by rewrite decide_True by (apply elem_of_cons; auto).
        -- rewrite decide_False; [done|]. rewrite elem_of_cons. by intros [|].
    + rewrite filter_cons_False; [done|]. by rewrite Hu.
Qed.

Lemma no_font_size_touch (note : notes.row) {A} (x y : A) :
  match truthy (notes.fontSize note) with None => x | Some _ => y end =
  if bool_decide (truthy (notes.fontSize note) = None) then x else y.
Proof. by destruct (truthy (notes.fontSize note)). Qed.

Lemma foldl_ext_eq {A B} (f g : A → B → A) (acc : A) (xs : list B) :
  (∀ acc x, f acc x = g acc x) → foldl f acc xs = foldl g acc xs.
Proof.
  intros Hfg. revert acc. induction xs as [|x xs IH]; intros acc; [done|].
  cbn. by rewrite Hfg, IH.
Qed.

Lemma NoDup_fmap_same {A B} (f : A → B) (xs : list A) x y :
  NoDup (f <$> xs) → x ∈ xs → y ∈ xs → f x = f y → x = y.
Proof.
  intros Hnd [i Hi]%list_elem_of_lookup_1 [j Hj]%list_elem_of_lookup_1 Hxy.
  assert (i = j) as ->; [|congruence].
  eapply (NoDup_lookup _ i j (f x)); [apply Hnd|..];
    rewrite list_lookup_fmap; [rewrite Hi|rewrite Hj]; simpl; congruence.
Qed.

(** With a primary key the migration loop of [GET /] gives the default to
    the notes without font size and to no other. *)
Lemma get_notes_table e s configData :
  NoDup (notes.id <$> s) → loadConfig e = Some configData →
  (get_notes e s).1 = with_default (globalDefaultFontSize configData) <$> s.
Proof.
  intros Hpk Hc. unfold get_notes. rewrite Hc. cbn [fst].
  erewrite foldl_ext_eq by (intros; apply no_font_size_touch).
  rewrite update_fontSize_loop. apply list_fmap_ext. intros i n Hn.
  apply list_elem_of_lookup_2 in Hn. unfold with_default.
  destruct (truthy (notes.fontSize n)) eqn:Hf.
  - rewrite decide_False; [done|]. intros (m & Hid & Hm)%list_elem_of_fmap.
    apply list_elem_of_filter in Hm as [Hm%bool_decide_eq_true Hin].
    assert (n = m) as -> by (by eapply (NoDup_fmap_same notes.id s)).
    congruence.
  - rewrite decide_True; [done|]. apply list_elem_of_fmap_2.
    apply list_elem_of_filter. split; [by apply bool_decide_eq_true|done].
Qed.

Lemma with_default_idemp v v' n :
  truthy (Some v) = Some v → with_default v' (with_default v n) = with_default v n.
Proof.
  intros Hv. unfold with_default at 2 3.
  destruct (truthy (notes.fontSize n)) eqn:Hn; unfold with_default.
  - by rewrite Hn.
  - unfold notes.set_fontSize. cbn [notes.fontSize]. by rewrite Hv.
Qed.

(** X23 — [GET /] migrates once: with [id] a primary key, a [GET /] stores
    the default font size on exactly the notes that had none, answers with
    the stored notes in sorted order, and a further [GET /] changes nothing
    and gives the same answer, whatever the default has become. *)
Theorem get_notes_migrates e e' s configData configData' :
  NoDup (notes.id <$> s) →
  loadConfig e = Some configData →
  loadConfig e' = Some configData' →
  (get_notes e s).1 = with_default (globalDefaultFontSize configData) <$> s ∧
  (get_notes e s).2 = mkResponse 200 (Notes (sort_desc (get_notes e s).1)) ∧
  get_notes e' (get_notes e s).1 = get_notes e s.
Proof.
  intros Hpk Hc Hc'. pose proof (get_notes_table e s configData Hpk Hc) as Hs.
  assert ((get_notes e s).2 = mkResponse 200 (Notes (sort_desc (get_notes e s).1))) as Hr.
  { rewrite Hs. unfold get_notes. by rewrite Hc. }
  split; [done|]. split; [done|].
  assert (with_default (globalDefaultFontSize configData') <$> (get_notes e s).1
          = (get_notes e s).1) as Hfix.
  { rewrite Hs, <- list_fmap_compose. apply list_fmap_ext. intros ? n _. cbn.
    apply with_default_idemp, globalDefaultFontSize_truthy. }
  assert (NoDup (notes.id <$> (get_notes e s).1)) as Hpk'.
  { rewrite Hs, <- list_fmap_compose.
    erewrite list_fmap_ext; [apply Hpk|]. intros ? n _. cbn. unfold with_default.
    by destruct (truthy (notes.fontSize n)). }
  apply injective_projections.
  - by rewrite (get_notes_table e' _ configData' Hpk' Hc').
  - rewrite Hr. unfold get_notes at 1. rewrite Hc'. cbn [snd]. by rewrite Hfix.
Qed.

(** X24 — Set every font size: with a font size in the body,
    [PUT /update-all-font-sizes] stores it on every note, changes nothing
    else, and reports the number of stored notes. *)
Theorem put_all_font_sizes_sets_all s b fontSize :
  truthy (body_fontSize b) = Some fontSize →
  put_all_font_sizes s b =
    (notes.set_fontSize fontSize <$> s,
     mkResponse 200
       (Updated ("Updated font size for " +:+ pretty (length s) +:+ " notes") (length s))).
Proof.
  intros Hf. unfold put_all_font_sizes. rewrite Hf. f_equal.
  etrans; [exact (update_fontSize_loop (λ _, true) fontSize s s)|].
  apply list_fmap_ext. intros i n Hn.
  rewrite decide_True; [done|]. apply list_elem_of_fmap_2, list_elem_of_filter.
  split; [done|]. by eapply list_elem_of_lookup_2.
Qed.
Lemma select_where_id_Some s i n :
  select_where_id s i = Some n → ∃ k, s !! k = Some n ∧ notes.id n = i.
Proof.
  unfold select_where_id. intros ([k n']&Hf&?)%fmap_Some. simplify_eq/=.
  apply list_find_Some in Hf as (? & ? & _). eauto.
Qed.

Lemma select_where_id_None s i :
  select_where_id s i = None ↔ i ∉ notes.id <$> s.
Proof.
  unfold select_where_id. rewrite fmap_None, list_find_None, Forall_forall.
  rewrite list_elem_of_fmap. naive_solver.
Qed.

Lemma select_where_id_snoc s n :
  select_where_id s (notes.id n) = None →
  select_where_id (s ++ [n]) (notes.id n) = Some n.
Proof.
  unfold select_where_id. intros Hn%fmap_None.
  rewrite (list_find_app_r _ _ _ Hn). cbn. by rewrite decide_True.
Qed.

(** X25 — Creating a note: [POST /] answers 500 exactly when [loadConfig]
    throws, the existence check keeps the insert from ever failing; when it
    answers 201 it has appended one row with the trimmed title and content,
    which a lookup by id then finds, and a further [POST /] with that id is
    answered 409 and changes nothing; with any other answer the table is
    unchanged. *)
Theorem post_note_creates e s b :
  (status (post_note trim timestamp e s b).2 = 500 ↔ loadConfig e = None) ∧
  (status (post_note trim timestamp e s b).2 = 201 →
   ∃ id title configData,
     truthy (body_id b) = Some id ∧
     truthy (body_title b) = Some title ∧
     loadConfig e = Some configData ∧
     (id ∉ notes.id <$> s) ∧
     (post_note trim timestamp e s b).1 =
       s ++ [notes.mk id (trim title)
               (Some (trim (default "" (truthy (body_content b)))))
               (Some (default (globalDefaultFontSize configData) (truthy (body_fontSize b))))
               (timestamp (now e)) (timestamp (now e))] ∧
     select_where_id (post_note trim timestamp e s b).1 id =
       Some (notes.mk id (trim title)
               (Some (trim (default "" (truthy (body_content b)))))
               (Some (default (globalDefaultFontSize configData) (truthy (body_fontSize b))))
               (timestamp (now e)) (timestamp (now e))) ∧
     ∀ e' b', is_Some (loadConfig e') → truthy (body_id b') = Some id →
              is_Some (truthy (body_title b')) →
              post_note trim timestamp e' (post_note trim timestamp e s b).1 b' =
                ((post_note trim timestamp e s b).1,
                 mkResponse 409 (Error "Note with this ID already exists"))) ∧
  (status (post_note trim timestamp e s b).2 ≠ 201 →
   (post_note trim timestamp e s b).1 = s).
Proof.
  destruct (post_note trim timestamp e s b) as [s1 r] eqn:Hp. cbn [fst snd].
  unfold post_note in Hp.
  destruct (loadConfig e) as [configData|] eqn:Hc; [|by simplify_eq].
  destruct (truthy (body_id b)) as [id|] eqn:Hid; [|by simplify_eq].
  destruct (truthy (body_title b)) as [title|] eqn:Ht; [|by simplify_eq].
  destruct (select_where_id s id) as [existing|] eqn:Hs; [by simplify_eq|].
  pose proof (proj1 (select_where_id_None s id) Hs) as Hfresh.
  unfold insert_note in Hp. cbn [notes.id] in Hp. rewrite decide_False in Hp by done.
  simplify_eq. cbn [status].
  split_and!; try done. intros _. exists id, title, configData.
  split_and!; try done.
  - by apply (select_where_id_snoc s (notes.mk id _ _ _ _ _)).
  - intros e' b' [c' Hc'] Hid' [t' Ht']. unfold post_note.
    rewrite Hc', Hid', Ht'.
    by rewrite (select_where_id_snoc s (notes.mk id _ _ _ _ _)).
Qed.

(** X26 — Deleting a note: [DELETE /:id] answers 204 and drops the rows with
    that id, keeping the others in order, when the id is stored, and answers
    404 leaving the table unchanged when it is not; afterwards the id is not
    stored, so a second [DELETE] is answered 404. *)
Theorem delete_note_removes s id :
  (id ∈ notes.id <$> s →
   delete_note s id = (filter (λ n, notes.id n ≠ id) s, mkResponse 204 Empty)) ∧
  (id ∉ notes.id <$> s →
   delete_note s id = (s, mkResponse 404 (Error "Note not found"))) ∧
  (id ∉ notes.id <$> (delete_note s id).1) ∧
  delete_note (delete_note s id).1 id =
    ((delete_note s id).1, mkResponse 404 (Error "Note not found")).
Proof.
  assert (id ∉ notes.id <$> (delete_note s id).1) as Hgone.
  { unfold delete_note. destruct (select_where_id s id) eqn:Hs; cbn.
    - unfold delete_where_id. intros (n & -> & Hn%list_elem_of_filter)%list_elem_of_fmap.
      by destruct Hn.
    - by apply select_where_id_None. }
  split_and!; [| |done|].
  - intros Hin. unfold delete_note.
    destruct (select_where_id s id) eqn:Hs; [done|].
    by apply select_where_id_None in Hs.
  - intros Hout%select_where_id_None. unfold delete_note. by rewrite Hout.
  - apply select_where_id_None in Hgone. unfold delete_note at 1. by rewrite Hgone.
Qed.

(** X27 — Updating a note: with [id] a primary key, a [PUT /:id] that
    answers 200 rewrites exactly the row with that id, keeping its id and
    creation time, storing the trimmed title and content, and taking as font
    size the one in the body if there is one, else the stored one, else the
    default; with any other answer the table is unchanged. *)
Theorem put_note_updates e s id b :
  NoDup (notes.id <$> s) →
  (status (put_note trim timestamp e s id b).2 = 200 →
   ∃ k existingNote title configData,
     s !! k = Some existingNote ∧
     notes.id existingNote = id ∧
     truthy (body_title b) = Some title ∧
     loadConfig e = Some configData ∧
     (put_note trim timestamp e s id b).1 =
       <[k := notes.mk id (trim title)
                (Some (trim (default "" (truthy (body_content b)))))
                (Some (default
                         (default (globalDefaultFontSize configData)
                                  (truthy (notes.fontSize existingNote)))
                         (truthy (body_fontSize b))))
                (notes.createdAt existingNote) (timestamp (now e))]> s) ∧
  (status (put_note trim timestamp e s id b).2 ≠ 200 →
   (put_note trim timestamp e s id b).1 = s).
Proof.
  intros Hpk. unfold put_note.
  destruct (loadConfig e) as [configData|] eqn:Hc; [|by split].
  destruct (truthy (body_title b)) as [title|] eqn:Ht; [|by split].
  destruct (select_where_id s id) as [existingNote|] eqn:Hs; [|by split].
  cbn. split; [intros _|done].
  destruct (select_where_id_Some s id existingNote Hs) as (k & Hk & Hid).
  exists k, existingNote, title, configData. split_and!; try done.
  apply list_eq. intros j. rewrite list_lookup_fmap.
  destruct (decide (j = k)) as [->|Hne].
  - rewrite list_lookup_insert_eq by eauto using lookup_lt_Some.
    rewrite Hk. cbn. rewrite decide_True by done. by rewrite Hid.
  - rewrite list_lookup_insert_ne by done.
    destruct (s !! j) as [n|] eqn:Hj; [|done]. cbn.
    case_decide as Hn; [|done]. destruct Hne.
    eapply (NoDup_lookup _ j k id); [apply Hpk|..];
      rewrite list_lookup_fmap; [rewrite Hj|rewrite Hk]; simpl; congruence.
Qed.

Lemma update_fontSize_ids s i v :
  notes.id <$> update_fontSize s i v = notes.id <$> s.
Proof.
  unfold update_fontSize. rewrite <- list_fmap_compose.
  apply list_fmap_ext. intros ? n _. simpl. by case_decide.
Qed.

(** X28 — The notes routes keep the primary key: if the stored ids are
    distinct, they are distinct after each of the five routes. *)
Theorem notes_keep_primary_key e s id b :
  NoDup (notes.id <$> s) →
  NoDup (notes.id <$> (get_notes e s).1) ∧
  NoDup (notes.id <$> (post_note trim timestamp e s b).1) ∧
  NoDup (notes.id <$> (put_all_font_sizes s b).1) ∧
  NoDup (notes.id <$> (put_note trim timestamp e s id b).1) ∧
  NoDup (notes.id <$> (delete_note s id).1).
Proof.
  intros Hpk.
  assert (∀ (f : notes.row → notes.row), (∀ n, notes.id (f n) = notes.id n) →
            NoDup (notes.id <$> (f <$> s))) as Hmap.
  { intros f Hf. rewrite <- list_fmap_compose.
    erewrite list_fmap_ext; [apply Hpk|]. intros ? n _. apply Hf. }
  split_and!.
  - unfold get_notes. destruct (loadConfig e); [|done]. cbn [fst].
    erewrite foldl_ext_eq by (intros; apply no_font_size_touch).
    rewrite update_fontSize_loop. apply Hmap. intros n. by case_decide.
  - unfold post_note, insert_note. repeat case_match; try done. simplify_eq/=.
    rewrite fmap_app. apply NoDup_app. split_and!; [done| |apply NoDup_singleton].
    intros i Hi. cbn. rewrite list_elem_of_singleton. by intros ->.
  - unfold put_all_font_sizes. destruct (truthy _) as [fontSize|]; [|done]. cbn [fst].
    assert (foldl (λ cur note, update_fontSize cur (notes.id note) fontSize) s s =
              (λ n, if decide (notes.id n ∈ notes.id <$> filter (λ m, true = true) s)
                    then notes.set_fontSize fontSize n else n) <$> s) as ->
      by exact (update_fontSize_loop (λ _, true) fontSize s s).
    apply Hmap. intros n. by case_decide.
  - unfold put_note. repeat case_match; try done. cbn [fst].
    apply Hmap. intros n. by case_decide.
  - unfold delete_note. destruct (select_where_id s id); [|done]. cbn [fst].
    unfold delete_where_id. eapply sublist_NoDup; [apply Hpk|].
    apply fmap_sublist, sublist_filter.
Qed.
End notes_routes.

(** * The further properties on concrete inputs *)

Lemma refresh_internal_error_iff_witness :
  statusCode (fixture.refresh (fixture.at_ 5000) [fixture.alice]
                (fixture.with_cookie "x.abc..mallory")).2 = 500.
Proof.
  apply (proj2 (proj1 (@refresh_internal_error_iff fixture.jwt fixture.SECRET
                         (fixture.at_ 5000) [fixture.alice]
                         (fixture.with_cookie "x.abc..mallory")))).
  exists "x.abc..mallory", (mkExp true NotFinite). by split_and!.
Defined.

Lemma refresh_token_on_no_list_witness :
  (fixture.refresh (fixture.at_ 5000) [fixture.bob; fixture.alice_signed_up]
     (fixture.with_cookie "k.604801..bob")).1 = [fixture.bob; fixture.alice_signed_up].
Proof.
  refine (proj1 (@refresh_token_on_no_list fixture.jwt fixture.SECRET (fixture.at_ 5000)
            [fixture.bob; fixture.alice_signed_up] (fixture.with_cookie "k.604801..bob")
            "k.604801..bob" _ _)).
  - reflexivity.
  - repeat constructor; apply not_elem_of_nil.
Defined.

(** After alice's logout, bob and alice log in again, their promises
    settling in the other order; the token alice logged out with stays
    rejected. *)
Lemma logout_revokes_witness :
  statusCode (fixture.refresh (fixture.at_ 3000)
                (fixture.logout (fixture.at_ 2000) [fixture.alice; fixture.bob]
                   (fixture.with_cookie "k.604801..alice")).1
                (fixture.with_cookie "k.604801..alice")).2 = 401 ∧
  statusCode
    (fixture.refresh (fixture.at_ 9000)
       (table
          (fixture.serve_all
             (mkServer (fixture.logout (fixture.at_ 2000) [fixture.alice; fixture.bob]
                          (fixture.with_cookie "k.604801..alice")).1 [])
             [(fixture.at_ 4000, Arrives (Login (fixture.with_body "bob" "pw2")));
              (fixture.at_ 4500, Arrives (Login (fixture.with_body "alice" "pw1")));
              (fixture.at_ 5000, Settles 1%nat);
              (fixture.at_ 6000, Settles 0%nat)]))
       (fixture.with_cookie "k.604801..alice")).2 ≠ 200.
Proof.
  destruct (@logout_revokes fixture.jwt fixture.bcrypt fixture.SECRET
              (fixture.at_ 2000) (fixture.at_ 3000)
              [fixture.alice; fixture.bob] (fixture.with_cookie "k.604801..alice")
              "k.604801..alice") as (_ & _ & _ & _ & _ & Hnext & _ & Hlater).
  - apply (bool_decide_unpack _). vm_compute. exact I.
  - reflexivity.
  - intros [|[|j]] [|[|k]] u u' Hj Hk Hu Hu'; simplify_eq/=; try done;
      by apply elem_of_nil in Hu || by apply elem_of_nil in Hu'.
  - split; [exact (Hnext eq_refl)|].
    apply (Hlater
             [(fixture.at_ 4000, Arrives (Login (fixture.with_body "bob" "pw2")));
              (fixture.at_ 4500, Arrives (Login (fixture.with_body "alice" "pw1")));
              (fixture.at_ 5000, Settles 1%nat);
              (fixture.at_ 6000, Settles 0%nat)]).
    intros res Hres [o Ho]. vm_compute in Hres.
    repeat (apply elem_of_cons in Hres as [->|Hres]);
      [..|by apply elem_of_nil in Hres];
      repeat (apply elem_of_cons in Ho as [Ho|Ho]); try discriminate;
      by apply elem_of_nil in Ho.
Defined.

Lemma login_then_refresh_witness :
  statusCode (fixture.refresh (fixture.at_ 5000)
                (fixture.login (fixture.at_ 1000) [fixture.alice_signed_up]
                   (fixture.with_body "alice" "pw1")).1
                (fixture.with_cookie "k.604801..alice")).2 = 200.
Proof.
  refine (proj2 (@login_then_refresh fixture.jwt fixture.bcrypt fixture.SECRET
            (fixture.at_ 1000) (fixture.at_ 5000) [fixture.alice_signed_up]
            (fixture.with_body "alice" "pw1") (fixture.with_cookie "k.604801..alice")
            "alice" (payload.mk "alice" None) _ _ _ _ _ _)); reflexivity.
Defined.


Lemma signup_username_taken_witness :
  fixture.signup (fixture.at_ 3000)
    (fixture.run [fixture.alice]
       [(fixture.at_ 2000, Login (fixture.with_body "alice" "pw1"))])
    (fixture.with_body "alice" "other") =
  (fixture.run [fixture.alice]
     [(fixture.at_ 2000, Login (fixture.with_body "alice" "pw1"))],
   mkResponse 409 [] (Some (message "Username already exists"))).
Proof.
  apply (@signup_username_taken fixture.jwt fixture.bcrypt fixture.SECRET
           (fixture.at_ 3000) [fixture.alice]
           [(fixture.at_ 2000, Login (fixture.with_body "alice" "pw1"))]
           (fixture.with_body "alice" "other") "alice").
  - by eexists.
  - reflexivity.
  - reflexivity.
Defined.

(** Two signups of one name: the second is checked while the first waits
    for [bcrypt], and its insert fails once the first has been stored. *)
Lemma signup_internal_error_iff_witness :
  signup_begin [fixture.alice] (fixture.with_body "bob" "pw2") =
    inr (mkSignupPending "bob" (Text "pw2")) ∧
  fixture.signup (fixture.at_ 2000) [fixture.alice] (fixture.with_body "bob" "pw2") =
    ([fixture.alice; users.mk "u9" "bob" "s9$pw2" "user" (Some []) None],
     mkResponse 201 [] (Some [("message", JString "User created successfully");
                              ("username", JString "bob")])) ∧
  statusCode
    (@signup_resume fixture.bcrypt (mkAmbient 3000 "u10" "s10")
       [fixture.alice; users.mk "u9" "bob" "s9$pw2" "user" (Some []) None]
       (mkSignupPending "bob" (Text "pw2"))).2 = 500.
Proof.
  split; [reflexivity|]. split; [reflexivity|].
  apply (proj2 (proj1 (proj2 (proj2 (proj2
           (proj2 (@signup_internal_error_iff fixture.bcrypt (mkAmbient 3000 "u10" "s10")
                     [fixture.alice]
                     [fixture.alice; users.mk "u9" "bob" "s9$pw2" "user" (Some []) None]
                     (fixture.with_body "bob" "pw2"))
              (mkSignupPending "bob" (Text "pw2")) eq_refl)))))).
  right. right. vm_compute. apply list_elem_of_further, list_elem_of_here.
Defined.

Lemma run_keeps_keys_witness :
  primary_key
    (fixture.run [fixture.alice; fixture.bob]
       [(fixture.at_ 2000, Signup (fixture.with_body "carol" "pw3"));
        (fixture.at_ 3000, Login (fixture.with_body "bob" "pw2"))]) ∧
  unique_username
    (fixture.run [fixture.alice; fixture.bob]
       [(fixture.at_ 2000, Signup (fixture.with_body "carol" "pw3"));
        (fixture.at_ 3000, Login (fixture.with_body "bob" "pw2"))]).
Proof.
  apply (@run_keeps_keys fixture.jwt fixture.bcrypt fixture.SECRET
           [fixture.alice; fixture.bob]).
  - apply (bool_decide_unpack _). vm_compute. exact I.
  - apply (bool_decide_unpack _). vm_compute. exact I.
Defined.


(** The login overtaken by a refresh: the token the login ends up storing
    is the one its response hands out. *)
Lemma token_provenance_witness :
  "k.604806..alice" ∈ stored_tokens [fixture.alice] "alice" ∨
  ∃ res o,
    res ∈ fixture.sent (mkServer [fixture.alice] [])
            [(fixture.at_ 4000, Arrives (Login (fixture.with_body "alice" "pw1")));
             (fixture.at_ 5000, Arrives (Refresh (fixture.with_cookie "k.604801..alice")));
             (fixture.at_ 6000, Settles 0%nat)] ∧
    SetCookie "refresh_token" "k.604806..alice" o ∈ cookies res.
Proof.
  apply (@token_provenance fixture.jwt fixture.bcrypt fixture.SECRET
           [fixture.alice]
           [(fixture.at_ 4000, Arrives (Login (fixture.with_body "alice" "pw1")));
            (fixture.at_ 5000, Arrives (Refresh (fixture.with_cookie "k.604801..alice")));
            (fixture.at_ 6000, Settles 0%nat)]
           "alice" "k.604806..alice").
  - apply (bool_decide_unpack _). vm_compute. exact I.
  - vm_compute. apply list_elem_of_further, list_elem_of_here.
Defined.

Lemma refresh_not_found_removes_everywhere_witness :
  token_absent "k.604801..bob"
    (fixture.refresh (fixture.at_ 5000) [fixture.bob; fixture.mallory]
       (fixture.with_cookie "k.604801..bob")).1.
Proof.
  refine (proj1 (@refresh_not_found_removes_everywhere fixture.jwt fixture.SECRET
            (fixture.at_ 5000) [fixture.bob; fixture.mallory]
            (fixture.with_cookie "k.604801..bob") "k.604801..bob"
            (payload.mk "bob" None) fixture.bob _ _ _ _ _)).
  - reflexivity.
  - reflexivity.
  - reflexivity.
  - reflexivity.
  - apply not_elem_of_nil.
Defined.

Lemma logout_frame_witness :
  (fixture.logout (fixture.at_ 2000) [fixture.bob; fixture.alice]
     (fixture.with_cookie "k.604801..alice")).2 =
    mkResponse 200
      [ClearCookie "access_token" clear_httpOnly; ClearCookie "refresh_token" clear_httpOnly;
       ClearCookie "access_token" clear_plain; ClearCookie "refresh_token" clear_plain]
      (Some (message "Logged out successfully")).
Proof.
  refine (proj1 (logout_frame (fixture.at_ 2000) [fixture.bob; fixture.alice]
            (fixture.with_cookie "k.604801..alice") "k.604801..alice" _ _)).
  - apply (bool_decide_unpack _). vm_compute. exact I.
  - reflexivity.
Defined.

Lemma backup_then_not_due_witness :
  backup.shouldPerformBackup (backup_fixture.at_ 5000)
    (backup.performBackup (backup_fixture.at_ 1000) backup_fixture.fresh).1
  = bool_decide (1000 + backup.week ≤ 5000).
Proof.
  refine (proj1 (backup_then_not_due (backup_fixture.at_ 1000) (backup_fixture.at_ 5000)
            backup_fixture.fresh
            (backup.performBackup (backup_fixture.at_ 1000) backup_fixture.fresh).1 _ _)).
  - reflexivity.
  - discriminate.
Defined.

Lemma backup_upsert_witness :
  ∃ configData r,
    backup.loadConfig (backup_fixture.at_ 1000) = Some configData ∧
    backup.select_where_key
      (backup.config_table
         (backup.performBackup (backup_fixture.at_ 1000) backup_fixture.fresh).1)
      "backup_weekly" = Some r ∧
    backup.dashboardConfig.value r =
      <["_backupMetadata" := backup.Stamp 1000]> configData ∧
    filter (λ r, backup.dashboardConfig.key r ≠ "backup_weekly")
      (backup.config_table
         (backup.performBackup (backup_fixture.at_ 1000) backup_fixture.fresh).1) =
      filter (λ r, backup.dashboardConfig.key r ≠ "backup_weekly")
        (backup.config_table backup_fixture.fresh) ∧
    (NoDup (backup.dashboardConfig.key <$> backup.config_table backup_fixture.fresh) →
     NoDup (backup.dashboardConfig.key <$>
              backup.config_table
                (backup.performBackup (backup_fixture.at_ 1000) backup_fixture.fresh).1)).
Proof.
  apply (backup_upsert (backup_fixture.at_ 1000) backup_fixture.fresh
           (backup.performBackup (backup_fixture.at_ 1000) backup_fixture.fresh).1).
  reflexivity.
Defined.

Lemma backup_then_restore_witness :
  ∃ configData r,
    backup.loadConfig (backup_fixture.at_ 1000) = Some configData ∧
    backup.select_where_key
      (backup.config_table
         (backup.restoreFromBackup (backup_fixture.at_ 2000)
            (backup.performBackup (backup_fixture.at_ 1000) backup_fixture.fresh).1).1)
      "main" = Some r ∧
    backup.dashboardConfig.value r = delete "_backupMetadata" configData.
Proof.
  apply (backup_then_restore (backup_fixture.at_ 1000) (backup_fixture.at_ 2000)
           backup_fixture.fresh
           (backup.performBackup (backup_fixture.at_ 1000) backup_fixture.fresh).1
           (backup.restoreFromBackup (backup_fixture.at_ 2000)
              (backup.performBackup (backup_fixture.at_ 1000) backup_fixture.fresh).1).1).
  - reflexivity.
  - reflexivity.
Defined.

Lemma backup_status_after_backup_witness :
  backup.getBackupStatus (backup_fixture.at_ 5000)
    (backup.performBackup (backup_fixture.at_ 1000) backup_fixture.fresh).1
  = Some (backup.mkStatus (Some 1000) (1000 + backup.week) true).
Proof.
  apply (backup_status_after_backup (backup_fixture.at_ 1000) (backup_fixture.at_ 5000)
           backup_fixture.fresh
           (backup.performBackup (backup_fixture.at_ 1000) backup_fixture.fresh).1).
  - reflexivity.
  - discriminate.
  - vm_compute. discriminate.
  - vm_compute. discriminate.
Defined.

Lemma backup_single_timer_witness :
  backup.timers (backup.startBackupSchedule (backup_fixture.at_ 2000)
                   (backup.initialize (backup_fixture.at_ 1000) backup_fixture.fresh))
  = [7%nat].
Proof.
  refine (proj1 (proj2 (proj2
            (backup_single_timer (backup_fixture.at_ 2000)
               (backup.initialize (backup_fixture.at_ 1000) backup_fixture.fresh) _)))).
  reflexivity.
Defined.

Lemma get_notes_sorted_witness :
  ∃ l,
    (notesRoute.get_notes (notes_fixture.at_ 100) notes_fixture.stored).2 =
      notesRoute.mkResponse 200 (notesRoute.Notes l) ∧
    l ≡ₚ notesRoute.with_default (notesRoute.globalDefaultFontSize (Some "18px"))
           <$> notes_fixture.stored ∧
    Sorted (λ x y, notes.updatedAt y ≤ notes.updatedAt x) l ∧
    Forall (λ n, is_Some (truthy (notes.fontSize n))) l.
Proof.
  apply (get_notes_sorted (notes_fixture.at_ 100) notes_fixture.stored (Some "18px")).
  reflexivity.
Defined.

Lemma get_notes_migrates_witness :
  notesRoute.get_notes (notesRoute.mkEnv 200 (Some None))
    (notesRoute.get_notes (notes_fixture.at_ 100) notes_fixture.stored).1
  = notesRoute.get_notes (notes_fixture.at_ 100) notes_fixture.stored.
Proof.
  refine (proj2 (proj2 (get_notes_migrates (notes_fixture.at_ 100)
            (notesRoute.mkEnv 200 (Some None)) notes_fixture.stored (Some "18px") None
            _ _ _))).
  - apply (bool_decide_unpack _). vm_compute. exact I.
  - reflexivity.
  - reflexivity.
Defined.

Lemma put_all_font_sizes_sets_all_witness :
  notesRoute.put_all_font_sizes notes_fixture.stored
    (notesRoute.mkFields None None None (Some "22px")) =
  (notes.set_fontSize "22px" <$> notes_fixture.stored,
   notesRoute.mkResponse 200
     (notesRoute.Updated
        ("Updated font size for " +:+ pretty (length notes_fixture.stored) +:+ " notes")
        (length notes_fixture.stored))).
Proof.
  apply (put_all_font_sizes_sets_all notes_fixture.stored
           (notesRoute.mkFields None None None (Some "22px")) "22px").
  reflexivity.
Defined.

Lemma put_note_updates_witness :
  ∃ k existingNote title configData,
    notes_fixture.stored !! k = Some existingNote ∧
    notes.id existingNote = "n3" ∧
    truthy (Some "Todo today") = Some title ∧
    notesRoute.loadConfig (notes_fixture.at_ 7500) = Some configData ∧
    (notesRoute.put_note notes_fixture.trim notes_fixture.timestamp (notes_fixture.at_ 7500)
       notes_fixture.stored "n3"
       (notesRoute.mkFields None (Some "Todo today") None None)).1 =
      <[k := notes.mk "n3" (notes_fixture.trim title)
               (Some (notes_fixture.trim (default "" (truthy None))))
               (Some (default
                        (default (notesRoute.globalDefaultFontSize configData)
                                 (truthy (notes.fontSize existingNote)))
                        (truthy None)))
               (notes.createdAt existingNote) (notes_fixture.timestamp 7500)]>
        notes_fixture.stored.
Proof.
  apply (put_note_updates notes_fixture.trim notes_fixture.timestamp
           (notes_fixture.at_ 7500) notes_fixture.stored "n3"
           (notesRoute.mkFields None (Some "Todo today") None None)).
  - apply (bool_decide_unpack _). vm_compute. exact I.
  - reflexivity.
Defined.

Lemma notes_keep_primary_key_witness :
  NoDup (notes.id <$>
           (notesRoute.post_note notes_fixture.trim notes_fixture.timestamp
              (notes_fixture.at_ 7500) notes_fixture.stored
              (notesRoute.mkFields (Some "n4") (Some "New") None None)).1).
Proof.
  refine (proj1 (proj2 (notes_keep_primary_key notes_fixture.trim notes_fixture.timestamp
            (notes_fixture.at_ 7500) notes_fixture.stored "n4"
            (notesRoute.mkFields (Some "n4") (Some "New") None None) _))).
  apply (bool_decide_unpack _). vm_compute. exact I.
Defined.
